(** * Post lifecycle and engagement: a shallow embedding of the post
      controller, the Post schema and the post routes.

    The controller functions ([createPost], [getPosts], [likePost],
    [addComment], [updatePost], [deletePostImage], [deletePost]) are written
    as computations over an explicit world: the [Post] and [User]
    collections, the asset store behind [deleteImage], and the sequence of
    [deleteImage] calls made so far.  A handler body runs in a small
    state-and-exception monad; the enclosing [try { } catch] of every
    handler turns an exception into the 500 response. *)

From Stdlib Require Import ZArith NArith List String Ascii Bool Lia.
From Stdlib Require Import Permutation Sorted.
Import ListNotations.

Local Open Scope string_scope.
Local Open Scope list_scope.
Local Open Scope Z_scope.

(* ================================================================= *)
(** ** Strings *)

(** Strings are sequences of 8-bit characters.  The members of the
    JavaScript white space class below 256 are TAB, LF, VT, FF, CR, SPACE
    and NBSP; [String.prototype.trim] and the validator's [trim()] both
    strip exactly that class from both ends. *)
Definition is_whitespace (c : ascii) : bool :=
  let n := nat_of_ascii c in
  (((9 <=? n) && (n <=? 13)) || (n =? 32) || (n =? 160))%nat.

Fixpoint trimStart (s : string) : string :=
  match s with
  | EmptyString => EmptyString
  | String c r => if is_whitespace c then trimStart r else s
  end.

Fixpoint trimEnd (s : string) : string :=
  match s with
  | EmptyString => EmptyString
  | String c r =>
      match trimEnd r with
      | EmptyString => if is_whitespace c then EmptyString else String c EmptyString
      | r' => String c r'
      end
  end.

Definition trim (s : string) : string := trimEnd (trimStart s).

(** JavaScript truthiness of a [string | undefined] value: [undefined] and
    the empty string are falsy. *)
Definition truthy (v : option string) : bool :=
  match v with
  | None => false
  | Some s => negb (s =? "")%string
  end.

Definition strlen (s : string) : Z := Z.of_nat (String.length s).

(* ================================================================= *)
(** ** Data model (the Post schema) *)

(** An [ObjectId].  [toString()] is injective on ObjectIds, so the string
    comparison [post.author.toString() !== req.user?.id] is the comparison
    of the two identifiers. *)
Definition ObjectId := N.
Bind Scope N_scope with ObjectId.

(** [req.params.id], the [:id] of the URL, as [Post.findById] casts it: an
    ObjectId, or [None] for a string that is not a well-formed ObjectId. *)
Definition ParamId := option ObjectId.
Bind Scope N_scope with ParamId.

Definition wellFormed (i : N) : ParamId := Some i.
Coercion wellFormed : N >-> ParamId.

(** A [Date], as milliseconds. *)
Definition Date := Z.

Record IImageDocument := mkImage {
  url : string;
  publicId : string
}.

Record ICommentDocument := mkComment {
  c_id : ObjectId;
  userId : ObjectId;
  username : string;
  text : string;
  c_createdAt : Date;
  c_updatedAt : Date
}.

Record Likes := mkLikes {
  count : Z;
  users : list string
}.

Record IPostDocument := mkPost {
  p_id : ObjectId;
  author : ObjectId;
  authorUsername : string;
  authorProfilePicture : string;
  content : option string;
  images : list IImageDocument;
  likes : Likes;
  comments : list ICommentDocument;
  isEdited : bool;
  editedAt : option Date;
  createdAt : Date;
  updatedAt : Date
}.

(** The fields of a [User] document the post controller reads. *)
Record IUser := mkUser {
  u_id : ObjectId;
  u_username : string;
  u_profilePicture : string
}.

(** Assignments to the fields of a loaded document. *)
Definition set_content (v : option string) (p : IPostDocument) : IPostDocument :=
  mkPost (p_id p) (author p) (authorUsername p) (authorProfilePicture p)
         v (images p) (likes p) (comments p) (isEdited p) (editedAt p)
         (createdAt p) (updatedAt p).

Definition set_images (v : list IImageDocument) (p : IPostDocument) : IPostDocument :=
  mkPost (p_id p) (author p) (authorUsername p) (authorProfilePicture p)
         (content p) v (likes p) (comments p) (isEdited p) (editedAt p)
         (createdAt p) (updatedAt p).

Definition set_likes (v : Likes) (p : IPostDocument) : IPostDocument :=
  mkPost (p_id p) (author p) (authorUsername p) (authorProfilePicture p)
         (content p) (images p) v (comments p) (isEdited p) (editedAt p)
         (createdAt p) (updatedAt p).

Definition set_comments (v : list ICommentDocument) (p : IPostDocument) : IPostDocument :=
  mkPost (p_id p) (author p) (authorUsername p) (authorProfilePicture p)
         (content p) (images p) (likes p) v (isEdited p) (editedAt p)
         (createdAt p) (updatedAt p).

Definition set_edited (now : Date) (p : IPostDocument) : IPostDocument :=
  mkPost (p_id p) (author p) (authorUsername p) (authorProfilePicture p)
         (content p) (images p) (likes p) (comments p) true (Some now)
         (createdAt p) (updatedAt p).

Definition set_updatedAt (now : Date) (p : IPostDocument) : IPostDocument :=
  mkPost (p_id p) (author p) (authorUsername p) (authorProfilePicture p)
         (content p) (images p) (likes p) (comments p) (isEdited p) (editedAt p)
         (createdAt p) now.

(** The [trim: true] option of a String path is a setter: a non-empty
    string is trimmed when it is assigned. *)
Definition setter_trim (v : option string) : option string :=
  match v with
  | None => None
  | Some s => Some (trim s)
  end.

(** *** Schema validation *)

(** [required: true] on a String path rejects the empty string. *)
Definition required (s : string) : bool := negb (s =? "")%string.

Definition maxlength (n : Z) (s : string) : bool := strlen s <=? n.

Definition valid_image (i : IImageDocument) : bool :=
  required (url i) && required (publicId i).

Definition valid_comment (c : ICommentDocument) : bool :=
  required (username c) && required (text c) && maxlength 500 (text c).

Definition valid_content (v : option string) : bool :=
  match v with
  | None => true
  | Some s => maxlength 2000 s
  end.

(** The validators of [postSchema], [imageSchema] and [commentSchema].
    Mongoose runs them on the required and the modified paths of a document
    that is saved; every stored document has passed all of them when it was
    written, so running them on the whole document accepts the same saves. *)
Definition validateSync (p : IPostDocument) : option string :=
  if negb (required (authorUsername p)) then
    Some "Path `authorUsername` is required."
  else if negb (valid_content (content p)) then
    Some "Post content cannot exceed 2000 characters"
  else if negb (forallb valid_image (images p)) then
    Some "Path `url` is required."
  else if negb (forallb valid_comment (comments p)) then
    Some "Comment cannot exceed 500 characters"
  else None.

(** [postSchema.pre('save')]: the exception it throws, if any. *)
Definition preSave (p : IPostDocument) : option string :=
  if negb (truthy (content p)) && (Z.of_nat (List.length (images p)) =? 0) then
    Some "Post must have either content or at least one image"
  else None.

(* ================================================================= *)
(** ** Requests and responses *)

(** An uploaded file as multer-cloudinary reports it. *)
Record MulterFile := mkFile {
  path : string;
  filename : string
}.

(** [req.user], attached by the [protect] middleware. *)
Record AuthUser := mkAuthUser {
  a_id : ObjectId;
  a_username : string;
  email : string
}.

(** A body field that is a string (form-data) or already an array. *)
Inductive FormValue :=
| FormString (s : string)
| FormArray (l : list string).

Record Request := mkRequest {
  params_id : ParamId;                        (* req.params.id *)
  params_publicId : string;                   (* req.params.publicId *)
  query_page : option Z;                      (* parseInt(req.query.page); None is NaN *)
  query_limit : option Z;                     (* parseInt(req.query.limit); None is NaN *)
  body_content : option string;               (* req.body.content *)
  body_text : option string;                  (* req.body.text *)
  body_imagesToDelete : option FormValue;     (* req.body.imagesToDelete *)
  files : option (list MulterFile);           (* req.files *)
  user : option AuthUser;                     (* req.user *)
  validation : list string                    (* validationResult(req).array() *)
}.

Record Pagination := mkPagination {
  currentPage : Z;
  totalPages : Z;
  totalItems : Z;
  hasMore : bool
}.

Inductive Payload :=
| PostData (p : IPostDocument)
| FeedData (posts : list IPostDocument) (pagination : Pagination)
| LikeData (l : Likes) (liked : bool)
| CommentData (c : option ICommentDocument)
| ImagesData (l : list IImageDocument).

Inductive Body :=
| Failure (error : string)                    (* {success: false, error} *)
| Invalid (errors : list string)              (* {success: false, errors} *)
| Success (data : Payload)                    (* {success: true, data, ...} *)
| Done (message : string).                    (* {success: true, message} *)

Record Response := mkResponse {
  status : Z;
  body : Body
}.

Definition json (code : Z) (b : Body) : Response := mkResponse code b.

(** The outcome classes of the error taxonomy, by status code. *)
Definition ValidationError (r : Response) : Prop := status r = 400.
Definition Forbidden (r : Response) : Prop := status r = 403.
Definition NotFound (r : Response) : Prop := status r = 404.
Definition succeeded (r : Response) : bool := (status r =? 200) || (status r =? 201).

(* ================================================================= *)
(** ** The handler monad: state and exceptions *)

Inductive Res (A : Type) :=
| Ok (a : A)
| Throw (msg : string).
Arguments Ok {A} a.
Arguments Throw {A} msg.

Definition M (S A : Type) : Type := S -> Res A * S.

Definition ret {S A} (a : A) : M S A := fun s => (Ok a, s).

Definition throw {S A} (msg : string) : M S A := fun s => (Throw msg, s).

Definition bind {S A B} (m : M S A) (k : A -> M S B) : M S B :=
  fun s =>
    match m s with
    | (Ok a, s') => k a s'
    | (Throw msg, s') => (Throw msg, s')
    end.

Notation "x <- m ;; k" := (bind m (fun x => k))
  (at level 61, m at next level, right associativity).
Notation "m ;;; k" := (bind m (fun _ => k))
  (at level 61, right associativity).

(** [for (const x of xs) { await body(x, acc) }], with the loop-carried
    value [acc]; an exception leaves the loop. *)
Fixpoint forOf {S A B} (xs : list A) (body : A -> B -> M S B) (acc : B) : M S B :=
  match xs with
  | [] => ret acc
  | x :: rest => acc' <- body x acc ;; forOf rest body acc'
  end.

(** [try { ... } catch (error) { res.status(500).json({success: false,
    error: error.message || fallback}) }]. *)
Definition try_catch {S} (m : M S Response) (fallback : string) : S -> Response * S :=
  fun s =>
    match m s with
    | (Ok r, s') => (r, s')
    | (Throw msg, s') =>
        (json 500 (Failure (if (msg =? "")%string then fallback else msg)), s')
    end.

(* ================================================================= *)
(** ** Pure helpers of the controller *)

(** [xs.includes(x)] on an array of strings. *)
Definition includes (x : string) (xs : list string) : bool :=
  existsb (fun u => (u =? x)%string) xs.

(** [imgs.findIndex((img) => img.publicId === publicId)]; [None] is -1. *)
Fixpoint findIndex (pid : string) (imgs : list IImageDocument) : option nat :=
  match imgs with
  | [] => None
  | i :: rest =>
      if (publicId i =? pid)%string then Some O
      else option_map S (findIndex pid rest)
  end.

(** [xs.splice(i, 1)]. *)
Fixpoint splice1 {A} (i : nat) (xs : list A) : list A :=
  match xs, i with
  | [], _ => []
  | _ :: rest, O => rest
  | x :: rest, S j => x :: splice1 j rest
  end.

(** [files.map((file) => ({url: file.path, publicId: file.filename}))]. *)
Definition to_images (fs : list MulterFile) : list IImageDocument :=
  map (fun f => mkImage (path f) (filename f)) fs.

(** [!files || files.length === 0]. *)
Definition no_files (fs : option (list MulterFile)) : bool :=
  match fs with
  | None => true
  | Some l => Z.of_nat (List.length l) =? 0
  end.

(** [parseInt(q) || d]: NaN and 0 are falsy. *)
Definition or_default (v : option Z) (d : Z) : Z :=
  match v with
  | Some n => if n =? 0 then d else n
  | None => d
  end.

(** [Math.ceil(a / b)] on integers, [b] non-zero. *)
Definition Math_ceil_div (a b : Z) : Z := - ((- a) / b).

(** [.sort({createdAt: -1})]: only [createdAt] is compared; documents with
    equal keys keep the order in which the collection stores them. *)
Fixpoint insert_desc (p : IPostDocument) (l : list IPostDocument) : list IPostDocument :=
  match l with
  | [] => [p]
  | q :: rest =>
      if createdAt q <=? createdAt p then p :: l
      else q :: insert_desc p rest
  end.

Fixpoint sort_createdAt_desc (l : list IPostDocument) : list IPostDocument :=
  match l with
  | [] => []
  | p :: rest => insert_desc p (sort_createdAt_desc rest)
  end.

(** [updateOne({_id})]: the stored document with this identifier is
    replaced. *)
Fixpoint replace_doc (p : IPostDocument) (l : list IPostDocument) : list IPostDocument :=
  match l with
  | [] => []
  | q :: rest =>
      if (p_id q =? p_id p)%N then p :: rest
      else q :: replace_doc p rest
  end.

(** [deleteOne({_id})]. *)
Fixpoint remove_doc (i : ObjectId) (l : list IPostDocument) : list IPostDocument :=
  match l with
  | [] => []
  | q :: rest =>
      if (p_id q =? i)%N then rest
      else q :: remove_doc i rest
  end.

(** The express-validator chains of the post routes.  A sanitizer rewrites
    the field in [req.body]; a failed check adds its message. *)
Definition with_validation (req : Request) (c : option string) (t : option string)
           (errs : list string) : Request :=
  mkRequest (params_id req) (params_publicId req) (query_page req) (query_limit req)
            c t (body_imagesToDelete req) (files req) (user req)
            (validation req ++ errs).

Definition createPostValidation (req : Request) : Request :=
  match body_content req with
  | None => req                                             (* .optional() *)
  | Some c =>
      let c' := trim c in
      with_validation req (Some c') (body_text req)
        (if strlen c' <=? 2000 then []
         else ["Content cannot exceed 2000 characters"])
  end.

Definition commentValidation (req : Request) : Request :=
  let t := trim (match body_text req with Some t => t | None => "" end) in
  with_validation req (body_content req) (Some t)
    ((if (t =? "")%string then ["Comment text is required"] else []) ++
     (if strlen t <=? 500 then []
      else ["Comment cannot exceed 500 characters"])).

(* ================================================================= *)
(** ** Values from JSON *)

(** A value [JSON.parse] returns, as far as the code looks at it:
    [updatePost] reads its [length], iterates over it, hands what it
    yields to [deleteImage] and compares it with [publicId] strings.  A
    number or a boolean is kept by its JSON text; so is an object, with
    the outcome of [object.length > 0]. *)
#[warnings="-register-all"]
Inductive JSValue :=
| JNull
| JString (s : string)
| JArray (items : list JSValue)
| JScalar (json : string)
| JObject (json : string) (length_positive : bool).

Coercion JString : string >-> JSValue.

(** [v.length > 0]: reading a property of [null] throws a TypeError; a
    number or a boolean has no [length], and [undefined > 0] is false. *)
Definition length_gt_0 (v : JSValue) : Res bool :=
  match v with
  | JNull => Throw "Cannot read properties of null (reading 'length')"
  | JString s => Ok (0 <? strlen s)
  | JArray items => Ok (0 <? Z.of_nat (List.length items))
  | JScalar _ => Ok false
  | JObject _ positive => Ok positive
  end.

(** What [for (const x of v)] goes through: the elements of an array, the
    characters of a string; another value is not iterable. *)
Definition for_of (v : JSValue) : Res (list JSValue) :=
  match v with
  | JString s => Ok (map (fun c => JString (String c EmptyString)) (list_ascii_of_string s))
  | JArray items => Ok items
  | _ => Throw "deleteList is not iterable"
  end.

(** [s === v] for a string [s]. *)
Definition same_string (s : string) (v : JSValue) : bool :=
  match v with
  | JString t => (s =? t)%string
  | _ => false
  end.

(** A value that is computed without the state. *)
Definition lift {S A} (r : Res A) : M S A := fun s => (r, s).

(* ================================================================= *)
(** ** The world and the controller *)

Section Controller.

(** The state of the external asset store. *)
Variable Cloud : Type.

(** The asset store's "delete(storageId) -> void, fails with
    DeletionError": one call either succeeds ([None]) or fails with a
    message, and moves the store to a new state.  Its argument is what
    [deleteImage] receives, a [publicId] string or another value of a
    parsed list. *)
Variable destroy : JSValue -> Cloud -> option string * Cloud.

(** [JSON.parse] on the [imagesToDelete] form field; [None] is a
    SyntaxError. *)
Variable JSON_parse : string -> option JSValue.

Record World := mkWorld {
  Posts : list IPostDocument;     (* the Post collection, in storage order *)
  Users : list IUser;             (* the User collection *)
  cloud : Cloud;                  (* the asset store *)
  deleteCalls : list JSValue;     (* the deleteImage calls made, oldest first *)
  nextId : ObjectId               (* the ObjectId generator *)
}.

Definition Handler := World -> Response * World.

Definition set_Posts (l : list IPostDocument) (w : World) : World :=
  mkWorld l (Users w) (cloud w) (deleteCalls w) (nextId w).

(** [new ObjectId()]. *)
Definition new_ObjectId : M World ObjectId :=
  fun w => (Ok (nextId w),
            mkWorld (Posts w) (Users w) (cloud w) (deleteCalls w) (N.succ (nextId w))).

(** Modelled from the spec: [deleteImage] of [config/cloudinary] is not
    among the sources.  It asks the asset store to delete the asset; a
    failure of the store is logged and does not reach the caller
    ("asset-store deletion failures ... are logged and do not block",
    "deletion of a non-existent asset is tolerated, not fatal"), so
    [await deleteImage(publicId)] always returns. *)
Definition deleteImage (pid : JSValue) : M World unit :=
  fun w =>
    let '(_, c) := destroy pid (cloud w) in
    (Ok tt, mkWorld (Posts w) (Users w) c (deleteCalls w ++ [pid]) (nextId w)).

(** [Post.findById(req.params.id)]: a string that is not a well-formed
    ObjectId makes it throw a CastError.  The text stands for mongoose's
    message, which goes on to quote the string; the handlers only pass it
    on, and it is never empty. *)
Definition Post_findById (i : ParamId) : M World (option IPostDocument) :=
  fun w =>
    match i with
    | Some i => (Ok (find (fun p => (p_id p =? i)%N) (Posts w)), w)
    | None => (Throw "Cast to ObjectId failed", w)
    end.

(** [User.findById(req.user?.id)]. *)
Definition User_findById (i : option ObjectId) : M World (option IUser) :=
  fun w =>
    (Ok match i with
        | None => None
        | Some i => find (fun u => (u_id u =? i)%N) (Users w)
        end, w).

(** [Post.countDocuments()]. *)
Definition Post_countDocuments : M World Z :=
  fun w => (Ok (Z.of_nat (List.length (Posts w))), w).

(** [Post.find().sort({createdAt: -1}).skip(skip).limit(limit)].  A negative
    skip is rejected by the database; a negative limit is read as its
    absolute value. *)
Definition Post_find_sorted (skip limit : Z) : M World (list IPostDocument) :=
  fun w =>
    if skip <? 0 then (Throw "Skip value must be non-negative", w)
    else (Ok (firstn (Z.to_nat (Z.abs limit))
                     (skipn (Z.to_nat skip) (sort_createdAt_desc (Posts w)))), w).

(** Validation and the pre-save hook, run by [create] and by [save]. *)
Definition run_hooks (p : IPostDocument) : M World unit :=
  match validateSync p with
  | Some msg => throw msg
  | None =>
      match preSave p with
      | Some msg => throw msg
      | None => ret tt
      end
  end.

(** [await post.save()]: the timestamps plugin sets [updatedAt]. *)
Definition save (now : Date) (p : IPostDocument) : M World IPostDocument :=
  run_hooks p ;;;
  let p' := set_updatedAt now p in
  fun w => (Ok p', set_Posts (replace_doc p' (Posts w)) w).

(** [Post.create({author, authorUsername, authorProfilePicture, content,
    images})]: the schema defaults fill the other paths. *)
Definition Post_create (now : Date) (u : IUser) (c : option string)
           (imgs : list IImageDocument) : M World IPostDocument :=
  i <- new_ObjectId ;;
  let p := mkPost i (u_id u) (u_username u) (u_profilePicture u)
                  (setter_trim c) imgs (mkLikes 0 []) [] false None now now in
  run_hooks p ;;;
  fun w => (Ok p, set_Posts (Posts w ++ [p]) w).

(** [await post.deleteOne()]. *)
Definition deleteOne (p : IPostDocument) : M World unit :=
  fun w => (Ok tt, set_Posts (remove_doc (p_id p) (Posts w)) w).

(** *** createPost *)
Definition createPost (now : Date) (req : Request) : Handler :=
  try_catch
    (if negb (Z.of_nat (List.length (validation req)) =? 0) then
       ret (json 400 (Invalid (validation req)))
     else
       let content := body_content req in
       let files := files req in
       if negb (truthy content) && no_files files then
         ret (json 400 (Failure "Post must have either content or at least one image"))
       else
         user <- User_findById (option_map a_id (user req)) ;;
         match user with
         | None => ret (json 404 (Failure "User not found"))
         | Some user =>
             let images := match files with
                           | Some fs => to_images fs
                           | None => []
                           end in
             post <- Post_create now user content images ;;
             ret (json 201 (Success (PostData post)))
         end)
    "Error creating post".

(** *** getPosts *)
Definition getPosts (req : Request) : Handler :=
  try_catch
    (let page := or_default (query_page req) 1 in
     let limit := or_default (query_limit req) 10 in
     let skip := (page - 1) * limit in
     totalPosts <- Post_countDocuments ;;
     posts <- Post_find_sorted skip limit ;;
     let totalPages := Math_ceil_div totalPosts limit in
     ret (json 200 (Success (FeedData posts
            (mkPagination page totalPages totalPosts (page <? totalPages))))))
    "Error fetching posts".

(** *** getPost *)
Definition getPost (req : Request) : Handler :=
  try_catch
    (post <- Post_findById (params_id req) ;;
     match post with
     | None => ret (json 404 (Failure "Post not found"))
     | Some post => ret (json 200 (Success (PostData post)))
     end)
    "Error fetching post".

(** *** likePost *)
Definition toggle (username : string) (l : Likes) : Likes :=
  if includes username (users l) then
    mkLikes (Z.max 0 (count l - 1))
            (filter (fun u => negb (u =? username)%string) (users l))
  else
    mkLikes (count l + 1) (users l ++ [username]).

Definition likePost (now : Date) (req : Request) : Handler :=
  try_catch
    (post <- Post_findById (params_id req) ;;
     match post with
     | None => ret (json 404 (Failure "Post not found"))
     | Some post =>
         let username := option_map a_username (user req) in
         if negb (truthy username) then
           ret (json 401 (Failure "User not authenticated"))
         else
           let username := match username with Some u => u | None => "" end in
           let hasLiked := includes username (users (likes post)) in
           let post := set_likes (toggle username (likes post)) post in
           post <- save now post ;;
           ret (json 200 (Success (LikeData (likes post) (negb hasLiked))))
     end)
    "Error liking post".

(** *** addComment *)

(** [post.comments[post.comments.length - 1]]. *)
Definition last_comment (cs : list ICommentDocument) : option ICommentDocument :=
  nth_error cs (List.length cs - 1).

Definition addComment (now : Date) (req : Request) : Handler :=
  try_catch
    (if negb (Z.of_nat (List.length (validation req)) =? 0) then
       ret (json 400 (Invalid (validation req)))
     else
       let text := match body_text req with Some t => t | None => "" end in
       post <- Post_findById (params_id req) ;;
       match post with
       | None => ret (json 404 (Failure "Post not found"))
       | Some post =>
           user <- User_findById (option_map a_id (user req)) ;;
           match user with
           | None => ret (json 404 (Failure "User not found"))
           | Some user =>
               i <- new_ObjectId ;;
               let newComment :=
                 mkComment i (u_id user) (u_username user) (trim text) now now in
               let post := set_comments (comments post ++ [newComment]) post in
               post <- save now post ;;
               ret (json 201 (Success (CommentData (last_comment (comments post)))))
           end
       end)
    "Error adding comment".

(** *** updatePost *)

(** [post.author.toString() !== req.user?.id]. *)
Definition not_owner (post : IPostDocument) (req : Request) : bool :=
  match user req with
  | None => true
  | Some u => negb (author post =? a_id u)%N
  end.

(** The [deleteList] of [updatePost]: a falsy field leaves it empty, a
    string is parsed (and taken as one identifier when parsing throws), an
    array is used as it is. *)
Definition deleteList_of (v : option FormValue) : JSValue :=
  match v with
  | None => JArray []
  | Some (FormString s) =>
      if (s =? "")%string then JArray []
      else match JSON_parse s with
           | Some parsed => parsed
           | None => JArray [JString s]
           end
  | Some (FormArray l) => JArray (map JString l)
  end.

(** [post.images.filter((img) => img.publicId !== publicId)]. *)
Definition without (pid : JSValue) (imgs : list IImageDocument) : list IImageDocument :=
  filter (fun img => negb (same_string (publicId img) pid)) imgs.

Definition updatePost (now : Date) (req : Request) : Handler :=
  try_catch
    (post <- Post_findById (params_id req) ;;
     match post with
     | None => ret (json 404 (Failure "Post not found"))
     | Some post =>
         if not_owner post req then
           ret (json 403 (Failure "Not authorized to edit this post"))
         else
           let content' := body_content req in
           let deleteList := deleteList_of (body_imagesToDelete req) in
           (* Delete specified images from Cloudinary *)
           positive <- lift (length_gt_0 deleteList) ;;
           imgs <- (if (positive : bool) then
                      items <- lift (for_of deleteList) ;;
                      forOf items
                            (fun publicId imgs =>
                               deleteImage publicId ;;;
                               ret (without publicId imgs))
                            (images post)
                    else ret (images post)) ;;
           (* Add new uploaded images *)
           let imgs := match files req with
                       | Some fs =>
                           if Z.of_nat (List.length fs) >? 0 then imgs ++ to_images fs
                           else imgs
                       | None => imgs
                       end in
           let post := set_images imgs post in
           (* Update content *)
           let post := match content' with
                       | Some c => set_content (setter_trim (Some c)) post
                       | None => post
                       end in
           (* Validate post still has content or images *)
           if negb (truthy (content post)) && (Z.of_nat (List.length (images post)) =? 0) then
             ret (json 400 (Failure "Post must have either content or at least one image"))
           else
             (* Mark post as edited *)
             let post := set_edited now post in
             post <- save now post ;;
             ret (json 200 (Success (PostData post)))
     end)
    "Error updating post".

(** *** deletePostImage *)
Definition deletePostImage (now : Date) (req : Request) : Handler :=
  try_catch
    (post <- Post_findById (params_id req) ;;
     match post with
     | None => ret (json 404 (Failure "Post not found"))
     | Some post =>
         if not_owner post req then
           ret (json 403 (Failure "Not authorized to edit this post"))
         else
           let publicId := params_publicId req in
           match findIndex publicId (images post) with
           | None => ret (json 404 (Failure "Image not found in post"))
           | Some imageIndex =>
               if negb (truthy (content post)) && (Z.of_nat (List.length (images post)) =? 1) then
                 ret (json 400
                   (Failure "Cannot delete last image. Post must have content or images."))
               else
                 deleteImage publicId ;;;
                 let post := set_images (splice1 imageIndex (images post)) post in
                 post <- save now post ;;
                 ret (json 200 (Success (PostData post)))
           end
     end)
    "Error deleting image".

(** *** uploadImages *)
Definition uploadImages (req : Request) : Handler :=
  try_catch
    (let files := files req in
     if no_files files then
       ret (json 400 (Failure "No images uploaded"))
     else
       let images := match files with
                     | Some fs => to_images fs
                     | None => []
                     end in
       ret (json 200 (Success (ImagesData images))))
    "Error uploading images".

(** *** deletePost *)
Definition deletePost (req : Request) : Handler :=
  try_catch
    (post <- Post_findById (params_id req) ;;
     match post with
     | None => ret (json 404 (Failure "Post not found"))
     | Some post =>
         if not_owner post req then
           ret (json 403 (Failure "Not authorized to delete this post"))
         else
           (* Delete all images from Cloudinary *)
           forOf (images post) (fun image (_ : unit) => deleteImage (publicId image)) tt ;;;
           deleteOne post ;;;
           ret (json 200 (Done "Post deleted successfully"))
     end)
    "Error deleting post".

(** *** The routes: validation chains in front of the handlers *)
Definition route_createPost (now : Date) (req : Request) : Handler :=
  createPost now (createPostValidation req).

Definition route_addComment (now : Date) (req : Request) : Handler :=
  addComment now (commentValidation req).

(** The mutations of a post that keep it in the collection. *)
Inductive Mutation :=
| CreatePost (req : Request)
| UpdatePost (req : Request)
| DeletePostImage (req : Request)
| ToggleLike (req : Request)
| AddComment (req : Request).

Definition perform (now : Date) (m : Mutation) : Handler :=
  match m with
  | CreatePost req => route_createPost now req
  | UpdatePost req => updatePost now req
  | DeletePostImage req => deletePostImage now req
  | ToggleLike req => likePost now req
  | AddComment req => route_addComment now req
  end.

(** Every request the post routes serve. *)
Inductive Call :=
| Mutate (m : Mutation)
| DeletePost (req : Request)
| GetPosts (req : Request)
| GetPost (req : Request)
| UploadImages (req : Request).

Definition serve (now : Date) (c : Call) : Handler :=
  match c with
  | Mutate m => perform now m
  | DeletePost req => deletePost req
  | GetPosts req => getPosts req
  | GetPost req => getPost req
  | UploadImages req => uploadImages req
  end.

(* ----------------------------------------------------------------- *)
(** *** Vocabulary of the properties *)

(** The stored post with a given identifier. *)
Definition lookup (i : ParamId) (w : World) : option IPostDocument :=
  match i with
  | Some i => find (fun p => (p_id p =? i)%N) (Posts w)
  | None => None
  end.

(** The requester is the author of the post. *)
Definition owner (post : IPostDocument) (req : Request) : Prop :=
  exists u, user req = Some u /\ a_id u = author post.

(** The asset store deletes every asset of a sequence, each call issued
    in the store state its predecessors left. *)
Fixpoint all_resolve (ids : list string) (c : Cloud) : bool :=
  match ids with
  | [] => true
  | i :: rest =>
      match destroy i c with
      | (None, c') => all_resolve rest c'
      | (Some _, _) => false
      end
  end.

(** The store state after a sequence of [deleteImage] calls. *)
Fixpoint cloud_after (ids : list JSValue) (c : Cloud) : Cloud :=
  match ids with
  | [] => c
  | i :: rest => cloud_after rest (snd (destroy i c))
  end.

(** The values the deletion loop of [updatePost] goes through, or the
    TypeError of [deleteList.length] or of the iteration. *)
Definition requested (v : option FormValue) : Res (list JSValue) :=
  let deleteList := deleteList_of v in
  match length_gt_0 deleteList with
  | Throw msg => Throw msg
  | Ok false => Ok []
  | Ok true => for_of deleteList
  end.

(** What steps (a)-(c) of [updatePost] make of the images and the content,
    for the values [ids] of the deletion loop. *)
Definition updated_images (ids : list JSValue) (req : Request) (post : IPostDocument)
  : list IImageDocument :=
  fold_left (fun imgs pid => without pid imgs) ids (images post)
  ++ match files req with Some fs => to_images fs | None => [] end.

Definition updated_content (req : Request) (post : IPostDocument) : option string :=
  match body_content req with
  | Some c => Some (trim c)
  | None => content post
  end.

(** A mutation whose steps would leave its post with neither content nor
    images.  For [updatePost] the steps are those of a delete list that
    the loop can go through: a list that throws there ends the handler
    before any check. *)
Definition would_violate (m : Mutation) (w : World) : Prop :=
  match m with
  | CreatePost req =>
      truthy (setter_trim (body_content req)) = false /\ no_files (files req) = true
  | UpdatePost req =>
      exists post ids,
        lookup (params_id req) w = Some post /\ owner post req /\
        requested (body_imagesToDelete req) = Ok ids /\
        truthy (updated_content req post) = false /\ updated_images ids req post = []
  | DeletePostImage req =>
      exists post img,
        lookup (params_id req) w = Some post /\ owner post req /\
        images post = [img] /\ publicId img = params_publicId req /\
        truthy (content post) = false
  | ToggleLike _ => False
  | AddComment _ => False
  end.

End Controller.

Arguments Posts {Cloud} w.
Arguments Users {Cloud} w.
Arguments cloud {Cloud} w.
Arguments deleteCalls {Cloud} w.
Arguments nextId {Cloud} w.
Arguments mkWorld {Cloud} Posts Users cloud deleteCalls nextId.
Arguments lookup {Cloud} i w.
Arguments set_Posts {Cloud} l w.
Arguments deleteImage {Cloud} destroy pid _.
Arguments deleteOne {Cloud} p _.
Arguments save {Cloud} now p _.
Arguments run_hooks {Cloud} p _.
Arguments Post_findById {Cloud} i _.
Arguments User_findById {Cloud} i _.
Arguments new_ObjectId {Cloud} _.
Arguments Post_create {Cloud} now u c imgs _.
Arguments createPost {Cloud} now req w.
Arguments route_createPost {Cloud} now req w.
Arguments getPosts {Cloud} req w.
Arguments getPost {Cloud} req w.
Arguments uploadImages {Cloud} req w.
Arguments likePost {Cloud} now req w.
Arguments addComment {Cloud} now req w.
Arguments route_addComment {Cloud} now req w.
Arguments updatePost {Cloud} destroy JSON_parse now req w.
Arguments deletePostImage {Cloud} destroy now req w.
Arguments deletePost {Cloud} destroy req w.
Arguments perform {Cloud} destroy JSON_parse now m w.
Arguments all_resolve {Cloud} destroy ids c.
Arguments cloud_after {Cloud} destroy ids c.
Arguments would_violate {Cloud} JSON_parse m w.
Arguments serve {Cloud} destroy JSON_parse now c w.

(** One step of the handler monad. *)
Ltac run_monad :=
  cbv beta iota zeta delta [bind ret throw Post_findById User_findById Post_create
                       new_ObjectId save run_hooks deleteOne fst snd].

(* ================================================================= *)
(** ** Invariants of stored posts *)

(** The content-or-images invariant: the content is non-empty after
    trimming, or there is an image. *)
Definition content_or_images (p : IPostDocument) : Prop :=
  truthy (setter_trim (content p)) = true \/ images p <> [].

(** The content of a stored post went through the schema's trim setter. *)
Definition stored_trimmed (p : IPostDocument) : Prop :=
  setter_trim (content p) = content p.

Definition stored_ok (p : IPostDocument) : Prop :=
  stored_trimmed p /\ content_or_images p.

(** [count] is the size of the [users] set, which has no duplicates. *)
Definition likes_consistent (l : Likes) : Prop :=
  count l = Z.of_nat (List.length (users l)) /\ NoDup (users l).

(** A document that [save] accepts. *)
Definition saveable (p : IPostDocument) : Prop :=
  validateSync p = None /\ preSave p = None.

(** What holds of every post the routes store. *)
Definition post_wf (p : IPostDocument) : Prop :=
  stored_ok p /\ saveable p /\ likes_consistent (likes p).

(** The worlds the post routes can be in: the Post collection starts
    empty; the User collection is written by the auth routes and the asset
    store by the upload middleware; every other change is a request
    served. *)
Inductive reachable {Cloud : Type} (destroy : JSValue -> Cloud -> option string * Cloud)
          (JSON_parse : string -> option JSValue) : World Cloud -> Prop :=
| reach_empty (us : list IUser) (c : Cloud) (calls : list JSValue) (n : ObjectId) :
    reachable destroy JSON_parse (mkWorld [] us c calls n)
| reach_outside (w : World Cloud) (us : list IUser) (c : Cloud) :
    reachable destroy JSON_parse w ->
    reachable destroy JSON_parse
              (mkWorld (Posts w) us c (deleteCalls w) (nextId w))
| reach_serve (w : World Cloud) (now : Date) (c : Call) :
    reachable destroy JSON_parse w ->
    reachable destroy JSON_parse (snd (serve destroy JSON_parse now c w)).

(** What a request makes of the Post collection: nothing, one post
    appended, one post replaced, or one post removed. *)
Inductive transition (l l' : list IPostDocument) : Prop :=
| tr_same : l' = l -> transition l l'
| tr_created (p : IPostDocument) :
    l' = l ++ [p] -> stored_trimmed p -> saveable p -> likes p = mkLikes 0 [] ->
    transition l l'
| tr_replaced (post p' : IPostDocument) :
    In post l -> l' = replace_doc p' l -> saveable p' ->
    (stored_trimmed post -> stored_trimmed p') ->
    (likes p' = likes post \/ exists u, likes p' = toggle u (likes post)) ->
    transition l l'
| tr_removed (i : ObjectId) :
    l' = remove_doc i l -> transition l l'.

(** An update request whose new content and new images the schema
    accepts: at most 2000 characters after trimming, and every uploaded
    file with a path and a file name. *)
Definition acceptable_update (req : Request) : Prop :=
  (forall c, body_content req = Some c -> strlen (trim c) <= 2000) /\
  (forall fs, files req = Some fs -> forallb valid_image (to_images fs) = true).

(** The order the feed is claimed to have: [createdAt] descending, ties
    broken by identifier descending. *)
Definition createdAt_desc_id_desc (a b : IPostDocument) : Prop :=
  createdAt a > createdAt b \/ (createdAt a = createdAt b /\ (p_id b < p_id a)%N).

(** The order the query asks for: [createdAt] descending. *)
Definition createdAt_desc (a b : IPostDocument) : Prop :=
  createdAt a >= createdAt b.

(** The posts a feed response carries. *)
Definition feed_of (r : Response) : list IPostDocument :=
  match body r with
  | Success (FeedData posts _) => posts
  | _ => []
  end.

(** The post [likePost] stores when it succeeds. *)
Definition liked_post (now : Date) (username : string) (post : IPostDocument) : IPostDocument :=
  set_updatedAt now (set_likes (toggle username (likes post)) post).

(** The post [addComment] stores when it succeeds. *)
Definition commented_post (now : Date) (c : ICommentDocument) (post : IPostDocument)
  : IPostDocument :=
  set_updatedAt now (set_comments (comments post ++ [c]) post).

(** The post [updatePost] stores when it succeeds. *)
Definition updated_post (ids : list JSValue)
           (now : Date) (req : Request) (post : IPostDocument) : IPostDocument :=
  let post1 := set_images (updated_images ids req post) post in
  let post2 := match body_content req with
               | Some c => set_content (Some (trim c)) post1
               | None => post1
               end in
  set_updatedAt now (set_edited now post2).

(** The post [deletePostImage] stores when it succeeds. *)
Definition shrunk_post (now : Date) (i : nat) (post : IPostDocument) : IPostDocument :=
  set_updatedAt now (set_images (splice1 i (images post)) post).

(** The world after a sequence of [deleteImage] calls. *)
Definition after_deletions {Cloud : Type} (destroy : JSValue -> Cloud -> option string * Cloud)
           (w : World Cloud) (ids : list JSValue) : World Cloud :=
  mkWorld (Posts w) (Users w) (cloud_after destroy ids (cloud w))
          (deleteCalls w ++ ids) (nextId w).

(* ================================================================= *)
(** ** Sample data *)

(** An asset store in which every deletion succeeds. *)
Definition always_resolves (pid : JSValue) (c : unit) : option string * unit :=
  (None, c).

(** An asset store in which the deletion of ["img_a"] fails. *)
Definition rejects_img_a (pid : JSValue) (c : unit) : option string * unit :=
  (if same_string "img_a" pid then Some "DeletionError" else None, c).

(** A form field that is never JSON. *)
Definition never_JSON (s : string) : option JSValue := None.

(** The JSON text of the array with the one string [img_a], and a
    [JSON.parse] that knows it and [null]. *)
Definition img_a_json : string :=
  String "[" (String (ascii_of_nat 34)
    ("img_a" ++ String (ascii_of_nat 34) (String "]" EmptyString)))%string.

Definition sample_JSON (s : string) : option JSValue :=
  if (s =? img_a_json)%string then Some (JArray [JString "img_a"])
  else if (s =? "null")%string then Some JNull
  else None.

Definition alice : IUser := mkUser 1 "alice" "".
Definition bob : IUser := mkUser 2 "bob" "".
Definition as_alice : option AuthUser := Some (mkAuthUser 1 "alice" "alice@example.com").
Definition as_bob : option AuthUser := Some (mkAuthUser 2 "bob" "bob@example.com").

Definition img_a : IImageDocument := mkImage "https://cdn/img_a.png" "img_a".
Definition img_b : IImageDocument := mkImage "https://cdn/img_b.png" "img_b".
Definition img_c : IImageDocument := mkImage "https://cdn/img_c.png" "img_c".

(** Alice's post "hello" with two images, created at time 100. *)
Definition hello_post : IPostDocument :=
  mkPost 10 1 "alice" "" (Some "hello") [img_a; img_b] (mkLikes 0 []) [] false None 100 100.

(** Alice's post with one image and no content. *)
Definition picture_post : IPostDocument :=
  mkPost 11 1 "alice" "" None [img_c] (mkLikes 0 []) [] false None 100 100.

(** Alice's post with three images. *)
Definition album_post : IPostDocument :=
  mkPost 12 1 "alice" "" (Some "album") [img_a; img_b; img_c] (mkLikes 0 []) [] false None 100 100.

Definition sample_world : World unit :=
  mkWorld [hello_post; picture_post; album_post] [alice; bob] tt [] 13.

Definition empty_world : World unit :=
  mkWorld [] [alice; bob] tt [] 10.

(** A request with nothing but the post identifier and the requester. *)
Definition request_on (i : ObjectId) (u : option AuthUser) : Request :=
  mkRequest i "" None None None None None None u [].

(** A request whose [:id] is not a well-formed ObjectId. *)
Definition malformed_request (u : option AuthUser) : Request :=
  mkRequest None "" None None None None None None u [].

(** Alice replaces the first image of her post "hello" by a new one. *)
Definition swap_image_request : Request :=
  mkRequest 10 "" None None None None (Some (FormArray ["img_a"]))
            (Some [mkFile "https://cdn/img_c.png" "img_c"]) as_alice [].

(** The same request as form-data: the list is sent as JSON text. *)
Definition swap_image_form_request : Request :=
  mkRequest 10 "" None None None None (Some (FormString img_a_json))
            (Some [mkFile "https://cdn/img_c.png" "img_c"]) as_alice [].

(** Alice clears the content of her post "hello" and sends [null] as the
    list of images to delete. *)
Definition null_list_request : Request :=
  mkRequest 10 "" None None (Some "") None (Some (FormString "null")) None as_alice [].

(** Alice removes the only image of her post without content. *)
Definition strip_request : Request :=
  mkRequest 11 "" None None None None (Some (FormArray ["img_c"])) None as_alice [].

(** Alice deletes the image ["img_a"] of her post "hello". *)
Definition delete_image_request : Request :=
  mkRequest 10 "img_a" None None None None None None as_alice [].

(** Bob comments on Alice's post "hello". *)
Definition comment_request : Request :=
  mkRequest 10 "" None None None (Some " nice ") None None as_bob [].

(** Alice posts a picture without content. *)
Definition picture_request : Request :=
  mkRequest 0 "" None None None None None
            (Some [mkFile "https://cdn/img_c.png" "img_c"]) as_alice [].

(** The second page of the feed, two posts a page. *)
Definition second_page_request : Request :=
  mkRequest 0 "" (Some 2) (Some 2) None None None None None [].

(** Two posts created in the same millisecond, stored in the order of
    their identifiers, and the first page of their feed. *)
Definition twin_first : IPostDocument :=
  mkPost 20 1 "alice" "" (Some "first") [] (mkLikes 0 []) [] false None 500 500.

Definition twin_second : IPostDocument :=
  mkPost 21 2 "bob" "" (Some "second") [] (mkLikes 0 []) [] false None 500 500.

Definition twin_world : World unit :=
  mkWorld [twin_first; twin_second] [alice; bob] tt [] 22.

Definition first_page_request : Request :=
  mkRequest 0 "" (Some 1) (Some 10) None None None None None [].

(** Bob tries to edit Alice's post "hello". *)
Definition intruder_request : Request :=
  mkRequest 10 "img_a" None None None None (Some (FormArray ["img_a"])) None as_bob [].

(** The requests that create the sample posts. *)
Definition hello_request : Request :=
  mkRequest 0 "" None None (Some " hello ") None None
            (Some [mkFile "https://cdn/img_a.png" "img_a";
                   mkFile "https://cdn/img_b.png" "img_b"]) as_alice [].

Definition album_request : Request :=
  mkRequest 0 "" None None (Some "album") None None
            (Some [mkFile "https://cdn/img_a.png" "img_a";
                   mkFile "https://cdn/img_b.png" "img_b";
                   mkFile "https://cdn/img_c.png" "img_c"]) as_alice [].

Definition first_request : Request :=
  mkRequest 0 "" None None (Some "first") None None None as_alice [].

Definition second_request : Request :=
  mkRequest 0 "" None None (Some "second") None None None as_bob [].

(* ================================================================= *)
(** ** Vocabulary of the requests' effects *)

(** The identifier of the post a mutation is about: the one it names, or
    the next identifier for a creation. *)
Definition subject {Cloud : Type} (m : Mutation) (w : World Cloud) : ParamId :=
  match m with
  | CreatePost _ => nextId w
  | UpdatePost req => params_id req
  | DeletePostImage req => params_id req
  | ToggleLike req => params_id req
  | AddComment req => params_id req
  end.

(** How a mutation rewrites the stored post it is about, when it does. *)
Definition rewrites (JSON_parse : string -> option JSValue) (now : Date)
           (m : Mutation) (post p' : IPostDocument) : Prop :=
  match m with
  | CreatePost _ => False
  | UpdatePost req =>
      exists ids, requested JSON_parse (body_imagesToDelete req) = Ok ids /\
                  p' = updated_post ids now req post
  | DeletePostImage req =>
      exists i, findIndex (params_publicId req) (images post) = Some i /\
                p' = shrunk_post now i post
  | ToggleLike req =>
      exists u, user req = Some u /\ p' = liked_post now (a_username u) post
  | AddComment req =>
      exists c, p' = commented_post now c post
  end.

(** What one request makes of the collection. *)
Inductive effect {Cloud : Type} (JSON_parse : string -> option JSValue) (now : Date)
          (w w' : World Cloud) : Prop :=
| ef_same :
    Posts w' = Posts w -> effect JSON_parse now w w'
| ef_created (p : IPostDocument) :
    Posts w' = Posts w ++ [p] -> p_id p = nextId w -> (nextId w < nextId w')%N ->
    isEdited p = false -> editedAt p = None -> comments p = [] ->
    effect JSON_parse now w w'
| ef_edited (m : Mutation) (post p' : IPostDocument) :
    lookup (p_id post) w = Some post -> Posts w' = replace_doc p' (Posts w) ->
    subject m w = p_id post -> rewrites JSON_parse now m post p' ->
    effect JSON_parse now w w'
| ef_removed (post : IPostDocument) :
    lookup (p_id post) w = Some post -> Posts w' = remove_doc (p_id post) (Posts w) ->
    effect JSON_parse now w w'.

(** Identifiers are unique and below the generator. *)
Definition ids_fresh {Cloud : Type} (w : World Cloud) : Prop :=
  NoDup (map p_id (Posts w)) /\ Forall (fun p => (p_id p < nextId w)%N) (Posts w).

(** [isEdited] and [editedAt] are set together. *)
Definition edited_together (p : IPostDocument) : Prop :=
  isEdited p = true <-> editedAt p <> None.

(** A handler computation that only moves the identifier generator
    forward. *)
Definition forward {Cloud A : Type} (m : M (World Cloud) A) : Prop :=
  forall w, (nextId w <= nextId (snd (m w)))%N.

(** The feed request for a page and a limit. *)
Definition page_request (page limit : Z) : Request :=
  mkRequest 0 "" (Some page) (Some limit) None None None None None [].

(** The posts of a page of the feed. *)
Definition feed_page {Cloud : Type} (w : World Cloud) (limit : Z) (page : nat)
  : list IPostDocument :=
  feed_of (fst (getPosts (page_request (Z.of_nat page) limit) w)).

(* ================================================================= *)
(** ** The error handler, the CORS policy and authentication *)

(** *** errorHandler *)

(** The error the handler receives.  [err_keyValue] holds
    [Object.keys(err.keyValue)]. *)
Record CustomError := mkError {
  err_name : string;
  err_message : string;
  err_statusCode : option Z;
  err_code : option Z;
  err_keyValue : option (list string)
}.

(** [Object.keys(err.keyValue || {})[0]] inside a template string: a
    missing first key prints as "undefined". *)
Definition first_key (kv : option (list string)) : string :=
  match kv with
  | Some (k :: _) => k
  | _ => "undefined"
  end.

(** [err.code === n]. *)
Definition code_is (c : option Z) (n : Z) : bool :=
  match c with
  | Some c => c =? n
  | None => false
  end.

Definition errorHandler (err : CustomError) : Response :=
  let statusCode := or_default (err_statusCode err) 500 in
  let message := if (err_message err =? "")%string then "Internal Server Error"
                 else err_message err in
  (* Mongoose duplicate key error *)
  let '(statusCode, message) :=
    if code_is (err_code err) 11000 then
      (400, (first_key (err_keyValue err) ++ " already exists")%string)
    else (statusCode, message) in
  (* Mongoose validation error *)
  let statusCode := if (err_name err =? "ValidationError")%string then 400 else statusCode in
  (* Mongoose CastError (invalid ObjectId) *)
  let '(statusCode, message) :=
    if (err_name err =? "CastError")%string then (400, "Invalid ID format")
    else (statusCode, message) in
  json statusCode (Failure message).

(** *** The CORS origin callback *)

(** [[...].filter(Boolean)]: the three development origins and
    [process.env.FRONTEND_URL] when it is set and not empty. *)
Definition allowedOrigins (FRONTEND_URL : option string) : list string :=
  flat_map (fun o => match o with
                     | Some s => if truthy o then [s] else []
                     | None => []
                     end)
           [Some "http://localhost:5173"; Some "http://localhost:5174";
            Some "http://localhost:5175"; FRONTEND_URL].

(** [callback(error, allow)]. *)
Record CorsAnswer := mkCors {
  cors_error : option string;
  cors_allow : bool
}.

(** The [origin] function handed to [cors]: its answer and what it logs. *)
Definition cors_origin (FRONTEND_URL : option string) (origin : option string)
  : CorsAnswer * list string :=
  (* Allow requests with no origin (like mobile apps or curl) *)
  if negb (truthy origin) then (mkCors None true, [])
  else
    let o := match origin with Some o => o | None => "" end in
    if includes o (allowedOrigins FRONTEND_URL) then (mkCors None true, [])
    else (mkCors None true, [("CORS blocked origin: " ++ o)%string]).

(** *** protect *)

(** [s.split(' ')]. *)
Fixpoint split_space (s : string) : list string :=
  match s with
  | EmptyString => [EmptyString]
  | String c r =>
      if (c =? " ")%char then EmptyString :: split_space r
      else match split_space r with
           | x :: xs => String c x :: xs
           | [] => [String c EmptyString]
           end
  end.

(** [s.startsWith(p)]. *)
Fixpoint startsWith (p s : string) : bool :=
  match p, s with
  | EmptyString, _ => true
  | String a p', String b s' => (a =? b)%char && startsWith p' s'
  | String _ _, EmptyString => false
  end.

(** The token [protect] reads from [req.headers.authorization]. *)
Definition bearer_token (authorization : option string) : option string :=
  match authorization with
  | Some h =>
      if truthy (Some h) && startsWith "Bearer" h then nth_error (split_space h) 1
      else None
  | None => None
  end.

(** [req.user = ...]. *)
Definition with_user (req : Request) (u : AuthUser) : Request :=
  mkRequest (params_id req) (params_publicId req) (query_page req) (query_limit req)
            (body_content req) (body_text req) (body_imagesToDelete req) (files req)
            (Some u) (validation req).

(** A middleware answers the request or hands it on with [next()]. *)
Inductive Passed :=
| Next (req : Request)
| Responded (r : Response).

(** A string without a space. *)
Fixpoint no_space (s : string) : bool :=
  match s with
  | EmptyString => true
  | String c r => negb (c =? " ")%char && no_space r
  end.

Section Protect.

Variable Cloud : Type.

(** [process.env.JWT_SECRET]. *)
Variable JWT_SECRET : option string.

(** [jwt.verify(token, secret)]: the decoded payload, or [None] when it
    throws. *)
Variable jwt_verify : string -> string -> option AuthUser.

(** The middleware, with [req.headers.authorization] as an argument of
    its own. *)
Definition protect (authorization : option string) (req : Request)
  : World Cloud -> Passed * World Cloud :=
  fun w =>
    match
      (let token := bearer_token authorization in
       if negb (truthy token) then
         ret (Responded (json 401 (Failure "Not authorized, no token provided")))
       else
         let token := match token with Some t => t | None => "" end in
         (* Verify token *)
         if negb (truthy JWT_SECRET) then throw "JWT_SECRET is not defined"
         else
           let jwtSecret := match JWT_SECRET with Some s => s | None => "" end in
           match jwt_verify token jwtSecret with
           | None => throw "invalid token"
           | Some decoded =>
               (* Check if user still exists *)
               user <- User_findById (Some (a_id decoded)) ;;
               match user with
               | None => ret (Responded (json 401 (Failure "User no longer exists")))
               | Some _ =>
                   (* Attach user to request *)
                   ret (Next (with_user req
                                (mkAuthUser (a_id decoded) (a_username decoded)
                                            (email decoded))))
               end
           end) w
    with
    | (Ok p, w') => (p, w')
    | (Throw _, w') =>
        (Responded (json 401 (Failure "Not authorized, token invalid")), w')
    end.

End Protect.

Arguments protect {Cloud} JWT_SECRET jwt_verify authorization req _.

(** *** The auth controller *)

(** A document of the User collection, with the fields the auth
    controller reads. *)
Record IUserDocument := mkUserDocument {
  ud_id : ObjectId;
  ud_username : string;
  ud_email : string;
  ud_profilePicture : string
}.

(** The request of the auth routes: [req.body] and the messages of the
    validation chain. *)
Record AuthRequest := mkAuthRequest {
  ar_username : string;
  ar_email : string;
  ar_password : string;
  ar_validation : list string
}.

Inductive AuthBody :=
| AuthFailure (error : string)
| AuthInvalid (errors : list string)
| AuthData (_id : ObjectId) (username email profilePicture token : string).

Record AuthResponse := mkAuthResponse {
  auth_status : Z;
  auth_body : AuthBody
}.

Section AuthController.

(** [process.env.JWT_SECRET]. *)
Variable JWT_SECRET : option string.

(** [jwt.sign(payload, secret, {expiresIn: '7d'})]. *)
Variable jwt_sign : AuthUser -> string -> string.

(** The User model is not among the sources: its collection and its
    operations are parameters.  A query answers or throws and leaves the
    collection as it is; [User.create] answers the stored document or
    throws, and gives the collection afterwards. *)
Variable Accounts : Type.
Variable User_findOne_either : string -> string -> Accounts -> Res (option IUserDocument).
Variable User_findOne_email : string -> Accounts -> Res (option IUserDocument).
Variable User_create : string -> string -> string -> Accounts -> Res IUserDocument * Accounts.
Variable comparePassword : IUserDocument -> string -> Res bool.

Definition query {A} (q : Accounts -> Res A) : M Accounts A := fun s => (q s, s).

Definition auth_catch (m : M Accounts AuthResponse) (fallback : string)
  : Accounts -> AuthResponse * Accounts :=
  fun s =>
    match m s with
    | (Ok r, s') => (r, s')
    | (Throw msg, s') =>
        (mkAuthResponse 500 (AuthFailure (if (msg =? "")%string then fallback else msg)), s')
    end.

(** Generate JWT Token *)
Definition generateToken (i : ObjectId) (username email : string) : M Accounts string :=
  if negb (truthy JWT_SECRET) then throw "JWT_SECRET is not defined"
  else ret (jwt_sign (mkAuthUser i username email)
                     (match JWT_SECRET with Some s => s | None => "" end)).

Definition signup (req : AuthRequest) : Accounts -> AuthResponse * Accounts :=
  auth_catch
    (if negb (Z.of_nat (List.length (ar_validation req)) =? 0) then
       ret (mkAuthResponse 400 (AuthInvalid (ar_validation req)))
     else
       let username := ar_username req in
       let email := ar_email req in
       let password := ar_password req in
       (* Check if user already exists *)
       existingUser <- query (User_findOne_either email username) ;;
       match existingUser with
       | Some existingUser =>
           ret (mkAuthResponse 400
                  (AuthFailure (if (ud_email existingUser =? email)%string
                                then "Email already registered"
                                else "Username already taken")))
       | None =>
           (* Create new user *)
           user <- User_create username email password ;;
           (* Generate token *)
           token <- generateToken (ud_id user) (ud_username user) (ud_email user) ;;
           ret (mkAuthResponse 201
                  (AuthData (ud_id user) (ud_username user) (ud_email user)
                            (ud_profilePicture user) token))
       end)
    "Server error during registration".

Definition login (req : AuthRequest) : Accounts -> AuthResponse * Accounts :=
  auth_catch
    (if negb (Z.of_nat (List.length (ar_validation req)) =? 0) then
       ret (mkAuthResponse 400 (AuthInvalid (ar_validation req)))
     else
       let email := ar_email req in
       let password := ar_password req in
       (* Find user by email *)
       user <- query (User_findOne_email email) ;;
       match user with
       | None => ret (mkAuthResponse 401 (AuthFailure "Invalid email or password"))
       | Some user =>
           (* Check password *)
           isMatch <- query (fun _ => comparePassword user password) ;;
           if negb isMatch then
             ret (mkAuthResponse 401 (AuthFailure "Invalid email or password"))
           else
             (* Generate token *)
             token <- generateToken (ud_id user) (ud_username user) (ud_email user) ;;
             ret (mkAuthResponse 200
                    (AuthData (ud_id user) (ud_username user) (ud_email user)
                              (ud_profilePicture user) token))
       end)
    "Server error during login".

End AuthController.

Arguments signup JWT_SECRET jwt_sign {Accounts} User_findOne_either User_create req _.
Arguments login JWT_SECRET jwt_sign {Accounts} User_findOne_email comparePassword req _.

(* ================================================================= *)
(** ** Sample data of the edge cases and of authentication *)

(** A content of 2001 characters. *)
Definition long_content : string := string_of_list_ascii (repeat "a"%char 2001).

(** Alice posts it, and puts it in place of the content of her post
    "hello" while she asks for the deletion of an image. *)
Definition overlong_post_request : Request :=
  mkRequest 0 "" None None (Some long_content) None None None as_alice [].

Definition overlong_update_request : Request :=
  mkRequest 10 "" None None (Some long_content) None (Some (FormArray ["img_a"]))
            None as_alice [].

(** A requester whose account is not stored. *)
Definition as_carol : option AuthUser := Some (mkAuthUser 9 "carol" "carol@example.com").

Definition stranger_request : Request :=
  mkRequest 0 "" None None (Some "hi") None None None as_carol [].

(** Bob sends a comment of spaces. *)
Definition blank_comment_request : Request :=
  mkRequest 10 "" None None None (Some "   ") None None as_bob [].

(** Alice asks for the deletion of an asset that is no image of her post
    "hello". *)
Definition foreign_delete_request : Request :=
  mkRequest 10 "" None None None None (Some (FormArray ["img_c"])) None as_alice [].

(** The sample world after Alice has replaced an image of "hello". *)
Definition edited_world : World unit :=
  snd (serve always_resolves never_JSON 200 (Mutate (UpdatePost swap_image_request))
             sample_world).

(** A verifier that knows one token. *)
Definition sample_verify (token secret : string) : option AuthUser :=
  if (token =? "alice-token")%string && (secret =? "s3cret")%string
  then Some (mkAuthUser 1 "alice" "alice@example.com")
  else None.

Definition sample_sign (u : AuthUser) (secret : string) : string :=
  (a_username u ++ "-token")%string.

(** A User collection as a list, for the auth controller. *)
Definition sample_accounts : list IUserDocument :=
  [mkUserDocument 1 "alice" "alice@example.com" ""].

Definition sample_findOne_email (email : string) (l : list IUserDocument)
  : Res (option IUserDocument) :=
  Ok (find (fun u => (ud_email u =? email)%string) l).

Definition sample_findOne_either (email username : string) (l : list IUserDocument)
  : Res (option IUserDocument) :=
  Ok (find (fun u => (ud_email u =? email)%string || (ud_username u =? username)%string) l).

Definition sample_create (username email password : string) (l : list IUserDocument)
  : Res IUserDocument * list IUserDocument :=
  let u := mkUserDocument (N.of_nat (List.length l) + 1) username email "" in
  (Ok u, l ++ [u]).

Definition sample_comparePassword (u : IUserDocument) (password : string) : Res bool :=
  Ok (password =? "correct horse")%string.

Definition login_request (email password : string) : AuthRequest :=
  mkAuthRequest "" email password [].

Definition signup_request (username email : string) : AuthRequest :=
  mkAuthRequest username email "pass1234" [].

(* ================================================================= *)
(** ** Properties *)

(** *** Trimming *)

Lemma trimEnd_idempotent (s : string) : trimEnd (trimEnd s) = trimEnd s.
Proof.
  induction s as [|c r IH]; simpl; [reflexivity|].
  destruct (trimEnd r) as [|a r'] eqn:E.
  - destruct (is_whitespace c) eqn:W; simpl; [reflexivity|].
    now rewrite W.
  - change (trimEnd (String c (String a r'))) with
      (match trimEnd (String a r') with
       | EmptyString => if is_whitespace c then EmptyString else String c EmptyString
       | x => String c x
       end).
    now rewrite IH.
Qed.

Lemma trimStart_shape (s : string) :
  trimStart s = EmptyString \/
  exists c r, trimStart s = String c r /\ is_whitespace c = false.
Proof.
  induction s as [|c r IH]; simpl; [now left|].
  destruct (is_whitespace c) eqn:W; [exact IH|].
  right. now exists c, r.
Qed.

Lemma trimEnd_keeps_head (c : ascii) (r : string) :
  is_whitespace c = false -> exists r', trimEnd (String c r) = String c r'.
Proof.
  intros W. simpl. destruct (trimEnd r) as [|a r'].
  - rewrite W. now exists EmptyString.
  - now exists (String a r').
Qed.

Lemma trim_idempotent (s : string) : trim (trim s) = trim s.
Proof.
  unfold trim.
  destruct (trimStart_shape s) as [E | (c & r & E & W)]; rewrite E.
  - reflexivity.
  - destruct (trimEnd_keeps_head c r W) as [r' E'].
    rewrite E'. simpl trimStart. rewrite W.
    rewrite <- E'. apply trimEnd_idempotent.
Qed.

Lemma setter_trim_idempotent (v : option string) :
  setter_trim (setter_trim v) = setter_trim v.
Proof.
  destruct v as [s|]; simpl; [|reflexivity].
  now rewrite trim_idempotent.
Qed.

(** *** The collection *)

Lemma find_replace_doc (p q : IPostDocument) (l : list IPostDocument) :
  find (fun x => (p_id x =? p_id p)%N) l = Some q ->
  find (fun x => (p_id x =? p_id p)%N) (replace_doc p l) = Some p.
Proof.
  induction l as [|x l IH]; simpl; [discriminate|].
  destruct (p_id x =? p_id p)%N eqn:E; simpl.
  - now rewrite N.eqb_refl.
  - now rewrite E.
Qed.

Lemma find_some_id (i : ObjectId) (q : IPostDocument) (l : list IPostDocument) :
  find (fun x => (p_id x =? i)%N) l = Some q -> p_id q = i /\ In q l.
Proof.
  intros H. apply find_some in H. destruct H as [H1 H2].
  split; [now apply N.eqb_eq|assumption].
Qed.

Lemma Forall_replace_doc (P : IPostDocument -> Prop) (p : IPostDocument)
      (l : list IPostDocument) :
  P p -> Forall P l -> Forall P (replace_doc p l).
Proof.
  intros Hp Hl. induction Hl as [|x l Hx Hl IH]; simpl; [constructor|].
  destruct (p_id x =? p_id p)%N; constructor; assumption.
Qed.

(** *** Truthiness and the hooks *)

Lemma length_zero_iff {A} (l : list A) :
  (Z.of_nat (List.length l) =? 0) = true <-> l = [].
Proof.
  destruct l; simpl; split; intros H; try reflexivity; try discriminate;
    apply Z.eqb_eq in H; lia.
Qed.

Lemma preSave_None (p : IPostDocument) :
  preSave p = None <-> truthy (content p) = true \/ images p <> [].
Proof.
  unfold preSave.
  destruct (truthy (content p)); simpl.
  - split; auto.
  - destruct (images p) as [|i l]; simpl; split; intros H.
    + discriminate.
    + destruct H as [H|H]; [discriminate|congruence].
    + right. discriminate.
    + reflexivity.
Qed.

Lemma stored_ok_of_saveable (p : IPostDocument) :
  stored_trimmed p -> preSave p = None -> stored_ok p.
Proof.
  intros T H. split; [assumption|].
  unfold content_or_images. rewrite T. now apply preSave_None.
Qed.

(** *** Looking a post up *)

Section Lookups.

Context {Cloud : Type}.
Implicit Types (w : World Cloud) (post : IPostDocument) (i : ParamId).

Lemma lookup_some i w post :
  lookup i w = Some post -> i = wellFormed (p_id post) /\ In post (Posts w).
Proof.
  destruct i as [i|]; [|discriminate]. cbn [lookup]. intros H.
  destruct (find_some_id _ _ _ H) as [Hid Hin]. now rewrite Hid.
Qed.

Lemma lookup_wellFormed (j : ObjectId) w :
  lookup (wellFormed j) w = find (fun p => (p_id p =? j)%N) (Posts w).
Proof. reflexivity. Qed.

Lemma Post_findById_found i w post :
  lookup i w = Some post -> Post_findById i w = (Ok (Some post), w).
Proof.
  destruct i as [i|]; [|discriminate]. cbn [lookup Post_findById]. now intros ->.
Qed.

Lemma Post_findById_missing i w :
  i <> None -> lookup i w = None -> Post_findById i w = (Ok None, w).
Proof.
  destruct i as [i|]; [|now intros H]. cbn [lookup Post_findById]. now intros _ ->.
Qed.

Lemma Post_findById_malformed w :
  Post_findById None w = (Throw "Cast to ObjectId failed", w).
Proof. reflexivity. Qed.

(** The three outcomes of [Post.findById]. *)
Lemma Post_findById_cases i w :
  (i = None /\ Post_findById i w = (Throw "Cast to ObjectId failed", w)) \/
  (i <> None /\ lookup i w = None /\ Post_findById i w = (Ok None, w)) \/
  (exists post, lookup i w = Some post /\ Post_findById i w = (Ok (Some post), w)).
Proof.
  destruct i as [i|]; [|now left]. right. cbn [lookup Post_findById].
  destruct (find _ (Posts w)) as [post|].
  - right. now exists post.
  - left. repeat split. discriminate.
Qed.

Lemma lookup_replaced w post (p' : IPostDocument) i (w1 : World Cloud) :
  lookup i w = Some post ->
  p_id p' = p_id post ->
  lookup i (set_Posts (replace_doc p' (Posts w)) w1) = Some p'.
Proof.
  intros Hl Hid. destruct (lookup_some _ _ _ Hl) as [-> _].
  cbn [lookup wellFormed Posts set_Posts] in *.
  rewrite <- Hid. eapply find_replace_doc. rewrite Hid. eassumption.
Qed.

End Lookups.

(** *** Likes *)

Section LikeProperties.

Context {Cloud : Type}.
Implicit Types (w : World Cloud) (req : Request) (post : IPostDocument).

Lemma validateSync_set_likes (l : Likes) post :
  validateSync (set_likes l post) = validateSync post.
Proof. reflexivity. Qed.

Lemma preSave_set_likes (l : Likes) post :
  preSave (set_likes l post) = preSave post.
Proof. reflexivity. Qed.

Lemma likePost_success now req w post u :
  lookup (params_id req) w = Some post ->
  user req = Some u ->
  a_username u <> "" ->
  saveable post ->
  likePost now req w =
    (json 200 (Success (LikeData (toggle (a_username u) (likes post))
                                 (negb (includes (a_username u) (users (likes post)))))),
     set_Posts (replace_doc (liked_post now (a_username u) post) (Posts w)) w).
Proof.
  intros Hl Hu Hn [Hv Hp].
  unfold likePost, try_catch, bind.
  rewrite (Post_findById_found _ _ _ Hl), Hu. simpl.
  apply String.eqb_neq in Hn. rewrite Hn. simpl.
  unfold save, bind, run_hooks.
  rewrite validateSync_set_likes, preSave_set_likes, Hv, Hp.
  reflexivity.
Qed.

Lemma likePost_outcome now req w :
  (exists r, likePost now req w = (r, w) /\ succeeded r = false) \/
  (exists post u,
      lookup (params_id req) w = Some post /\ user req = Some u /\
      a_username u <> "" /\ saveable post).
Proof.
  unfold likePost, try_catch, bind.
  destruct (Post_findById_cases (params_id req) w)
    as [[_ E] | [(_ & _ & E) | (post & Hl & E)]]; rewrite E.
  1,2: left; eexists; split; reflexivity.
  destruct (user req) as [u|] eqn:Hu; simpl.
  2:{ left. eexists. split; reflexivity. }
  destruct (a_username u =? "")%string eqn:Hn; simpl.
  { left. eexists. split; reflexivity. }
  unfold save, bind, run_hooks.
  rewrite validateSync_set_likes, preSave_set_likes.
  destruct (validateSync post) eqn:Hv.
  { left. unfold throw. eexists. split; reflexivity. }
  destruct (preSave post) eqn:Hp.
  { left. unfold throw. eexists. split; reflexivity. }
  right. exists post, u. apply String.eqb_neq in Hn.
  repeat split; assumption.
Qed.

(** The toggle keeps [count] equal to the number of users, and the users
    free of duplicates. *)
Lemma filter_length_NoDup (u : string) (l : list string) :
  NoDup l -> In u l ->
  S (List.length (filter (fun x => negb (x =? u)%string) l)) = List.length l.
Proof.
  induction 1 as [|x l Hx Hnd IH]; simpl; intros Hin; [contradiction|].
  destruct (x =? u)%string eqn:E; simpl.
  - apply String.eqb_eq in E. subst x. f_equal.
    clear IH Hin Hnd. induction l as [|y l IH]; simpl; [reflexivity|].
    destruct (y =? u)%string eqn:E; simpl.
    + apply String.eqb_eq in E. subst y. exfalso. apply Hx. now left.
    + f_equal. apply IH. intros H. apply Hx. now right.
  - f_equal. apply IH. destruct Hin as [H|H]; [|assumption].
    subst x. now rewrite String.eqb_refl in E.
Qed.

Lemma includes_In (u : string) (l : list string) :
  includes u l = true <-> In u l.
Proof.
  unfold includes. rewrite existsb_exists. split.
  - intros (x & Hx & E). apply String.eqb_eq in E. now subst.
  - intros H. exists u. split; [assumption|apply String.eqb_refl].
Qed.

Lemma NoDup_filter {A} (f : A -> bool) (l : list A) : NoDup l -> NoDup (filter f l).
Proof.
  induction 1 as [|x l Hx Hnd IH]; simpl; [constructor|].
  destruct (f x); [constructor|]; try assumption.
  intros H. apply filter_In in H. now apply Hx.
Qed.

Lemma toggle_consistent (u : string) (l : Likes) :
  likes_consistent l -> likes_consistent (toggle u l) /\ 0 <= count (toggle u l).
Proof.
  intros [Hc Hnd]. unfold toggle.
  destruct (includes u (users l)) eqn:E; cbn [count users].
  - apply includes_In in E.
    pose proof (filter_length_NoDup u (users l) Hnd E) as Hlen.
    split; [split|]; cbn [count users]; [lia|now apply NoDup_filter|lia].
  - assert (~ In u (users l)) as Hnot.
    { intros H. apply includes_In in H. congruence. }
    split; [split|]; cbn [count users].
    + rewrite length_app. simpl List.length. lia.
    + apply NoDup_app; [assumption|repeat constructor; auto|].
      intros x Hx [Hx'|[]]. subst. contradiction.
    + lia.
Qed.

Lemma filter_out_absent (u : string) (l : list string) :
  ~ In u l -> filter (fun x => negb (x =? u)%string) l = l.
Proof.
  induction l as [|x l IH]; simpl; intros H; [reflexivity|].
  destruct (x =? u)%string eqn:E; simpl.
  - apply String.eqb_eq in E. subst. exfalso. apply H. now left.
  - f_equal. apply IH. intros H'. apply H. now right.
Qed.

Lemma filter_out_readd (u : string) (l : list string) :
  NoDup l -> In u l ->
  Permutation (filter (fun x => negb (x =? u)%string) l ++ [u]) l.
Proof.
  induction 1 as [|x l Hx Hnd IH]; simpl; intros Hin; [contradiction|].
  destruct (x =? u)%string eqn:E; simpl.
  - apply String.eqb_eq in E. subst x.
    rewrite filter_out_absent by assumption.
    apply Permutation_sym, Permutation_cons_append.
  - constructor. apply IH. destruct Hin as [H|H]; [|assumption].
    subst x. now rewrite String.eqb_refl in E.
Qed.

Lemma includes_after_toggle (u : string) (l : Likes) :
  includes u (users (toggle u l)) = negb (includes u (users l)).
Proof.
  unfold toggle. destruct (includes u (users l)) eqn:E; cbn [users negb].
  - apply not_true_is_false. intros H. apply includes_In, filter_In in H.
    destruct H as [_ H]. now rewrite String.eqb_refl in H.
  - apply includes_In, in_or_app. right. now left.
Qed.

Lemma toggle_twice (u : string) (l : Likes) :
  likes_consistent l ->
  count (toggle u (toggle u l)) = count l /\
  Permutation (users (toggle u (toggle u l))) (users l).
Proof.
  intros [Hc Hnd].
  pose proof (includes_after_toggle u l) as Hi.
  unfold toggle at 1 3. rewrite Hi.
  unfold toggle. destruct (includes u (users l)) eqn:E; cbn [negb count users].
  - apply includes_In in E.
    pose proof (filter_length_NoDup u (users l) Hnd E).
    split; [lia|now apply filter_out_readd].
  - assert (~ In u (users l)) as Hnot.
    { intros H. apply includes_In in H. congruence. }
    split; [lia|].
    rewrite filter_app, filter_out_absent by assumption.
    simpl. rewrite String.eqb_refl. simpl. now rewrite app_nil_r.
Qed.

Lemma liked_post_saveable now (u : string) post :
  saveable post -> saveable (liked_post now u post).
Proof. intros H. exact H. Qed.

Lemma likePost_cases now req w post :
  lookup (params_id req) w = Some post ->
  (exists r, likePost now req w = (r, w) /\ succeeded r = false) \/
  (exists u w',
      user req = Some u /\ a_username u <> "" /\ saveable post /\
      likePost now req w =
        (json 200 (Success (LikeData (toggle (a_username u) (likes post))
                                     (negb (includes (a_username u) (users (likes post)))))),
         w') /\
      lookup (params_id req) w' = Some (liked_post now (a_username u) post) /\
      cloud w' = cloud w /\ deleteCalls w' = deleteCalls w /\
      Posts w' = replace_doc (liked_post now (a_username u) post) (Posts w)).
Proof.
  intros Hl.
  destruct (likePost_outcome now req w) as [H | (post' & u & Hl' & Hu & Hn & Hs)];
    [now left|right].
  rewrite Hl in Hl'. inversion Hl'; subst post'. clear Hl'.
  exists u, (set_Posts (replace_doc (liked_post now (a_username u) post) (Posts w)) w).
  split; [assumption|]. split; [assumption|]. split; [assumption|].
  split; [now apply likePost_success|].
  split; [|split; [reflexivity|split; reflexivity]].
  now apply (lookup_replaced w post).
Qed.

End LikeProperties.

(** *** The deletion loops *)

Section DeletionLoops.

Context {Cloud : Type} (destroy : JSValue -> Cloud -> option string * Cloud).
Implicit Types (w : World Cloud) (ids : list JSValue).

(** The world after a sequence of [deleteImage] calls. *)
Lemma world_eta w :
  mkWorld (Posts w) (Users w) (cloud w) (deleteCalls w ++ []) (nextId w) = w.
Proof. destruct w. simpl. now rewrite app_nil_r. Qed.

Lemma deleteImage_returns (pid : JSValue) w :
  deleteImage destroy pid w =
    (Ok tt, mkWorld (Posts w) (Users w) (snd (destroy pid (cloud w)))
                    (deleteCalls w ++ [pid]) (nextId w)).
Proof. unfold deleteImage. now destruct (destroy pid (cloud w)). Qed.

(** The deletion loop of [updatePost] goes through all its values, whatever
    the asset store answers. *)
Lemma update_loop ids (imgs : list IImageDocument) w :
  forOf ids (fun publicId imgs => deleteImage destroy publicId ;;; ret (without publicId imgs))
        imgs w =
    (Ok (fold_left (fun imgs pid => without pid imgs) ids imgs),
     mkWorld (Posts w) (Users w) (cloud_after destroy ids (cloud w))
             (deleteCalls w ++ ids) (nextId w)).
Proof.
  revert imgs w. induction ids as [|i ids IH]; intros imgs w; simpl.
  - unfold ret. now rewrite world_eta.
  - unfold bind at 1. unfold bind at 1. rewrite deleteImage_returns.
    unfold ret at 1. rewrite IH.
    cbn [Posts Users cloud deleteCalls nextId snd].
    now rewrite <- app_assoc.
Qed.

(** So does the loop of [deletePost]. *)
Lemma delete_loop (imgs : list IImageDocument) w :
  forOf imgs (fun image (_ : unit) => deleteImage destroy (publicId image)) tt w =
    (Ok tt,
     mkWorld (Posts w) (Users w)
             (cloud_after destroy (map JString (map publicId imgs)) (cloud w))
             (deleteCalls w ++ map JString (map publicId imgs)) (nextId w)).
Proof.
  revert w. induction imgs as [|i imgs IH]; intros w; simpl.
  - unfold ret. now rewrite world_eta.
  - unfold bind at 1. rewrite deleteImage_returns.
    rewrite IH.
    cbn [Posts Users cloud deleteCalls nextId snd].
    now rewrite <- app_assoc.
Qed.

End DeletionLoops.

(** *** updatePost *)

Section UpdateProperties.

Context {Cloud : Type} (destroy : JSValue -> Cloud -> option string * Cloud)
        (JSON_parse : string -> option JSValue).
Implicit Types (w : World Cloud) (req : Request) (post : IPostDocument).

Lemma not_owner_false post req : owner post req -> not_owner post req = false.
Proof.
  intros (u & Hu & E). unfold not_owner. rewrite Hu, E.
  now rewrite N.eqb_refl.
Qed.

Lemma not_owner_true post req :
  (forall u, user req = Some u -> a_id u <> author post) -> not_owner post req = true.
Proof.
  intros H. unfold not_owner. destruct (user req) as [u|]; [|reflexivity].
  apply negb_true_iff, N.eqb_neq. intros E. now apply (H u).
Qed.

Lemma not_owner_cases post req :
  not_owner post req = true \/ owner post req.
Proof.
  unfold not_owner, owner. destruct (user req) as [u|]; [|now left].
  destruct (author post =? a_id u)%N eqn:E; [right|now left].
  exists u. apply N.eqb_eq in E. now split.
Qed.

Lemma updated_post_images (ids : list JSValue) now req post :
  images (updated_post ids now req post) = updated_images ids req post.
Proof. unfold updated_post. destruct (body_content req); reflexivity. Qed.

Lemma updated_post_content (ids : list JSValue) now req post :
  content (updated_post ids now req post) = updated_content req post.
Proof. unfold updated_post, updated_content. destruct (body_content req); reflexivity. Qed.

Lemma update_tail now (post2 : IPostDocument) (w1 : World Cloud) :
  (let (r0, s') :=
     (if negb (truthy (content post2)) && (Z.of_nat (List.length (images post2)) =? 0)
      then ret (json 400 (Failure "Post must have either content or at least one image"))
      else post0 <- save now (set_edited now post2) ;;
           ret (json 200 (Success (PostData post0)))) w1 in
   match r0 with
   | Ok r => (r, s')
   | Throw msg =>
       (json 500 (Failure (if (msg =? "")%string then "Error updating post" else msg)), s')
   end) =
  (if negb (truthy (content post2)) && (Z.of_nat (List.length (images post2)) =? 0)
   then (json 400 (Failure "Post must have either content or at least one image"), w1)
   else match validateSync (set_updatedAt now (set_edited now post2)) with
        | Some msg =>
            (json 500 (Failure (if (msg =? "")%string then "Error updating post" else msg)),
             w1)
        | None =>
            (json 200 (Success (PostData (set_updatedAt now (set_edited now post2)))),
             set_Posts (replace_doc (set_updatedAt now (set_edited now post2)) (Posts w1)) w1)
        end).
Proof.
  destruct (negb (truthy (content post2)) &&
            (Z.of_nat (List.length (images post2)) =? 0)) eqn:C; [reflexivity|].
  unfold save, bind, run_hooks.
  change (validateSync (set_edited now post2)) with (validateSync post2).
  change (validateSync (set_updatedAt now (set_edited now post2))) with (validateSync post2).
  destruct (validateSync post2); [reflexivity|].
  change (preSave (set_edited now post2)) with (preSave post2).
  unfold preSave. rewrite C. reflexivity.
Qed.

(** The deletion loop with its guard, for a list that can be gone
    through and for one that cannot. *)
Lemma requested_cases (v : option FormValue) :
  (exists ids, requested JSON_parse v = Ok ids /\
     ((length_gt_0 (deleteList_of JSON_parse v) = Ok false /\ ids = []) \/
      (length_gt_0 (deleteList_of JSON_parse v) = Ok true /\
       for_of (deleteList_of JSON_parse v) = Ok ids))) \/
  (exists msg, requested JSON_parse v = Throw msg /\
     (length_gt_0 (deleteList_of JSON_parse v) = Throw msg \/
      (length_gt_0 (deleteList_of JSON_parse v) = Ok true /\
       for_of (deleteList_of JSON_parse v) = Throw msg))).
Proof.
  unfold requested.
  destruct (length_gt_0 (deleteList_of JSON_parse v)) as [[|]|msg] eqn:E.
  - destruct (for_of (deleteList_of JSON_parse v)) as [ids|msg] eqn:F.
    + left. exists ids. split; [reflexivity|]. right. now split.
    + right. exists msg. split; [reflexivity|]. right. now split.
  - left. exists []. split; [reflexivity|]. left. now split.
  - right. exists msg. split; [reflexivity|]. now left.
Qed.

Lemma updatePost_resolved now req w post (ids : list JSValue) :
  lookup (params_id req) w = Some post ->
  owner post req ->
  requested JSON_parse (body_imagesToDelete req) = Ok ids ->
  let w1 := after_deletions destroy w ids in
  let post' := updated_post ids now req post in
  updatePost destroy JSON_parse now req w =
    if negb (truthy (updated_content req post)) &&
       (Z.of_nat (List.length (updated_images ids req post)) =? 0)
    then (json 400 (Failure "Post must have either content or at least one image"), w1)
    else match validateSync post' with
         | Some msg =>
             (json 500 (Failure (if (msg =? "")%string then "Error updating post" else msg)), w1)
         | None =>
             (json 200 (Success (PostData post')), set_Posts (replace_doc post' (Posts w)) w1)
         end.
Proof.
  intros Hl Ho Hr w1 post'.
  unfold updatePost, try_catch. unfold bind at 1.
  rewrite (Post_findById_found _ _ _ Hl). rewrite (not_owner_false _ _ Ho).
  assert ((positive <- lift (length_gt_0 (deleteList_of JSON_parse (body_imagesToDelete req))) ;;
           (if (positive : bool)
            then items <- lift (for_of (deleteList_of JSON_parse (body_imagesToDelete req))) ;;
                 forOf items
                       (fun publicId imgs =>
                          deleteImage destroy publicId ;;; ret (without publicId imgs))
                       (images post)
            else ret (images post))) w =
          (Ok (fold_left (fun imgs pid => without pid imgs) ids (images post)), w1)) as Hloop.
  { destruct (requested_cases (body_imagesToDelete req))
      as [(ids' & E & [[El ->] | [El Ef]]) | (msg & E & _)];
      rewrite E in Hr; inversion Hr; subst; unfold bind, lift; rewrite El.
    - unfold ret, w1, after_deletions. cbn [cloud_after fold_left].
      now rewrite world_eta.
    - rewrite Ef. apply update_loop. }
  unfold bind at 1. unfold bind at 1 in Hloop.
  destruct (lift (length_gt_0 (deleteList_of JSON_parse (body_imagesToDelete req))) w)
    as [[positive|msg] w0] eqn:E0.
  2:{ discriminate Hloop. }
  unfold bind at 1. rewrite Hloop.
  subst post'.
  unfold updated_post, updated_content, updated_images.
  destruct (body_content req) as [c|]; destruct (files req) as [[|f fs]|];
    cbn [List.length Z.of_nat Z.gtb Z.compare to_images map];
    rewrite ?app_nil_r; exact (update_tail now _ w1).
Qed.

(** A [deleteList] that cannot be gone through ends the request before
    any deletion and any change. *)
Lemma updatePost_not_iterable now req w post (msg : string) :
  lookup (params_id req) w = Some post ->
  owner post req ->
  requested JSON_parse (body_imagesToDelete req) = Throw msg ->
  updatePost destroy JSON_parse now req w =
    (json 500 (Failure (if (msg =? "")%string then "Error updating post" else msg)), w).
Proof.
  intros Hl Ho Hr.
  unfold updatePost, try_catch. unfold bind at 1.
  rewrite (Post_findById_found _ _ _ Hl). rewrite (not_owner_false _ _ Ho).
  destruct (requested_cases (body_imagesToDelete req))
    as [(ids & E & _) | (msg' & E & [El | [El Ef]])];
    rewrite E in Hr; inversion Hr; subst; unfold bind, lift; rewrite El;
    [reflexivity | rewrite Ef; reflexivity].
Qed.

Lemma updatePost_not_found now req w :
  lookup (params_id req) w = None ->
  exists r, updatePost destroy JSON_parse now req w = (r, w) /\
            (params_id req <> None -> r = json 404 (Failure "Post not found")) /\
            (params_id req = None -> r = json 500 (Failure "Cast to ObjectId failed")).
Proof.
  intros Hl. unfold updatePost, try_catch. unfold bind at 1.
  destruct (Post_findById_cases (params_id req) w)
    as [[Hm E] | [(Hm & _ & E) | (post & Hl' & _)]]; [| |congruence];
    rewrite E; eexists; (split; [reflexivity|]); split; intros H;
    try reflexivity; contradiction.
Qed.

Lemma updatePost_forbidden now req w post :
  lookup (params_id req) w = Some post ->
  not_owner post req = true ->
  updatePost destroy JSON_parse now req w =
    (json 403 (Failure "Not authorized to edit this post"), w).
Proof.
  intros Hl Hn. unfold updatePost, try_catch. unfold bind at 1.
  now rewrite (Post_findById_found _ _ _ Hl), Hn.
Qed.

End UpdateProperties.

(** *** deletePostImage and deletePost *)

Section DeleteProperties.

Context {Cloud : Type} (destroy : JSValue -> Cloud -> option string * Cloud).
Implicit Types (w : World Cloud) (req : Request) (post : IPostDocument).

Lemma findIndex_None (pid : string) (imgs : list IImageDocument) :
  findIndex pid imgs = None <-> (forall img, In img imgs -> publicId img <> pid).
Proof.
  induction imgs as [|x l IH]; simpl.
  - split; [intros _ img []|reflexivity].
  - destruct (publicId x =? pid)%string eqn:E.
    + split; [discriminate|]. intros H. apply String.eqb_eq in E.
      exfalso. apply (H x); auto.
    + apply String.eqb_neq in E. destruct (findIndex pid l) as [i|]; simpl.
      * split; [discriminate|]. intros H.
        exfalso. enough (Some i = None) by discriminate.
        apply IH. intros img Hin. apply H. now right.
      * split; [|reflexivity]. intros _ img [Hi|Hi]; [now subst|].
        now apply IH.
Qed.

(** [findIndex] returns the first entry with the identifier, and
    [splice] removes that entry and no other. *)
Lemma findIndex_Some (pid : string) (imgs : list IImageDocument) (i : nat) :
  findIndex pid imgs = Some i ->
  exists before img behind,
    imgs = before ++ img :: behind /\ List.length before = i /\
    publicId img = pid /\
    (forall x, In x before -> publicId x <> pid) /\
    splice1 i imgs = before ++ behind.
Proof.
  revert i. induction imgs as [|x l IH]; simpl; intros i H; [discriminate|].
  destruct (publicId x =? pid)%string eqn:E.
  - inversion H; subst i. apply String.eqb_eq in E.
    exists [], x, l. split; [reflexivity|]. split; [reflexivity|].
    split; [assumption|]. split; [intros y []|reflexivity].
  - apply String.eqb_neq in E.
    destruct (findIndex pid l) as [j|]; simpl in H; [|discriminate].
    inversion H; subst i.
    destruct (IH j eq_refl) as (before & img & behind & E1 & E2 & E3 & E4 & E5).
    exists (x :: before), img, behind. simpl.
    split; [now rewrite E1|]. split; [now rewrite E2|]. split; [assumption|].
    split; [|now rewrite E5].
    intros y [Hy|Hy]; [now subst|now apply E4].
Qed.

Lemma deletePostImage_found now req w post (i : nat) :
  lookup (params_id req) w = Some post ->
  owner post req ->
  findIndex (params_publicId req) (images post) = Some i ->
  deletePostImage destroy now req w =
    if negb (truthy (content post)) && (Z.of_nat (List.length (images post)) =? 1)
    then (json 400 (Failure "Cannot delete last image. Post must have content or images."), w)
    else
      let w1 := mkWorld (Posts w) (Users w) (snd (destroy (params_publicId req) (cloud w)))
                        (deleteCalls w ++ [JString (params_publicId req)]) (nextId w) in
      match validateSync (shrunk_post now i post) with
      | Some msg =>
          (json 500 (Failure (if (msg =? "")%string then "Error deleting image" else msg)),
           w1)
      | None =>
          (json 200 (Success (PostData (shrunk_post now i post))),
           set_Posts (replace_doc (shrunk_post now i post) (Posts w)) w1)
      end.
Proof.
  intros Hl Ho Hi.
  unfold deletePostImage, try_catch. unfold bind at 1.
  rewrite (Post_findById_found _ _ _ Hl). rewrite (not_owner_false _ _ Ho). rewrite Hi.
  destruct (negb (truthy (content post)) &&
            (Z.of_nat (List.length (images post)) =? 1)) eqn:C; [reflexivity|].
  unfold bind at 1. rewrite (deleteImage_returns destroy).
  cbn [fst snd]. unfold bind, save, run_hooks.
  change (validateSync (set_images (splice1 i (images post)) post))
    with (validateSync (shrunk_post now i post)).
  destruct (validateSync (shrunk_post now i post)); [reflexivity|].
  assert (preSave (set_images (splice1 i (images post)) post) = None) as HP.
  { apply preSave_None. cbn [content images set_images].
    destruct (truthy (content post)); [now left|right].
    simpl in C.
    destruct (findIndex_Some _ _ _ Hi) as (before & img & behind & E1 & _ & _ & _ & E5).
    rewrite E5. rewrite E1 in C. rewrite length_app in C. simpl in C.
    destruct before; [destruct behind|]; discriminate. }
  rewrite HP. reflexivity.
Qed.

Lemma deletePostImage_missing now req w post :
  lookup (params_id req) w = Some post ->
  owner post req ->
  findIndex (params_publicId req) (images post) = None ->
  deletePostImage destroy now req w = (json 404 (Failure "Image not found in post"), w).
Proof.
  intros Hl Ho Hi.
  unfold deletePostImage, try_catch. unfold bind at 1.
  now rewrite (Post_findById_found _ _ _ Hl), (not_owner_false _ _ Ho), Hi.
Qed.

Lemma deletePostImage_not_found now req w :
  lookup (params_id req) w = None ->
  exists r, deletePostImage destroy now req w = (r, w) /\
            (params_id req <> None -> r = json 404 (Failure "Post not found")) /\
            (params_id req = None -> r = json 500 (Failure "Cast to ObjectId failed")).
Proof.
  intros Hl. unfold deletePostImage, try_catch. unfold bind at 1.
  destruct (Post_findById_cases (params_id req) w)
    as [[Hm E] | [(Hm & _ & E) | (post & Hl' & _)]]; [| |congruence];
    rewrite E; eexists; (split; [reflexivity|]); split; intros H;
    try reflexivity; contradiction.
Qed.

Lemma deletePost_not_found req w :
  lookup (params_id req) w = None ->
  exists r, deletePost destroy req w = (r, w) /\
            (params_id req <> None -> r = json 404 (Failure "Post not found")) /\
            (params_id req = None -> r = json 500 (Failure "Cast to ObjectId failed")).
Proof.
  intros Hl. unfold deletePost, try_catch. unfold bind at 1.
  destruct (Post_findById_cases (params_id req) w)
    as [[Hm E] | [(Hm & _ & E) | (post & Hl' & _)]]; [| |congruence];
    rewrite E; eexists; (split; [reflexivity|]); split; intros H;
    try reflexivity; contradiction.
Qed.

Lemma deletePostImage_forbidden now req w post :
  lookup (params_id req) w = Some post ->
  not_owner post req = true ->
  deletePostImage destroy now req w =
    (json 403 (Failure "Not authorized to edit this post"), w).
Proof.
  intros Hl Hn. unfold deletePostImage, try_catch. unfold bind at 1.
  now rewrite (Post_findById_found _ _ _ Hl), Hn.
Qed.

Lemma deletePost_forbidden req w post :
  lookup (params_id req) w = Some post ->
  not_owner post req = true ->
  deletePost destroy req w =
    (json 403 (Failure "Not authorized to delete this post"), w).
Proof.
  intros Hl Hn. unfold deletePost, try_catch. unfold bind at 1.
  now rewrite (Post_findById_found _ _ _ Hl), Hn.
Qed.

Lemma deletePost_owner req w post :
  lookup (params_id req) w = Some post ->
  owner post req ->
  deletePost destroy req w =
    (json 200 (Done "Post deleted successfully"),
     set_Posts (remove_doc (p_id post) (Posts w))
               (after_deletions destroy w (map JString (map publicId (images post))))).
Proof.
  intros Hl Ho.
  unfold deletePost, try_catch. unfold bind at 1.
  rewrite (Post_findById_found _ _ _ Hl), (not_owner_false _ _ Ho).
  unfold bind at 1. rewrite (delete_loop destroy).
  reflexivity.
Qed.

End DeleteProperties.

(** *** createPost and addComment *)

Section CreateProperties.

Context {Cloud : Type}.
Implicit Types (w : World Cloud) (req : Request) (post : IPostDocument).

(** A request without content and without files is answered 400, and
    nothing is written. *)
Lemma createPost_empty now req w :
  truthy (setter_trim (body_content req)) = false ->
  no_files (files req) = true ->
  exists r, route_createPost now req w = (r, w) /\ status r = 400.
Proof.
  intros Hc Hf. unfold route_createPost, createPost, try_catch.
  destruct (negb (Z.of_nat (List.length (validation (createPostValidation req))) =? 0)).
  { eexists. split; reflexivity. }
  assert (truthy (body_content (createPostValidation req)) = false) as Hc'.
  { unfold createPostValidation. destruct (body_content req) as [c|] eqn:E.
    - exact Hc.
    - now rewrite E. }
  assert (files (createPostValidation req) = files req) as Hf'.
  { unfold createPostValidation. now destruct (body_content req). }
  rewrite Hc', Hf', Hf. eexists. split; reflexivity.
Qed.

(** The outcomes of [createPost]: nothing is written, or the new post is
    appended with the schema defaults. *)
Lemma createPost_outcome now req w :
  (exists r w', route_createPost now req w = (r, w') /\ succeeded r = false /\
                Posts w' = Posts w /\ cloud w' = cloud w /\ deleteCalls w' = deleteCalls w) \/
  (exists p w', route_createPost now req w = (json 201 (Success (PostData p)), w') /\
                Posts w' = Posts w ++ [p] /\
                cloud w' = cloud w /\ deleteCalls w' = deleteCalls w /\
                likes p = mkLikes 0 [] /\ comments p = [] /\ isEdited p = false /\
                stored_trimmed p /\ saveable p).
Proof.
  unfold route_createPost, createPost, try_catch.
  destruct (negb (Z.of_nat (List.length (validation (createPostValidation req))) =? 0)).
  { left. eexists. eexists. repeat split; reflexivity. }
  destruct (negb (truthy (body_content (createPostValidation req))) &&
            no_files (files (createPostValidation req))).
  { left. eexists. eexists. repeat split; reflexivity. }
  run_monad.
  destruct (option_map a_id (user (createPostValidation req))) as [i|].
  2:{ left. eexists. eexists. repeat split; reflexivity. }
  destruct (find (fun u => (u_id u =? i)%N) (Users w)) as [u|].
  2:{ left. eexists. eexists. repeat split; reflexivity. }
  run_monad.
  match goal with |- context [validateSync ?p] => set (newp := p) end.
  destruct (validateSync newp) eqn:Hv.
  { left. eexists. eexists. repeat split; reflexivity. }
  run_monad.
  destruct (preSave newp) eqn:Hp.
  { left. eexists. eexists. repeat split; reflexivity. }
  right. exists newp. eexists. split; [reflexivity|].
  repeat split; try reflexivity; try assumption.
  unfold stored_trimmed. subst newp. cbn [content]. apply setter_trim_idempotent.
Qed.

Lemma last_comment_snoc (cs : list ICommentDocument) (c : ICommentDocument) :
  last_comment (cs ++ [c]) = Some c.
Proof.
  unfold last_comment. rewrite length_app. simpl.
  replace (List.length cs + 1 - 1)%nat with (List.length cs + 0)%nat by lia.
  now rewrite nth_error_app2, Nat.add_0_r, Nat.sub_diag by lia.
Qed.

(** The outcomes of [addComment]: nothing is written, or the post is
    stored with one more comment and no other change. *)
Lemma addComment_outcome now req w :
  (exists r w', route_addComment now req w = (r, w') /\ succeeded r = false /\
                Posts w' = Posts w /\ cloud w' = cloud w /\ deleteCalls w' = deleteCalls w) \/
  (exists post c w',
      lookup (params_id req) w = Some post /\
      route_addComment now req w = (json 201 (Success (CommentData (Some c))), w') /\
      Posts w' = replace_doc (commented_post now c post) (Posts w) /\
      cloud w' = cloud w /\ deleteCalls w' = deleteCalls w /\
      saveable (commented_post now c post)).
Proof.
  unfold route_addComment, addComment, try_catch.
  destruct (negb (Z.of_nat (List.length (validation (commentValidation req))) =? 0)).
  { left. eexists. eexists. repeat split; reflexivity. }
  run_monad.
  change (params_id (commentValidation req)) with (params_id req).
  destruct (params_id req) as [j|].
  2:{ left. eexists. eexists. repeat split; reflexivity. }
  unfold lookup.
  destruct (find (fun p => (p_id p =? j)%N) (Posts w)) as [post|] eqn:Hl.
  2:{ left. eexists. eexists. repeat split; reflexivity. }
  run_monad.
  destruct (option_map a_id (user (commentValidation req))) as [i|].
  2:{ left. eexists. eexists. repeat split; reflexivity. }
  destruct (find (fun u => (u_id u =? i)%N) (Users w)) as [u|].
  2:{ left. eexists. eexists. repeat split; reflexivity. }
  run_monad.
  match goal with |- context [validateSync ?p] => set (newp := p) end.
  destruct (validateSync newp) eqn:Hv.
  { left. eexists. eexists. repeat split; reflexivity. }
  run_monad.
  change (preSave newp) with (preSave post).
  destruct (preSave post) eqn:Hp.
  { left. eexists. eexists. repeat split; reflexivity. }
  right. exists post. eexists. eexists. split; [reflexivity|].
  subst newp. cbn [comments set_comments set_updatedAt].
  rewrite last_comment_snoc.
  repeat split; try reflexivity; assumption.
Qed.

End CreateProperties.

(** *** The feed *)

Section FeedProperties.

Context {Cloud : Type}.
Implicit Types (w : World Cloud) (req : Request).

Lemma insert_desc_perm (p : IPostDocument) (l : list IPostDocument) :
  Permutation (insert_desc p l) (p :: l).
Proof.
  induction l as [|q l IH]; simpl; [reflexivity|].
  destruct (createdAt q <=? createdAt p); [reflexivity|].
  rewrite IH. apply perm_swap.
Qed.

Lemma sort_createdAt_desc_perm (l : list IPostDocument) :
  Permutation (sort_createdAt_desc l) l.
Proof.
  induction l as [|p l IH]; simpl; [reflexivity|].
  rewrite insert_desc_perm. now constructor.
Qed.

Lemma insert_desc_sorted (p : IPostDocument) (l : list IPostDocument) :
  StronglySorted createdAt_desc l -> StronglySorted createdAt_desc (insert_desc p l).
Proof.
  induction 1 as [|q l Hs IH Hq]; simpl.
  - repeat constructor.
  - destruct (createdAt q <=? createdAt p) eqn:E.
    + apply Z.leb_le in E. constructor; [now constructor|].
      constructor; [unfold createdAt_desc; lia|].
      eapply Forall_impl; [|exact Hq].
      unfold createdAt_desc. intros a Ha. lia.
    + apply Z.leb_gt in E. constructor; [assumption|].
      eapply Permutation_Forall; [symmetry; apply insert_desc_perm|].
      constructor; [unfold createdAt_desc; lia|assumption].
Qed.

Lemma sort_createdAt_desc_sorted (l : list IPostDocument) :
  StronglySorted createdAt_desc (sort_createdAt_desc l).
Proof.
  induction l as [|p l IH]; simpl; [constructor|].
  now apply insert_desc_sorted.
Qed.

Lemma StronglySorted_skipn {A} (R : A -> A -> Prop) (n : nat) (l : list A) :
  StronglySorted R l -> StronglySorted R (skipn n l).
Proof.
  revert l. induction n as [|n IH]; intros l H; simpl; [assumption|].
  destruct l as [|x l]; [constructor|].
  apply IH. now inversion H.
Qed.

Lemma StronglySorted_firstn {A} (R : A -> A -> Prop) (n : nat) (l : list A) :
  StronglySorted R l -> StronglySorted R (firstn n l).
Proof.
  revert l. induction n as [|n IH]; intros l H; simpl; [constructor|].
  destruct l as [|x l]; [constructor|].
  inversion H; subst. constructor; [now apply IH|].
  eapply incl_Forall; [|eassumption].
  intros a Ha. rewrite <- (firstn_skipn n l). apply in_or_app. now left.
Qed.

(** [Math.ceil(total / limit)] is the least number of pages that hold
    [total] items. *)
Lemma Math_ceil_div_spec (total limit : Z) :
  0 < limit ->
  (Math_ceil_div total limit - 1) * limit < total <= Math_ceil_div total limit * limit.
Proof.
  intros H. unfold Math_ceil_div.
  pose proof (Z.div_mod (- total) limit ltac:(lia)) as E.
  pose proof (Z.mod_pos_bound (- total) limit H) as B.
  nia.
Qed.

Lemma getPosts_valid req w (page limit : Z) :
  query_page req = Some page ->
  query_limit req = Some limit ->
  1 <= page -> 1 <= limit ->
  getPosts req w =
    (json 200 (Success (FeedData
       (firstn (Z.to_nat limit)
               (skipn (Z.to_nat ((page - 1) * limit)) (sort_createdAt_desc (Posts w))))
       (mkPagination page
                     (Math_ceil_div (Z.of_nat (List.length (Posts w))) limit)
                     (Z.of_nat (List.length (Posts w)))
                     (page <? Math_ceil_div (Z.of_nat (List.length (Posts w))) limit)))),
     w).
Proof.
  intros Hp Hl Hp1 Hl1.
  unfold getPosts, try_catch, bind, Post_countDocuments, Post_find_sorted, ret.
  rewrite Hp, Hl. unfold or_default.
  destruct (page =? 0) eqn:E1; [apply Z.eqb_eq in E1; lia|].
  destruct (limit =? 0) eqn:E2; [apply Z.eqb_eq in E2; lia|].
  destruct ((page - 1) * limit <? 0) eqn:E3; [apply Z.ltb_lt in E3; nia|].
  rewrite Z.abs_eq by lia. reflexivity.
Qed.

End FeedProperties.

(** *** Stored posts along the requests *)

Section StoredPosts.

Context {Cloud : Type} (destroy : JSValue -> Cloud -> option string * Cloud)
        (JSON_parse : string -> option JSValue).
Implicit Types (w : World Cloud) (req : Request) (post : IPostDocument).

Lemma validateSync_None (p : IPostDocument) :
  validateSync p = None <->
  required (authorUsername p) = true /\ valid_content (content p) = true /\
  forallb valid_image (images p) = true /\ forallb valid_comment (comments p) = true.
Proof.
  unfold validateSync.
  destruct (required (authorUsername p)); cbn [negb];
    [|split; [discriminate|intros (H & _); discriminate]].
  destruct (valid_content (content p)); cbn [negb];
    [|split; [discriminate|intros (_ & H & _); discriminate]].
  destruct (forallb valid_image (images p)); cbn [negb];
    [|split; [discriminate|intros (_ & _ & H & _); discriminate]].
  destruct (forallb valid_comment (comments p)); cbn [negb];
    [|split; [discriminate|intros (_ & _ & _ & H); discriminate]].
  split; auto.
Qed.

Lemma shrunk_post_valid now post (i : nat) (before behind : list IImageDocument)
      (img : IImageDocument) :
  images post = before ++ img :: behind ->
  splice1 i (images post) = before ++ behind ->
  validateSync post = None ->
  validateSync (shrunk_post now i post) = None.
Proof.
  intros E1 E2 Hv. apply validateSync_None in Hv.
  destruct Hv as (H1 & H2 & H3 & H4).
  apply validateSync_None. cbn [shrunk_post set_updatedAt set_images authorUsername
                                content images comments].
  repeat split; try assumption.
  rewrite E2. rewrite E1 in H3. rewrite forallb_app in *.
  apply andb_true_iff in H3. destruct H3 as [Ha Hb]. simpl in Hb.
  apply andb_true_iff in Hb. destruct Hb as [_ Hb].
  now rewrite Ha, Hb.
Qed.

Lemma forallb_filter {A} (f g : A -> bool) (l : list A) :
  forallb f l = true -> forallb f (filter g l) = true.
Proof.
  induction l as [|x l IH]; simpl; [reflexivity|].
  intros H. apply andb_true_iff in H. destruct H as [Hx Hl].
  destruct (g x); simpl; [rewrite Hx|]; now apply IH.
Qed.

Lemma forallb_fold_without (ids : list JSValue) (imgs : list IImageDocument) :
  forallb valid_image imgs = true ->
  forallb valid_image (fold_left (fun imgs pid => without pid imgs) ids imgs) = true.
Proof.
  revert imgs. induction ids as [|i ids IH]; intros imgs H; simpl; [assumption|].
  apply IH. now apply forallb_filter.
Qed.

(** An update whose new content and new images pass the schema leaves a
    post that passes it. *)
Lemma updated_post_valid (ids : list JSValue) now req post :
  validateSync post = None ->
  acceptable_update req ->
  validateSync (updated_post ids now req post) = None.
Proof.
  intros Hv [Hc Hf]. apply validateSync_None in Hv.
  destruct Hv as (H1 & H2 & H3 & H4).
  apply validateSync_None.
  rewrite updated_post_images, updated_post_content.
  split; [unfold updated_post; now destruct (body_content req)|].
  split.
  { unfold updated_content. destruct (body_content req) as [c|] eqn:E; [|assumption].
    cbn [valid_content]. unfold maxlength. apply Z.leb_le. now apply Hc. }
  split; [|unfold updated_post; now destruct (body_content req)].
  unfold updated_images. rewrite forallb_app.
  rewrite forallb_fold_without by assumption.
  destruct (files req) as [fs|]; [|reflexivity].
  now rewrite (Hf fs eq_refl).
Qed.

Lemma splice_keeps_hook now post (pid : string) (i : nat) :
  findIndex pid (images post) = Some i ->
  negb (truthy (content post)) && (Z.of_nat (List.length (images post)) =? 1) = false ->
  preSave (shrunk_post now i post) = None.
Proof.
  intros Hi C. apply preSave_None.
  cbn [shrunk_post set_updatedAt set_images content images].
  destruct (truthy (content post)); [now left|right].
  simpl in C.
  destruct (findIndex_Some _ _ _ Hi) as (before & img & behind & E1 & _ & _ & _ & E5).
  rewrite E5. rewrite E1 in C. rewrite length_app in C. simpl in C.
  destruct before; [destruct behind|]; discriminate.
Qed.

Lemma stored_ok_lookup w post (i : ParamId) :
  Forall stored_ok (Posts w) -> lookup i w = Some post -> stored_ok post.
Proof.
  intros HF Hl. destruct (lookup_some _ _ _ Hl) as [_ Hin].
  rewrite Forall_forall in HF. now apply HF.
Qed.

Lemma updated_post_stored_ok (ids : list JSValue) now req post :
  stored_ok post ->
  negb (truthy (updated_content req post)) &&
    (Z.of_nat (List.length (updated_images ids req post)) =? 0) = false ->
  stored_ok (updated_post ids now req post).
Proof.
  intros [Ht _] C.
  assert (stored_trimmed (updated_post ids now req post)) as Ht'.
  { unfold stored_trimmed. rewrite updated_post_content. unfold updated_content.
    destruct (body_content req) as [c|]; [|exact Ht].
    cbn [setter_trim]. now rewrite trim_idempotent. }
  split; [exact Ht'|].
  unfold content_or_images. rewrite Ht', updated_post_content, updated_post_images.
  destruct (truthy (updated_content req post)); [now left|right].
  simpl in C. intros E. rewrite E in C. discriminate.
Qed.

Lemma Forall_remove_doc (P : IPostDocument -> Prop) (i : ObjectId)
      (l : list IPostDocument) :
  Forall P l -> Forall P (remove_doc i l).
Proof.
  induction 1 as [|x l Hx Hl IH]; simpl; [constructor|].
  destruct (p_id x =? i)%N; [assumption|now constructor].
Qed.

Lemma perform_transition now (m : Mutation) w :
  transition (Posts w) (Posts (snd (perform destroy JSON_parse now m w))).
Proof.
  destruct m as [req|req|req|req|req]; cbn [perform].
  - destruct (createPost_outcome now req w)
      as [(r & w' & E & _ & HP & _) | (p & w' & E & HP & _ & _ & Hk & _ & _ & Ht & Hs)];
      rewrite E; cbn [snd].
    + now apply tr_same.
    + now apply (tr_created _ _ p).
  - destruct (lookup (params_id req) w) as [post|] eqn:Hl.
    2:{ destruct (updatePost_not_found destroy JSON_parse now req w Hl) as (r & E & _).
        rewrite E. now apply tr_same. }
    destruct (not_owner_cases post req) as [Hn|Ho].
    { rewrite (updatePost_forbidden destroy JSON_parse now req w post Hl Hn).
      now apply tr_same. }
    destruct (requested JSON_parse (body_imagesToDelete req)) as [ids|msg] eqn:Hr.
    2:{ rewrite (updatePost_not_iterable destroy JSON_parse now req w post msg Hl Ho Hr).
        now apply tr_same. }
    rewrite (updatePost_resolved destroy JSON_parse now req w post ids Hl Ho Hr).
    cbv zeta.
    destruct (negb (truthy (updated_content req post)) &&
              (Z.of_nat (List.length (updated_images ids req post)) =? 0)) eqn:C;
      [now apply tr_same|].
    destruct (validateSync (updated_post ids now req post)) eqn:Hv;
      [now apply tr_same|].
    apply (tr_replaced _ _ post (updated_post ids now req post)).
    + exact (proj2 (lookup_some _ _ _ Hl)).
    + reflexivity.
    + split; [assumption|]. apply preSave_None.
      rewrite updated_post_content, updated_post_images.
      destruct (truthy (updated_content req post)); [now left|right].
      simpl in C. intros E. rewrite E in C. discriminate.
    + intros Ht. unfold stored_trimmed. rewrite updated_post_content.
      unfold updated_content. destruct (body_content req) as [c|]; [|exact Ht].
      cbn [setter_trim]. now rewrite trim_idempotent.
    + left. unfold updated_post. now destruct (body_content req).
  - destruct (lookup (params_id req) w) as [post|] eqn:Hl.
    2:{ destruct (deletePostImage_not_found destroy now req w Hl) as (r & E & _).
        rewrite E. now apply tr_same. }
    destruct (not_owner_cases post req) as [Hn|Ho].
    { rewrite (deletePostImage_forbidden destroy now req w post Hl Hn). now apply tr_same. }
    destruct (findIndex (params_publicId req) (images post)) as [i|] eqn:Hi.
    2:{ rewrite (deletePostImage_missing destroy now req w post Hl Ho Hi).
        now apply tr_same. }
    rewrite (deletePostImage_found destroy now req w post i Hl Ho Hi).
    destruct (negb (truthy (content post)) &&
              (Z.of_nat (List.length (images post)) =? 1)) eqn:C;
      [now apply tr_same|].
    cbv zeta.
    destruct (validateSync (shrunk_post now i post)) eqn:Hv; [now apply tr_same|].
    apply (tr_replaced _ _ post (shrunk_post now i post)).
    + exact (proj2 (lookup_some _ _ _ Hl)).
    + reflexivity.
    + split; [assumption|].
      now apply (splice_keeps_hook now post (params_publicId req)).
    + intros Ht. exact Ht.
    + now left.
  - destruct (likePost_outcome now req w)
      as [(r & E & _) | (post & u & Hl & Hu & Hn & Hs)].
    + rewrite E. now apply tr_same.
    + rewrite (likePost_success now req w post u Hl Hu Hn Hs).
      apply (tr_replaced _ _ post (liked_post now (a_username u) post)).
      * exact (proj2 (lookup_some _ _ _ Hl)).
      * reflexivity.
      * exact Hs.
      * intros Ht. exact Ht.
      * right. now exists (a_username u).
  - destruct (addComment_outcome now req w)
      as [(r & w' & E & _ & HP & _) | (post & c & w' & Hl & E & HP & _ & _ & Hs)];
      rewrite E; cbn [snd].
    + now apply tr_same.
    + apply (tr_replaced _ _ post (commented_post now c post)).
      * exact (proj2 (lookup_some _ _ _ Hl)).
      * assumption.
      * exact Hs.
      * intros Ht. exact Ht.
      * now left.
Qed.

Lemma serve_transition now (c : Call) w :
  transition (Posts w) (Posts (snd (serve destroy JSON_parse now c w))).
Proof.
  destruct c as [m|req|req|req|req]; cbn [serve].
  - apply perform_transition.
  - destruct (lookup (params_id req) w) as [post|] eqn:Hl.
    2:{ destruct (deletePost_not_found destroy req w Hl) as (r & E & _).
        rewrite E. now apply tr_same. }
    destruct (not_owner_cases post req) as [Hn|Ho].
    { rewrite (deletePost_forbidden destroy req w post Hl Hn). now apply tr_same. }
    rewrite (deletePost_owner destroy req w post Hl Ho).
    now apply (tr_removed _ _ (p_id post)).
  - unfold getPosts, try_catch, bind, Post_countDocuments, Post_find_sorted, ret.
    destruct ((or_default (query_page req) 1 - 1) * or_default (query_limit req) 10 <? 0);
      now apply tr_same.
  - unfold getPost, try_catch, bind, Post_findById, ret.
    destruct (params_id req); [destruct (find _ (Posts w))|]; now apply tr_same.
  - unfold uploadImages, try_catch, ret.
    destruct (no_files (files req)); now apply tr_same.
Qed.

Lemma transition_keeps_wf (l l' : list IPostDocument) :
  transition l l' -> Forall post_wf l -> Forall post_wf l'.
Proof.
  intros [E | p E Ht Hs Hk | post p' Hin E Hs Ht Hk | i E] HF; subst l'.
  - assumption.
  - apply Forall_app. split; [assumption|]. constructor; [|constructor].
    split; [|split].
    + destruct Hs as [_ Hs]. now apply stored_ok_of_saveable.
    + assumption.
    + rewrite Hk. split; [reflexivity|constructor].
  - apply Forall_replace_doc; [|assumption].
    rewrite Forall_forall in HF. destruct (HF post Hin) as ([Hpt _] & _ & Hc).
    split; [|split].
    + destruct Hs as [_ Hs]. apply stored_ok_of_saveable; auto.
    + assumption.
    + destruct Hk as [Hk | (u & Hk)]; rewrite Hk; [assumption|].
      now apply toggle_consistent.
  - now apply Forall_remove_doc.
Qed.

(** Every post of a reachable world went through the schema, has content
    or an image, passes the save hooks, and has consistent likes. *)
Lemma reachable_posts_wf w :
  reachable destroy JSON_parse w -> Forall post_wf (Posts w).
Proof.
  induction 1 as [us c calls n | w us c _ IH | w now c _ IH].
  - constructor.
  - exact IH.
  - exact (transition_keeps_wf _ _ (serve_transition now c w) IH).
Qed.

Lemma reachable_lookup w (i : ParamId) post :
  reachable destroy JSON_parse w -> lookup i w = Some post -> post_wf post.
Proof.
  intros Hr Hl. destruct (lookup_some _ _ _ Hl) as [_ Hin].
  pose proof (reachable_posts_wf w Hr) as HF.
  rewrite Forall_forall in HF. now apply HF.
Qed.

End StoredPosts.

(* ================================================================= *)
(** ** The specification's properties *)

Section SpecProperties.

Context {Cloud : Type} (destroy : JSValue -> Cloud -> option string * Cloud)
        (JSON_parse : string -> option JSValue).
Implicit Types (w : World Cloud) (req : Request) (post : IPostDocument).

(** C2: on a post whose likes have [count] equal to the number of users
    and no duplicate user, any [likePost] call leaves the stored likes with
    [count] equal to the number of users, [count] non-negative and no
    duplicate user; and a post that [createPost] creates has count 0 and
    no users. *)
Theorem C2_likes_count_matches_users now req w post now0 req0 (w0 : World Cloud) :
  lookup (params_id req) w = Some post ->
  likes_consistent (likes post) ->
  (let '(r, w') := likePost now req w in
   exists post',
     lookup (params_id req) w' = Some post' /\
     likes_consistent (likes post') /\ 0 <= count (likes post') /\
     (succeeded r = true ->
      exists u, user req = Some u /\
                likes post' = toggle (a_username u) (likes post))) /\
  (let '(r, w') := route_createPost now0 req0 w0 in
   succeeded r = true ->
   exists p,
     r = json 201 (Success (PostData p)) /\ Posts w' = Posts w0 ++ [p] /\
     likes p = mkLikes 0 [] /\ likes_consistent (likes p)).
Proof.
  intros Hl Hc. split.
  - destruct (likePost_cases now req w post Hl)
      as [(r & E & Hf) | (u & w' & Hu & Hn & Hs & E & Hl' & _)]; rewrite E.
    + exists post. split; [assumption|]. split; [assumption|].
      split; [destruct Hc as [Hc _]; lia|].
      intros H. congruence.
    + exists (liked_post now (a_username u) post).
      destruct (toggle_consistent (a_username u) (likes post) Hc) as [H1 H2].
      split; [assumption|]. split; [exact H1|]. split; [exact H2|].
      intros _. exists u. split; [assumption|reflexivity].
  - destruct (createPost_outcome now0 req0 w0)
      as [(r & w' & E & Hf & _) | (p & w' & E & HP & _ & _ & Hk & _)]; rewrite E.
    + intros H. congruence.
    + intros _. exists p. split; [reflexivity|]. split; [assumption|].
      split; [assumption|]. rewrite Hk. split; [reflexivity|constructor].
Qed.

(** Two [likePost] calls in succession on a post that passes the save
    hooks and has consistent likes. *)
Lemma likePost_twice now1 now2 req w post u :
  lookup (params_id req) w = Some post ->
  user req = Some u ->
  a_username u <> "" ->
  saveable post ->
  likes_consistent (likes post) ->
  let '(r1, w1) := likePost now1 req w in
  let '(r2, w2) := likePost now2 req w1 in
  exists l1 post2 (liked : bool),
    r1 = json 200 (Success (LikeData l1 liked)) /\
    r2 = json 200 (Success (LikeData (likes post2) (negb liked))) /\
    lookup (params_id req) w2 = Some post2 /\
    count (likes post2) = count (likes post) /\
    Permutation (users (likes post2)) (users (likes post)).
Proof.
  intros Hl Hu Hn Hs Hc.
  destruct (likePost_cases now1 req w post Hl)
    as [(r & E & Hf) | (u1 & w1 & Hu1 & _ & _ & E1 & Hl1 & _)].
  { rewrite (likePost_success now1 req w post u Hl Hu Hn Hs) in E.
    inversion E; subst r. discriminate. }
  rewrite Hu in Hu1. inversion Hu1; subst u1. clear Hu1.
  rewrite E1.
  pose proof (liked_post_saveable now1 (a_username u) post Hs) as Hs1.
  rewrite (likePost_success now2 req w1 _ u Hl1 Hu Hn Hs1).
  exists (toggle (a_username u) (likes post)),
         (liked_post now2 (a_username u) (liked_post now1 (a_username u) post)),
         (negb (includes (a_username u) (users (likes post)))).
  split; [reflexivity|].
  split.
  { cbn [liked_post likes set_likes set_updatedAt].
    now rewrite includes_after_toggle. }
  split.
  { destruct (likePost_cases now2 req w1 _ Hl1)
      as [(r & E & Hf) | (u2 & w2 & Hu2 & _ & _ & E2 & Hl2 & _)].
    - rewrite (likePost_success now2 req w1 _ u Hl1 Hu Hn Hs1) in E.
      inversion E; subst r. discriminate.
    - rewrite Hu in Hu2. inversion Hu2; subst u2.
      rewrite (likePost_success now2 req w1 _ u Hl1 Hu Hn Hs1) in E2.
      pose proof (f_equal snd E2) as Hw. cbn [snd] in Hw.
      rewrite Hw. exact Hl2. }
  apply (toggle_twice (a_username u) (likes post) Hc).
Qed.

(** C3: for every post of a reachable world and every authenticated user,
    two [likePost] calls in succession by that user on that post both
    succeed with opposite [liked] values, and leave the likes with the
    original [count] and the original set of users. *)
Theorem C3_toggleLike_twice_restores_likes now1 now2 req w post u :
  reachable destroy JSON_parse w ->
  lookup (params_id req) w = Some post ->
  user req = Some u ->
  a_username u <> "" ->
  let '(r1, w1) := likePost now1 req w in
  let '(r2, w2) := likePost now2 req w1 in
  exists l1 post2 (liked : bool),
    r1 = json 200 (Success (LikeData l1 liked)) /\
    r2 = json 200 (Success (LikeData (likes post2) (negb liked))) /\
    lookup (params_id req) w2 = Some post2 /\
    count (likes post2) = count (likes post) /\
    Permutation (users (likes post2)) (users (likes post)).
Proof.
  intros Hr Hl Hu Hn.
  destruct (reachable_lookup destroy JSON_parse w _ post Hr Hl) as (_ & Hs & Hc).
  exact (likePost_twice now1 now2 req w post u Hl Hu Hn Hs Hc).
Qed.

(** C9: when the requester is not the author of an existing post,
    [updatePost], [deletePost] and [deletePostImage] answer 403 and leave
    the world as it was: the post, its images, the asset store and the
    list of deletion calls. *)
Theorem C9_non_owner_is_forbidden now req w post :
  lookup (params_id req) w = Some post ->
  (forall u, user req = Some u -> a_id u <> author post) ->
  (exists r, updatePost destroy JSON_parse now req w = (r, w) /\ Forbidden r) /\
  (exists r, deletePost destroy req w = (r, w) /\ Forbidden r) /\
  (exists r, deletePostImage destroy now req w = (r, w) /\ Forbidden r).
Proof.
  intros Hl Hn. apply not_owner_true in Hn.
  split; [|split].
  - rewrite (updatePost_forbidden destroy JSON_parse now req w post Hl Hn).
    eexists. split; reflexivity.
  - rewrite (deletePost_forbidden destroy req w post Hl Hn).
    eexists. split; reflexivity.
  - rewrite (deletePostImage_forbidden destroy now req w post Hl Hn).
    eexists. split; reflexivity.
Qed.

(** C10: [likePost] and [addComment] leave the content, the images,
    [isEdited] and [editedAt] of the post as they were; when they succeed
    the stored post differs by the toggled like, respectively by the one
    appended comment. *)
Theorem C10_like_and_comment_frame now req w post :
  lookup (params_id req) w = Some post ->
  (let '(r, w') := likePost now req w in
   exists post',
     lookup (params_id req) w' = Some post' /\
     content post' = content post /\ images post' = images post /\
     isEdited post' = isEdited post /\ editedAt post' = editedAt post /\
     (succeeded r = true ->
      exists u, user req = Some u /\
                likes post' = toggle (a_username u) (likes post))) /\
  (let '(r, w') := route_addComment now req w in
   exists post',
     lookup (params_id req) w' = Some post' /\
     content post' = content post /\ images post' = images post /\
     isEdited post' = isEdited post /\ editedAt post' = editedAt post /\
     (succeeded r = true ->
      exists c, r = json 201 (Success (CommentData (Some c))) /\
                comments post' = comments post ++ [c])).
Proof.
  intros Hl. split.
  - destruct (likePost_cases now req w post Hl)
      as [(r & E & Hf) | (u & w' & Hu & Hn & Hs & E & Hl' & _)]; rewrite E.
    + exists post. repeat split; try assumption. intros H. congruence.
    + exists (liked_post now (a_username u) post).
      repeat split; try assumption.
      intros _. exists u. split; [assumption|reflexivity].
  - destruct (addComment_outcome now req w)
      as [(r & w' & E & Hf & HP & _) | (post0 & c & w' & Hl0 & E & HP & _)]; rewrite E.
    + exists post. unfold lookup in *. rewrite HP.
      repeat split; try assumption. intros H. congruence.
    + rewrite Hl in Hl0. inversion Hl0; subst post0. clear Hl0.
      exists (commented_post now c post).
      split.
      { destruct (lookup_some _ _ _ Hl) as [Hi _]. rewrite Hi in *.
        cbn [lookup wellFormed] in *. rewrite HP.
        change (p_id post) with (p_id (commented_post now c post)).
        eapply find_replace_doc. exact Hl. }
      repeat split; try reflexivity.
      intros _. exists c. split; reflexivity.
Qed.

(** C5: in a reachable world, when steps (a)-(c) of an update by the
    owner leave the post with content that is empty after trimming and
    with no image, [updatePost] answers 400 and stores nothing: the post
    record is the one stored before, while the deletions asked of the
    asset store stay made. *)
Theorem C5_update_violation_keeps_record now req w post (ids : list JSValue) :
  reachable destroy JSON_parse w ->
  lookup (params_id req) w = Some post ->
  owner post req ->
  requested JSON_parse (body_imagesToDelete req) = Ok ids ->
  truthy (setter_trim (updated_content req post)) = false ->
  updated_images ids req post = [] ->
  let '(r, w') := updatePost destroy JSON_parse now req w in
  ValidationError r /\
  Posts w' = Posts w /\
  lookup (params_id req) w' = Some post /\
  deleteCalls w' = deleteCalls w ++ ids /\
  cloud w' = cloud_after destroy ids (cloud w).
Proof.
  intros Hw Hl Ho Hr Hc Hi.
  destruct (reachable_lookup destroy JSON_parse w _ post Hw Hl) as ([Ht _] & _ & _).
  rewrite (updatePost_resolved destroy JSON_parse now req w post ids Hl Ho Hr).
  assert (truthy (updated_content req post) = false) as Hc'.
  { unfold updated_content in *. destruct (body_content req) as [c|].
    - cbn [setter_trim] in Hc. now rewrite trim_idempotent in Hc.
    - now rewrite Ht in Hc. }
  rewrite Hc', Hi. cbn.
  repeat split; try reflexivity. exact Hl.
Qed.

(** The new state of an update passes the hooks when it keeps content or
    an image and passes the schema. *)
Lemma updatePost_success now req w post (ids : list JSValue) :
  lookup (params_id req) w = Some post ->
  owner post req ->
  requested JSON_parse (body_imagesToDelete req) = Ok ids ->
  truthy (updated_content req post) = true \/ updated_images ids req post <> [] ->
  validateSync (updated_post ids now req post) = None ->
  updatePost destroy JSON_parse now req w =
    (json 200 (Success (PostData (updated_post ids now req post))),
     set_Posts (replace_doc (updated_post ids now req post) (Posts w))
               (after_deletions destroy w ids)).
Proof.
  intros Hl Ho Hr Hk Hv.
  rewrite (updatePost_resolved destroy JSON_parse now req w post ids Hl Ho Hr).
  cbv zeta. rewrite Hv.
  destruct (negb (truthy (updated_content req post)) &&
            (Z.of_nat (List.length (updated_images ids req post)) =? 0)) eqn:C;
    [|reflexivity].
  apply andb_true_iff in C. destruct C as [C1 C2].
  apply negb_true_iff in C1. apply length_zero_iff in C2.
  destruct Hk as [Hk|Hk]; congruence.
Qed.

(** The identifiers an [imagesToDelete] field lists are the values the
    deletion loop goes through: none for an absent field, the elements of
    an array, the elements of the array a string parses to, and the string
    itself when it does not parse. *)
Lemma listed_requested (v : option FormValue) (ids : list JSValue) :
  (v = None /\ ids = []) \/
  (exists l, v = Some (FormArray l) /\ ids = map JString l) \/
  (exists s, v = Some (FormString s) /\ s <> "" /\ JSON_parse s = Some (JArray ids)) \/
  (exists s, v = Some (FormString s) /\ s <> "" /\ JSON_parse s = None /\
             ids = [JString s]) ->
  requested JSON_parse v = Ok ids.
Proof.
  assert (forall items : list JSValue,
             match length_gt_0 (JArray items) with
             | Throw msg => Throw msg
             | Ok false => Ok []
             | Ok true => for_of (JArray items)
             end = Ok items) as Harr.
  { intros [|x items]; reflexivity. }
  unfold requested.
  intros [[-> ->] | [(l & -> & ->) | [(s & -> & Hs & Hp) | (s & -> & Hs & Hp & ->)]]];
    cbn [deleteList_of].
  - reflexivity.
  - apply Harr.
  - apply String.eqb_neq in Hs. rewrite Hs, Hp. apply Harr.
  - apply String.eqb_neq in Hs. rewrite Hs, Hp. reflexivity.
Qed.

Lemma same_string_true (s : string) (v : JSValue) :
  same_string s v = true <-> v = JString s.
Proof.
  destruct v as [|t|items|j|j b]; cbn [same_string];
    try (split; intros H; discriminate).
  split.
  - intros H. apply String.eqb_eq in H. now subst t.
  - intros [= ->]. apply String.eqb_refl.
Qed.

(** What the loop of [updatePost] leaves of the images: those whose
    identifier is none of the listed values, in their order. *)
Lemma In_fold_without (ids : list JSValue) (imgs : list IImageDocument)
      (img : IImageDocument) :
  In img (fold_left (fun imgs pid => without pid imgs) ids imgs) <->
  In img imgs /\ ~ In (JString (publicId img)) ids.
Proof.
  revert imgs. induction ids as [|pid ids IH]; intros imgs; cbn [fold_left In].
  - tauto.
  - rewrite IH. unfold without at 1. rewrite filter_In, negb_true_iff.
    rewrite <- not_true_iff_false, same_string_true. intuition congruence.
Qed.

(** C6: in a reachable world, for the owner, when the new content and
    images pass the schema and the result keeps content or an image,
    [updatePost] (a) asks for the deletion of each identifier that
    [imagesToDelete] lists, in order, whatever the asset store answers,
    and removes the images with that identifier and no other, (b) appends
    the new images at the end, (c) replaces the content when one is given
    (the empty string clears it), and stores the post with [isEdited] true
    and [editedAt] set.  The identifiers listed are the elements of an array
    field, the elements of the array a string field parses to, and a
    string field itself when it is not JSON.  For a post with two images,
    removing the first and adding one new image leaves the second
    original image followed by the new one. *)
Theorem C6_update_steps_in_order now req w post (ids : list JSValue) :
  reachable destroy JSON_parse w ->
  lookup (params_id req) w = Some post ->
  owner post req ->
  (body_imagesToDelete req = None /\ ids = []) \/
  (exists l, body_imagesToDelete req = Some (FormArray l) /\ ids = map JString l) \/
  (exists s, body_imagesToDelete req = Some (FormString s) /\ s <> "" /\
             JSON_parse s = Some (JArray ids)) \/
  (exists s, body_imagesToDelete req = Some (FormString s) /\ s <> "" /\
             JSON_parse s = None /\ ids = [JString s]) ->
  acceptable_update req ->
  truthy (updated_content req post) = true \/ updated_images ids req post <> [] ->
  let '(r, w') := updatePost destroy JSON_parse now req w in
  exists post',
    r = json 200 (Success (PostData post')) /\
    lookup (params_id req) w' = Some post' /\
    deleteCalls w' = deleteCalls w ++ ids /\
    images post' =
      fold_left (fun imgs pid => without pid imgs) ids (images post)
      ++ match files req with Some fs => to_images fs | None => [] end /\
    (forall img,
        In img (images post') <->
        (In img (images post) /\ ~ In (JString (publicId img)) ids) \/
        In img (match files req with Some fs => to_images fs | None => [] end)) /\
    content post' =
      match body_content req with Some c => Some (trim c) | None => content post end /\
    (body_content req = Some "" -> content post' = Some "") /\
    isEdited post' = true /\ editedAt post' = Some now /\
    (forall i0 i1 f,
        images post = [i0; i1] -> publicId i1 <> publicId i0 ->
        body_imagesToDelete req = Some (FormArray [publicId i0]) ->
        files req = Some [f] ->
        images post' = [i1; mkImage (path f) (filename f)]).
Proof.
  intros Hw Hl Ho Hids Ha Hk.
  pose proof (listed_requested _ _ Hids) as Hr.
  destruct (reachable_lookup destroy JSON_parse w _ post Hw Hl) as (_ & [Hv _] & _).
  pose proof (updated_post_valid ids now req post Hv Ha) as Hv'.
  rewrite (updatePost_success now req w post ids Hl Ho Hr Hk Hv').
  exists (updated_post ids now req post).
  split; [reflexivity|].
  split.
  { apply (lookup_replaced w post); [assumption|].
    unfold updated_post. now destruct (body_content req). }
  split; [reflexivity|].
  split; [apply updated_post_images|].
  split.
  { intros img. rewrite updated_post_images. unfold updated_images.
    now rewrite in_app_iff, In_fold_without. }
  split; [apply updated_post_content|].
  split.
  { intros E. rewrite updated_post_content. unfold updated_content. now rewrite E. }
  split; [unfold updated_post; now destruct (body_content req)|].
  split; [unfold updated_post; now destruct (body_content req)|].
  intros i0 i1 f Hi Hd Hdel Hf.
  assert (ids = [JString (publicId i0)]) as ->.
  { rewrite Hdel in Hids.
    destruct Hids as [[E _] | [(l & E & ->) | [(s & E & _) | (s & E & _)]]];
      try discriminate.
    now inversion E. }
  rewrite updated_post_images. unfold updated_images.
  rewrite Hf, Hi. cbn [fold_left without filter to_images map same_string].
  rewrite String.eqb_refl. cbn [negb].
  apply String.eqb_neq in Hd. rewrite Hd. reflexivity.
Qed.

(** C7: in a reachable world, for the owner, [deletePostImage] answers 404 when no image has the
    identifier; answers 400 when the image is the only one and the content
    is empty, and then the world is as it was (the image is still there, no
    deletion was requested); otherwise, when the asset deletion resolves,
    it requests that one deletion, removes the first image with the
    identifier and no other, and stores the post. *)
Theorem C7_deletePostImage_outcomes now req w post :
  reachable destroy JSON_parse w ->
  lookup (params_id req) w = Some post ->
  owner post req ->
  let '(r, w') := deletePostImage destroy now req w in
  ((forall img, In img (images post) -> publicId img <> params_publicId req) ->
   NotFound r /\ w' = w) /\
  (forall img,
      images post = [img] -> publicId img = params_publicId req ->
      truthy (content post) = false ->
      ValidationError r /\ w' = w /\
      (exists post', lookup (params_id req) w' = Some post' /\ In img (images post')) /\
      deleteCalls w' = deleteCalls w) /\
  ((exists img, In img (images post) /\ publicId img = params_publicId req) ->
   truthy (content post) = true \/ List.length (images post) <> 1%nat ->
   fst (destroy (params_publicId req) (cloud w)) = None ->
   exists post' before img behind,
     images post = before ++ img :: behind /\
     publicId img = params_publicId req /\
     (forall x, In x before -> publicId x <> params_publicId req) /\
     images post' = before ++ behind /\
     r = json 200 (Success (PostData post')) /\
     lookup (params_id req) w' = Some post' /\
     deleteCalls w' = deleteCalls w ++ [JString (params_publicId req)] /\
     cloud w' = snd (destroy (params_publicId req) (cloud w))).
Proof.
  intros Hw Hl Ho.
  destruct (reachable_lookup destroy JSON_parse w _ post Hw Hl) as (_ & [Hv _] & _).
  destruct (findIndex (params_publicId req) (images post)) as [i|] eqn:Hi.
  - rewrite (deletePostImage_found destroy now req w post i Hl Ho Hi).
    destruct (findIndex_Some _ _ _ Hi) as (before & img & behind & E1 & E2 & E3 & E4 & E5).
    destruct (negb (truthy (content post)) &&
              (Z.of_nat (List.length (images post)) =? 1)) eqn:C.
    + cbv beta iota zeta. split; [|split].
      * intros H. exfalso. apply (H img); [|assumption].
        rewrite E1. apply in_or_app. right. now left.
      * intros img0 Himg _ _. split; [reflexivity|]. split; [reflexivity|].
        split; [|reflexivity].
        exists post. split; [assumption|]. rewrite Himg. now left.
      * intros _ Hk _. exfalso.
        apply andb_true_iff in C. destruct C as [C1 C2].
        apply negb_true_iff in C1. apply Z.eqb_eq in C2.
        destruct Hk as [Hk|Hk]; [congruence|lia].
    + cbv beta iota zeta.
      destruct (validateSync (shrunk_post now i post)) as [msg|] eqn:Hv';
        cbv beta iota zeta.
      all: split; [|split].
      all: try (intros H; exfalso; apply (H img); [|assumption];
                rewrite E1; apply in_or_app; right; now left).
      all: try (intros img0 Himg _ Hc; exfalso;
                rewrite Hc, Himg in C; discriminate).
      * intros _ _ _. exfalso.
        rewrite (shrunk_post_valid now post i before behind img E1 E5 Hv) in Hv'.
        discriminate.
      * intros _ _ _.
        exists (shrunk_post now i post), before, img, behind.
        split; [assumption|]. split; [assumption|]. split; [assumption|].
        split; [exact E5|]. split; [reflexivity|].
        split; [|split; reflexivity].
        now apply (lookup_replaced w post).
  - rewrite (deletePostImage_missing destroy now req w post Hl Ho Hi).
    pose proof (proj1 (findIndex_None _ _) Hi) as Hnone.
    split; [|split].
    + intros _. split; reflexivity.
    + intros img Himg E _. exfalso. apply (Hnone img); [|assumption].
      rewrite Himg. now left.
    + intros (img & Hin & E) _ _. exfalso. now apply (Hnone img).
Qed.

(** C4, as the code has it: for a page and a limit that are at least 1,
    [getPosts] answers with the posts sorted by [createdAt] descending
    (a permutation of the collection; only [createdAt] is compared), of
    which it skips [(page-1)*limit] and takes at most [limit]; the
    pagination has [totalItems] equal to the number of posts,
    [totalPages = ceil(totalItems/limit)], [hasMore = (page < totalPages)],
    [hasMore] true exactly when [page*limit < totalItems], and for an empty
    collection [totalPages = 0] and [hasMore = false]. *)
Theorem C4_feed_page_and_pagination req w (page limit : Z) :
  query_page req = Some page ->
  query_limit req = Some limit ->
  1 <= page -> 1 <= limit ->
  let total := Z.of_nat (List.length (Posts w)) in
  exists sorted totalPages,
    Permutation sorted (Posts w) /\
    StronglySorted createdAt_desc sorted /\
    getPosts req w =
      (json 200 (Success (FeedData
         (firstn (Z.to_nat limit) (skipn (Z.to_nat ((page - 1) * limit)) sorted))
         (mkPagination page totalPages total (page <? totalPages)))), w) /\
    StronglySorted createdAt_desc
      (firstn (Z.to_nat limit) (skipn (Z.to_nat ((page - 1) * limit)) sorted)) /\
    (totalPages - 1) * limit < total <= totalPages * limit /\
    ((page <? totalPages) = true <-> page * limit < total) /\
    (total = 0 -> totalPages = 0 /\ (page <? totalPages) = false).
Proof.
  intros Hp Hl Hp1 Hl1 total.
  exists (sort_createdAt_desc (Posts w)), (Math_ceil_div total limit).
  pose proof (Math_ceil_div_spec total limit ltac:(lia)) as Hc.
  split; [apply sort_createdAt_desc_perm|].
  split; [apply sort_createdAt_desc_sorted|].
  split; [now apply getPosts_valid|].
  split.
  { apply StronglySorted_firstn, StronglySorted_skipn, sort_createdAt_desc_sorted. }
  split; [exact Hc|].
  split.
  { rewrite Z.ltb_lt. split; intros H; nia. }
  intros H0. assert (Math_ceil_div total limit = 0) as E by nia.
  split; [assumption|]. rewrite E. apply Z.ltb_ge. lia.
Qed.

(** Starting from stored posts that went through the schema and have
    content (non-empty after trimming) or an image, every mutation leaves
    every stored post so. *)
Lemma mutation_keeps_stored_ok now (m : Mutation) w :
  Forall stored_ok (Posts w) ->
  let '(r, w') := perform destroy JSON_parse now m w in
  Forall stored_ok (Posts w') /\
  Forall content_or_images (Posts w') /\
  (succeeded r = false -> Posts w' = Posts w) /\
  (would_violate JSON_parse m w -> ValidationError r /\ Posts w' = Posts w).
Proof.
  intros HF.
  enough (let '(r, w') := perform destroy JSON_parse now m w in
          Forall stored_ok (Posts w') /\
          (succeeded r = false -> Posts w' = Posts w) /\
          (would_violate JSON_parse m w ->
           ValidationError r /\ Posts w' = Posts w)) as H.
  { destruct (perform destroy JSON_parse now m w) as [r w'].
    destruct H as (H1 & H2 & H3). repeat split; try assumption.
    - eapply Forall_impl; [|exact H1]. now intros p [_ Hp].
    - now apply H3.
    - now apply H3. }
  destruct m as [req|req|req|req|req]; cbn [perform would_violate].
  - (* createPost *)
    destruct (createPost_outcome now req w)
      as [(r & w' & E & Hf & HP & _) | (p & w' & E & HP & _ & _ & _ & _ & _ & Ht & Hs)];
      rewrite E.
    + rewrite HP. split; [assumption|]. split; [reflexivity|].
      intros [Hc Hn]. destruct (createPost_empty now req w Hc Hn) as (r0 & E0 & Hst).
      rewrite E in E0. inversion E0; subst. split; [exact Hst|reflexivity].
    + rewrite HP. split.
      { apply Forall_app. split; [assumption|]. constructor; [|constructor].
        destruct Hs as [_ Hs]. now apply stored_ok_of_saveable. }
      split; [intros H; discriminate|].
      intros [Hc Hn]. destruct (createPost_empty now req w Hc Hn) as (r0 & E0 & Hst).
      rewrite E in E0. inversion E0; subst. discriminate.
  - (* updatePost *)
    destruct (lookup (params_id req) w) as [post|] eqn:Hl.
    2:{ destruct (updatePost_not_found destroy JSON_parse now req w Hl) as (r & E & _).
        rewrite E.
        split; [assumption|]. split; [reflexivity|].
        intros (p & ids & Hp & _). discriminate. }
    destruct (not_owner_cases post req) as [Hn|Ho].
    { rewrite (updatePost_forbidden destroy JSON_parse now req w post Hl Hn).
      split; [assumption|]. split; [reflexivity|].
      intros (p & ids & Hp & Ho & _). inversion Hp; subst p.
      rewrite (not_owner_false _ _ Ho) in Hn. discriminate. }
    destruct (requested JSON_parse (body_imagesToDelete req)) as [ids|msg] eqn:Hr.
    2:{ rewrite (updatePost_not_iterable destroy JSON_parse now req w post msg Hl Ho Hr).
        split; [assumption|]. split; [reflexivity|].
        intros (p & ids & _ & _ & Hr' & _). discriminate. }
    rewrite (updatePost_resolved destroy JSON_parse now req w post ids Hl Ho Hr).
    cbv zeta.
    destruct (negb (truthy (updated_content req post)) &&
              (Z.of_nat (List.length (updated_images ids req post)) =? 0)) eqn:C.
    { split; [assumption|]. split; [reflexivity|].
      intros _. split; reflexivity. }
    assert ((exists p ids0, Some post = Some p /\ owner p req /\ Ok ids = Ok ids0 /\
                            truthy (updated_content req p) = false /\
                            updated_images ids0 req p = []) -> False) as Hnv.
    { intros (p & ids0 & Hp & _ & Hi0 & Hc & Hi). inversion Hp; subst p.
      inversion Hi0; subst ids0. rewrite Hc, Hi in C. discriminate. }
    destruct (validateSync (updated_post ids now req post)).
    { split; [assumption|]. split; [reflexivity|].
      intros H. now apply Hnv in H. }
    split.
    { cbn [Posts set_Posts]. apply Forall_replace_doc; [|assumption].
      apply updated_post_stored_ok; [|assumption].
      now apply (stored_ok_lookup w post (params_id req)). }
    split; [intros H; discriminate|].
    intros H. now apply Hnv in H.
  - (* deletePostImage *)
    destruct (lookup (params_id req) w) as [post|] eqn:Hl.
    2:{ destruct (deletePostImage_not_found destroy now req w Hl) as (r & E & _).
        rewrite E.
        split; [assumption|]. split; [reflexivity|].
        intros (p & img & Hp & _). discriminate. }
    destruct (not_owner_cases post req) as [Hn|Ho].
    { rewrite (deletePostImage_forbidden destroy now req w post Hl Hn).
      split; [assumption|]. split; [reflexivity|].
      intros (p & img & Hp & Ho & _). inversion Hp; subst p.
      rewrite (not_owner_false _ _ Ho) in Hn. discriminate. }
    destruct (findIndex (params_publicId req) (images post)) as [i|] eqn:Hi.
    2:{ rewrite (deletePostImage_missing destroy now req w post Hl Ho Hi).
        split; [assumption|]. split; [reflexivity|].
        intros (p & img & Hp & _ & Himg & Hpid & _). inversion Hp; subst p.
        exfalso. apply (proj1 (findIndex_None _ _) Hi img); [|assumption].
        rewrite Himg. now left. }
    rewrite (deletePostImage_found destroy now req w post i Hl Ho Hi).
    destruct (negb (truthy (content post)) &&
              (Z.of_nat (List.length (images post)) =? 1)) eqn:C.
    { split; [assumption|]. split; [reflexivity|].
      intros _. split; reflexivity. }
    assert ((exists p img, Some post = Some p /\ owner p req /\ images p = [img] /\
                           publicId img = params_publicId req /\
                           truthy (content p) = false) -> False) as Hnv.
    { intros (p & img & Hp & _ & Himg & _ & Hc). inversion Hp; subst p.
      rewrite Hc, Himg in C. discriminate. }
    cbv zeta.
    destruct (validateSync (shrunk_post now i post)).
    { split; [assumption|]. split; [reflexivity|].
      intros H. now apply Hnv in H. }
    split.
    { cbn [Posts set_Posts]. apply Forall_replace_doc; [|assumption].
      apply stored_ok_of_saveable.
      - exact (proj1 (stored_ok_lookup w post (params_id req) HF Hl)).
      - now apply (splice_keeps_hook now post (params_publicId req)). }
    split; [intros H; discriminate|].
    intros H. now apply Hnv in H.
  - (* likePost *)
    destruct (likePost_outcome now req w)
      as [(r & E & Hf) | (post & u & Hl & Hu & Hn & Hs)].
    + rewrite E. split; [assumption|]. split; [reflexivity|]. intros [].
    + rewrite (likePost_success now req w post u Hl Hu Hn Hs).
      split.
      { cbn [Posts set_Posts]. apply Forall_replace_doc; [|assumption].
        exact (stored_ok_lookup w post (params_id req) HF Hl). }
      split; [intros H; discriminate|intros []].
  - (* addComment *)
    destruct (addComment_outcome now req w)
      as [(r & w' & E & Hf & HP & _) | (post & c & w' & Hl & E & HP & _)]; rewrite E.
    + rewrite HP. split; [assumption|]. split; [reflexivity|]. intros [].
    + rewrite HP. split.
      { apply Forall_replace_doc; [|assumption].
        exact (stored_ok_lookup w post (params_id req) HF Hl). }
      split; [intros H; discriminate|intros []].
Qed.

(** C1: in every reachable world, after any mutation ([createPost],
    [updatePost], [deletePostImage], [likePost], [addComment]) every
    stored post has content that is non-empty after trimming or has an
    image; a mutation that does not succeed stores nothing; and a mutation
    whose steps would leave its post without content and without image
    answers 400 and stores nothing. *)
Theorem C1_content_or_images_invariant now (m : Mutation) w :
  reachable destroy JSON_parse w ->
  let '(r, w') := perform destroy JSON_parse now m w in
  Forall content_or_images (Posts w') /\
  (succeeded r = false -> Posts w' = Posts w) /\
  (would_violate JSON_parse m w -> ValidationError r /\ Posts w' = Posts w).
Proof.
  intros Hw.
  assert (Forall stored_ok (Posts w)) as HF.
  { eapply Forall_impl; [|exact (reachable_posts_wf destroy JSON_parse w Hw)].
    now intros p (Hp & _). }
  pose proof (mutation_keeps_stored_ok now m w HF) as H.
  destruct (perform destroy JSON_parse now m w) as [r w'].
  destruct H as (_ & H1 & H2 & H3). repeat split; try assumption; now apply H3.
Qed.

End SpecProperties.

(* ================================================================= *)
(** ** The properties on the sample data *)

(** The sample worlds are worlds the routes produce. *)
Lemma sample_world_reachable (destroy : JSValue -> unit -> option string * unit)
      {JSON_parse : string -> option JSValue} :
  reachable destroy JSON_parse sample_world.
Proof.
  change sample_world with
    (snd (serve destroy JSON_parse 100 (Mutate (CreatePost album_request))
      (snd (serve destroy JSON_parse 100 (Mutate (CreatePost picture_request))
        (snd (serve destroy JSON_parse 100 (Mutate (CreatePost hello_request))
                    empty_world)))))).
  repeat apply reach_serve. apply reach_empty.
Qed.

Lemma twin_world_reachable (destroy : JSValue -> unit -> option string * unit) :
  reachable destroy never_JSON twin_world.
Proof.
  change twin_world with
    (snd (serve destroy never_JSON 500 (Mutate (CreatePost second_request))
      (snd (serve destroy never_JSON 500 (Mutate (CreatePost first_request))
                  (mkWorld [] [alice; bob] tt [] 20%N))))).
  repeat apply reach_serve. apply reach_empty.
Qed.

Lemma alice_owns (p : IPostDocument) (r : Request) :
  user r = as_alice -> author p = 1%N -> owner p r.
Proof. intros Hu Ha. eexists. split; [exact Hu|]. now rewrite Ha. Qed.

Lemma C1_witness :
  reachable always_resolves never_JSON sample_world /\
  (let '(r, w') :=
     perform always_resolves never_JSON 200 (DeletePostImage delete_image_request)
             sample_world in
   Forall content_or_images (Posts w') /\
   (succeeded r = false -> Posts w' = Posts sample_world) /\
   (would_violate never_JSON (DeletePostImage delete_image_request)
                  sample_world ->
    ValidationError r /\ Posts w' = Posts sample_world)) /\
  status (fst (perform always_resolves never_JSON 200
                       (DeletePostImage delete_image_request) sample_world)) = 200 /\
  would_violate never_JSON (UpdatePost strip_request) sample_world /\
  (let '(r, w') :=
     perform always_resolves never_JSON 200 (UpdatePost strip_request) sample_world in
   Forall content_or_images (Posts w') /\
   (succeeded r = false -> Posts w' = Posts sample_world) /\
   (would_violate never_JSON (UpdatePost strip_request) sample_world ->
    ValidationError r /\ Posts w' = Posts sample_world)) /\
  perform always_resolves sample_JSON 200 (UpdatePost null_list_request) sample_world =
    (json 500 (Failure "Cannot read properties of null (reading 'length')"), sample_world).
Proof.
  split; [apply sample_world_reachable|]. split; [|split; [reflexivity|]].
  - exact (C1_content_or_images_invariant always_resolves never_JSON 200
             (DeletePostImage delete_image_request) sample_world
             (sample_world_reachable always_resolves)).
  - split.
    { exists picture_post, [JString "img_c"].
      split; [reflexivity|]. split; [now apply alice_owns|].
      split; [reflexivity|]. split; reflexivity. }
    split; [|reflexivity].
    exact (C1_content_or_images_invariant always_resolves never_JSON 200
             (UpdatePost strip_request) sample_world
             (sample_world_reachable always_resolves)).
Defined.

Lemma C2_witness :
  lookup 10 sample_world = Some hello_post /\
  likes_consistent (likes hello_post) /\
  (let '(r, w') := likePost 200 (request_on 10 as_bob) sample_world in
   exists post',
     lookup 10 w' = Some post' /\
     likes_consistent (likes post') /\ 0 <= count (likes post') /\
     (succeeded r = true ->
      exists u, as_bob = Some u /\ likes post' = toggle (a_username u) (likes hello_post))) /\
  (let '(r, w') := route_createPost 200 picture_request empty_world in
   succeeded r = true ->
   exists p,
     r = json 201 (Success (PostData p)) /\ Posts w' = Posts empty_world ++ [p] /\
     likes p = mkLikes 0 [] /\ likes_consistent (likes p)) /\
  fst (likePost 200 (request_on 10 as_bob) sample_world) =
    json 200 (Success (LikeData (mkLikes 1 ["bob"]) true)) /\
  status (fst (route_createPost 200 picture_request empty_world)) = 201.
Proof.
  assert (likes_consistent (likes hello_post)) as Hc by (split; [reflexivity|constructor]).
  split; [reflexivity|]. split; [exact Hc|].
  refine (let H := _ in conj (proj1 H) (conj (proj2 H) (conj eq_refl eq_refl))).
  exact (C2_likes_count_matches_users 200 (request_on 10 as_bob) sample_world hello_post
           200 picture_request empty_world eq_refl Hc).
Defined.

Lemma C3_witness :
  reachable always_resolves never_JSON sample_world /\
  lookup 10 sample_world = Some hello_post /\
  user (request_on 10 as_bob) = Some (mkAuthUser 2 "bob" "bob@example.com") /\
  "bob" <> "" /\
  (let '(r1, w1) := likePost 200 (request_on 10 as_bob) sample_world in
   let '(r2, w2) := likePost 201 (request_on 10 as_bob) w1 in
   exists l1 post2 (liked : bool),
     r1 = json 200 (Success (LikeData l1 liked)) /\
     r2 = json 200 (Success (LikeData (likes post2) (negb liked))) /\
     lookup 10 w2 = Some post2 /\
     count (likes post2) = count (likes hello_post) /\
     Permutation (users (likes post2)) (users (likes hello_post))).
Proof.
  assert ("bob" <> "") as Hn by discriminate.
  split; [apply sample_world_reachable|].
  split; [reflexivity|]. split; [reflexivity|]. split; [exact Hn|].
  exact (C3_toggleLike_twice_restores_likes always_resolves never_JSON 200 201
           (request_on 10 as_bob) sample_world
           hello_post (mkAuthUser 2 "bob" "bob@example.com")
           (sample_world_reachable always_resolves) eq_refl eq_refl Hn).
Defined.

(** The feed of two posts with the same [createdAt] lists the smaller
    identifier first: ties are not broken by identifier descending. *)
Lemma C4_counterexample :
  reachable always_resolves never_JSON twin_world /\
  let '(r, w') := getPosts first_page_request twin_world in
  status r = 200 /\
  feed_of r = [twin_first; twin_second] /\
  createdAt twin_first = createdAt twin_second /\
  (p_id twin_first < p_id twin_second)%N /\
  ~ StronglySorted createdAt_desc_id_desc (feed_of r).
Proof.
  split; [apply twin_world_reachable|].
  change (getPosts first_page_request twin_world) with
    (json 200 (Success (FeedData [twin_first; twin_second]
                                 (mkPagination 1 1 2 false))), twin_world).
  cbv beta iota zeta. cbn [status feed_of body json].
  split; [reflexivity|]. split; [reflexivity|]. split; [reflexivity|].
  split; [reflexivity|].
  intros H. inversion H as [|a l Hs Hf]; subst.
  inversion Hf as [|b l' Hab _]; subst.
  destruct Hab as [Hab|[_ Hab]]; cbn in Hab; [lia|].
  apply N.ltb_lt in Hab. discriminate.
Qed.

Lemma C4_witness :
  query_page second_page_request = Some 2 /\
  query_limit second_page_request = Some 2 /\
  1 <= 2 /\ 1 <= 2 /\
  (let total := Z.of_nat (List.length (Posts sample_world)) in
   exists sorted totalPages,
     Permutation sorted (Posts sample_world) /\
     StronglySorted createdAt_desc sorted /\
     getPosts second_page_request sample_world =
       (json 200 (Success (FeedData
          (firstn (Z.to_nat 2) (skipn (Z.to_nat ((2 - 1) * 2)) sorted))
          (mkPagination 2 totalPages total (2 <? totalPages)))), sample_world) /\
     StronglySorted createdAt_desc
       (firstn (Z.to_nat 2) (skipn (Z.to_nat ((2 - 1) * 2)) sorted)) /\
     (totalPages - 1) * 2 < total <= totalPages * 2 /\
     ((2 <? totalPages) = true <-> 2 * 2 < total) /\
     (total = 0 -> totalPages = 0 /\ (2 <? totalPages) = false)) /\
  getPosts second_page_request sample_world =
    (json 200 (Success (FeedData [album_post] (mkPagination 2 2 3 false))), sample_world).
Proof.
  assert (1 <= 2) as H12 by lia.
  split; [reflexivity|]. split; [reflexivity|]. split; [exact H12|]. split; [exact H12|].
  split; [|reflexivity].
  exact (C4_feed_page_and_pagination second_page_request sample_world 2 2
           eq_refl eq_refl H12 H12).
Defined.

Lemma C5_witness :
  reachable always_resolves never_JSON sample_world /\
  lookup 11 sample_world = Some picture_post /\
  owner picture_post strip_request /\
  requested never_JSON (body_imagesToDelete strip_request) = Ok [JString "img_c"] /\
  truthy (setter_trim (updated_content strip_request picture_post)) = false /\
  updated_images [JString "img_c"] strip_request picture_post = [] /\
  (let '(r, w') := updatePost always_resolves never_JSON 200 strip_request sample_world in
   ValidationError r /\
   Posts w' = Posts sample_world /\
   lookup 11 w' = Some picture_post /\
   deleteCalls w' = deleteCalls sample_world ++ [JString "img_c"] /\
   cloud w' = cloud_after always_resolves [JString "img_c"] (cloud sample_world)) /\
  updatePost always_resolves never_JSON 200 strip_request sample_world =
    (json 400 (Failure "Post must have either content or at least one image"),
     mkWorld (Posts sample_world) [alice; bob] tt [JString "img_c"] 13%N).
Proof.
  assert (owner picture_post strip_request) as Ho by (now apply alice_owns).
  split; [apply sample_world_reachable|].
  split; [reflexivity|]. split; [exact Ho|].
  split; [reflexivity|]. split; [reflexivity|]. split; [reflexivity|].
  split; [|reflexivity].
  exact (C5_update_violation_keeps_record always_resolves never_JSON 200 strip_request
           sample_world picture_post [JString "img_c"]
           (sample_world_reachable always_resolves)
           eq_refl Ho eq_refl eq_refl eq_refl).
Defined.

Lemma swap_image_form_request_acceptable : acceptable_update swap_image_form_request.
Proof.
  split.
  - intros c Hc. discriminate.
  - intros fs Hf. inversion Hf; subst fs. reflexivity.
Qed.

(** The scenario of the claim, with the list sent as form-data (a JSON
    text) to a store that fails to delete [img_a]. *)
Lemma C6_witness :
  reachable rejects_img_a sample_JSON sample_world /\
  lookup 10 sample_world = Some hello_post /\
  owner hello_post swap_image_form_request /\
  body_imagesToDelete swap_image_form_request = Some (FormString img_a_json) /\
  img_a_json <> "" /\
  sample_JSON img_a_json = Some (JArray [JString "img_a"]) /\
  acceptable_update swap_image_form_request /\
  (truthy (updated_content swap_image_form_request hello_post) = true \/
   updated_images [JString "img_a"] swap_image_form_request hello_post <> []) /\
  (let '(r, w') := updatePost rejects_img_a sample_JSON 200 swap_image_form_request
                              sample_world in
   exists post',
     r = json 200 (Success (PostData post')) /\
     lookup 10 w' = Some post' /\
     deleteCalls w' = deleteCalls sample_world ++ [JString "img_a"] /\
     images post' =
       fold_left (fun imgs pid => without pid imgs) [JString "img_a"] (images hello_post)
       ++ match files swap_image_form_request with
          | Some fs => to_images fs
          | None => []
          end /\
     (forall img,
         In img (images post') <->
         (In img (images hello_post) /\ ~ In (JString (publicId img)) [JString "img_a"]) \/
         In img (match files swap_image_form_request with
                 | Some fs => to_images fs
                 | None => []
                 end)) /\
     content post' =
       match body_content swap_image_form_request with
       | Some c => Some (trim c)
       | None => content hello_post
       end /\
     (body_content swap_image_form_request = Some "" -> content post' = Some "") /\
     isEdited post' = true /\ editedAt post' = Some 200 /\
     (forall i0 i1 f,
         images hello_post = [i0; i1] -> publicId i1 <> publicId i0 ->
         body_imagesToDelete swap_image_form_request = Some (FormArray [publicId i0]) ->
         files swap_image_form_request = Some [f] ->
         images post' = [i1; mkImage (path f) (filename f)])) /\
  (exists post',
     lookup 10 (snd (updatePost rejects_img_a sample_JSON 200 swap_image_form_request
                                sample_world)) = Some post' /\
     images post' = [img_b; img_c] /\ content post' = Some "hello" /\
     isEdited post' = true) /\
  (exists post',
     lookup 10 (snd (updatePost always_resolves never_JSON 200 swap_image_request
                                sample_world)) = Some post' /\
     images post' = [img_b; img_c] /\ content post' = Some "hello" /\
     isEdited post' = true).
Proof.
  assert (owner hello_post swap_image_form_request) as Ho by (now apply alice_owns).
  assert (img_a_json <> "") as Hne by discriminate.
  assert (truthy (updated_content swap_image_form_request hello_post) = true \/
          updated_images [JString "img_a"] swap_image_form_request hello_post <> []) as Hk
      by (left; reflexivity).
  split; [apply sample_world_reachable|].
  split; [reflexivity|]. split; [exact Ho|]. split; [reflexivity|].
  split; [exact Hne|]. split; [reflexivity|].
  split; [exact swap_image_form_request_acceptable|]. split; [exact Hk|].
  split; [|split].
  - refine (C6_update_steps_in_order rejects_img_a sample_JSON 200 swap_image_form_request
              sample_world hello_post [JString "img_a"]
              (sample_world_reachable rejects_img_a) eq_refl Ho _
              swap_image_form_request_acceptable Hk).
    right. right. left. exists img_a_json.
    split; [reflexivity|]. split; [exact Hne | reflexivity].
  - eexists. split; [reflexivity|]. repeat split.
  - eexists. split; [reflexivity|]. repeat split.
Defined.

Lemma C7_witness :
  reachable always_resolves never_JSON sample_world /\
  lookup 10 sample_world = Some hello_post /\
  owner hello_post delete_image_request /\
  (let '(r, w') := deletePostImage always_resolves 200 delete_image_request sample_world in
   ((forall img, In img (images hello_post) ->
                 publicId img <> params_publicId delete_image_request) ->
    NotFound r /\ w' = sample_world) /\
   (forall img,
       images hello_post = [img] -> publicId img = params_publicId delete_image_request ->
       truthy (content hello_post) = false ->
       ValidationError r /\ w' = sample_world /\
       (exists post', lookup 10 w' = Some post' /\ In img (images post')) /\
       deleteCalls w' = deleteCalls sample_world) /\
   ((exists img, In img (images hello_post) /\
                 publicId img = params_publicId delete_image_request) ->
    truthy (content hello_post) = true \/ List.length (images hello_post) <> 1%nat ->
    fst (always_resolves (params_publicId delete_image_request) (cloud sample_world)) = None ->
    exists post' before img behind,
      images hello_post = before ++ img :: behind /\
      publicId img = params_publicId delete_image_request /\
      (forall x, In x before -> publicId x <> params_publicId delete_image_request) /\
      images post' = before ++ behind /\
      r = json 200 (Success (PostData post')) /\
      lookup 10 w' = Some post' /\
      deleteCalls w' =
        deleteCalls sample_world ++ [JString (params_publicId delete_image_request)] /\
      cloud w' = snd (always_resolves (params_publicId delete_image_request)
                                      (cloud sample_world)))) /\
  (exists post',
     lookup 10 (snd (deletePostImage always_resolves 200 delete_image_request sample_world))
       = Some post' /\ images post' = [img_b]) /\
  status (fst (deletePostImage always_resolves 200 (request_on 11 as_alice)
                               sample_world)) = 404 /\
  deletePostImage always_resolves 200
      (mkRequest 11 "img_c" None None None None None None as_alice []) sample_world =
    (json 400 (Failure "Cannot delete last image. Post must have content or images."),
     sample_world).
Proof.
  assert (owner hello_post delete_image_request) as Ho by (now apply alice_owns).
  split; [apply sample_world_reachable|].
  split; [reflexivity|]. split; [exact Ho|].
  split.
  - exact (C7_deletePostImage_outcomes always_resolves never_JSON 200 delete_image_request
             sample_world hello_post (sample_world_reachable always_resolves) eq_refl Ho).
  - split; [|split; reflexivity].
    eexists. split; reflexivity.
Defined.

Lemma C9_witness :
  lookup 10 sample_world = Some hello_post /\
  (forall u, user intruder_request = Some u ->
             a_id u <> author hello_post) /\
  (exists r, updatePost always_resolves never_JSON 200 intruder_request sample_world
             = (r, sample_world) /\ Forbidden r) /\
  (exists r, deletePost always_resolves intruder_request sample_world
             = (r, sample_world) /\ Forbidden r) /\
  (exists r, deletePostImage always_resolves 200 intruder_request sample_world
             = (r, sample_world) /\ Forbidden r).
Proof.
  assert (forall u, user intruder_request = Some u ->
                    a_id u <> author hello_post) as Hn.
  { intros u Hu. inversion Hu; subst u. discriminate. }
  split; [reflexivity|]. split; [exact Hn|].
  exact (C9_non_owner_is_forbidden always_resolves never_JSON 200 intruder_request sample_world
           hello_post eq_refl Hn).
Defined.

Lemma C10_witness :
  lookup 10 sample_world = Some hello_post /\
  (let '(r, w') := likePost 200 comment_request sample_world in
   exists post',
     lookup 10 w' = Some post' /\
     content post' = content hello_post /\ images post' = images hello_post /\
     isEdited post' = isEdited hello_post /\ editedAt post' = editedAt hello_post /\
     (succeeded r = true ->
      exists u, user comment_request = Some u /\
                likes post' = toggle (a_username u) (likes hello_post))) /\
  (let '(r, w') := route_addComment 200 comment_request sample_world in
   exists post',
     lookup 10 w' = Some post' /\
     content post' = content hello_post /\ images post' = images hello_post /\
     isEdited post' = isEdited hello_post /\ editedAt post' = editedAt hello_post /\
     (succeeded r = true ->
      exists c, r = json 201 (Success (CommentData (Some c))) /\
                comments post' = comments hello_post ++ [c])) /\
  status (fst (likePost 200 comment_request sample_world)) = 200 /\
  fst (route_addComment 200 comment_request sample_world) =
    json 201 (Success (CommentData (Some (mkComment 13 2 "bob" "nice" 200 200)))).
Proof.
  split; [reflexivity|].
  refine (let H := _ in conj (proj1 H) (conj (proj2 H) (conj eq_refl eq_refl))).
  exact (C10_like_and_comment_frame 200 comment_request sample_world hello_post eq_refl).
Defined.

(* ================================================================= *)
(** ** Further properties of the post controller *)

(** *** The identifier generator only moves forward *)

Section Forward.

Context {Cloud : Type} (destroy : JSValue -> Cloud -> option string * Cloud)
        (JSON_parse : string -> option JSValue).
Implicit Types (w : World Cloud) (req : Request) (post : IPostDocument).

Lemma forward_ret {A} (a : A) : forward (@ret (World Cloud) A a).
Proof. intros w. apply N.le_refl. Qed.

Lemma forward_throw {A} (msg : string) : forward (@throw (World Cloud) A msg).
Proof. intros w. apply N.le_refl. Qed.

Lemma forward_bind {A B} (m : M (World Cloud) A) (k : A -> M (World Cloud) B) :
  forward m -> (forall a, forward (k a)) -> forward (bind m k).
Proof.
  intros Hm Hk w. unfold bind. specialize (Hm w).
  destruct (m w) as [[a|msg] w1]; cbn [snd] in *; [|assumption].
  specialize (Hk a w1). lia.
Qed.

Lemma forward_forOf {A B} (xs : list A) (body : A -> B -> M (World Cloud) B) (acc : B) :
  (forall x b, forward (body x b)) -> forward (forOf xs body acc).
Proof.
  intros Hb. revert acc. induction xs as [|x xs IH]; intros acc; simpl.
  - apply forward_ret.
  - apply forward_bind; [apply Hb|intros b; apply IH].
Qed.

Lemma forward_new_ObjectId : forward (@new_ObjectId Cloud).
Proof. intros w. cbn. lia. Qed.

Lemma forward_deleteImage (pid : JSValue) : forward (deleteImage destroy pid).
Proof.
  intros w. unfold deleteImage.
  destruct (destroy pid (cloud w)) as [r c]; cbn; lia.
Qed.

Lemma forward_lift {A} (r : Res A) : forward (@lift (World Cloud) A r).
Proof. intros w. apply N.le_refl. Qed.

Lemma forward_run_hooks (p : IPostDocument) : forward (@run_hooks Cloud p).
Proof.
  unfold run_hooks. destruct (validateSync p); [apply forward_throw|].
  destruct (preSave p); [apply forward_throw|apply forward_ret].
Qed.

Lemma forward_save now (p : IPostDocument) : forward (@save Cloud now p).
Proof.
  unfold save. apply forward_bind; [apply forward_run_hooks|].
  intros _ w. cbn. lia.
Qed.

Lemma forward_Post_create now (u : IUser) (c : option string) (imgs : list IImageDocument) :
  forward (@Post_create Cloud now u c imgs).
Proof.
  unfold Post_create. apply forward_bind; [apply forward_new_ObjectId|].
  intros i. apply forward_bind; [apply forward_run_hooks|].
  intros _ w. cbn. lia.
Qed.

Lemma forward_try_catch (m : M (World Cloud) Response) (fallback : string) w :
  forward m -> (nextId w <= nextId (snd (try_catch m fallback w)))%N.
Proof.
  intros Hm. unfold try_catch. specialize (Hm w).
  destruct (m w) as [[r|msg] w1]; exact Hm.
Qed.

(** Every request leaves the generator at or after where it was. *)
Lemma serve_forward now (c : Call) w :
  (nextId w <= nextId (snd (serve destroy JSON_parse now c w)))%N.
Proof.
  destruct c as [[req|req|req|req|req]|req|req|req|req]; cbn [serve perform];
    unfold route_createPost, route_addComment, createPost, updatePost, deletePostImage,
           likePost, addComment, deletePost, getPosts, getPost, uploadImages;
    apply forward_try_catch.
  - destruct (negb _); [apply forward_ret|].
    destruct (negb _ && _); [apply forward_ret|].
    apply forward_bind;
      [intros w0; unfold Post_findById; try destruct (params_id _); apply N.le_refl|].
    intros [u|]; [|apply forward_ret].
    apply forward_bind; [apply forward_Post_create|intros p; apply forward_ret].
  - apply forward_bind;
      [intros w0; unfold Post_findById; try destruct (params_id _); apply N.le_refl|].
    intros [post|]; [|apply forward_ret].
    destruct (not_owner post req); [apply forward_ret|].
    cbv zeta.
    apply forward_bind; [apply forward_lift|intros positive].
    apply forward_bind.
    { destruct positive; [|apply forward_ret].
      apply forward_bind; [apply forward_lift|intros items].
      apply forward_forOf. intros x b.
      apply forward_bind; [apply forward_deleteImage|intros _; apply forward_ret]. }
    intros imgs. cbv zeta.
    match goal with |- forward (if ?c then _ else _) => destruct c end;
      [apply forward_ret|].
    apply forward_bind; [apply forward_save|intros p; apply forward_ret].
  - apply forward_bind;
      [intros w0; unfold Post_findById; try destruct (params_id _); apply N.le_refl|].
    intros [post|]; [|apply forward_ret].
    destruct (not_owner post req); [apply forward_ret|].
    cbv zeta. destruct (findIndex _ _); [|apply forward_ret].
    destruct (negb _ && _); [apply forward_ret|].
    apply forward_bind; [apply forward_deleteImage|intros _].
    apply forward_bind; [apply forward_save|intros p; apply forward_ret].
  - apply forward_bind;
      [intros w0; unfold Post_findById; try destruct (params_id _); apply N.le_refl|].
    intros [post|]; [|apply forward_ret].
    cbv zeta. destruct (negb _); [apply forward_ret|].
    apply forward_bind; [apply forward_save|intros p; apply forward_ret].
  - destruct (negb _); [apply forward_ret|].
    cbv zeta.
    apply forward_bind;
      [intros w0; unfold Post_findById; try destruct (params_id _); apply N.le_refl|].
    intros [post|]; [|apply forward_ret].
    apply forward_bind;
      [intros w0; unfold Post_findById; try destruct (params_id _); apply N.le_refl|].
    intros [u|]; [|apply forward_ret].
    apply forward_bind; [apply forward_new_ObjectId|intros i].
    apply forward_bind; [apply forward_save|intros p; apply forward_ret].
  - apply forward_bind;
      [intros w0; unfold Post_findById; try destruct (params_id _); apply N.le_refl|].
    intros [post|]; [|apply forward_ret].
    destruct (not_owner post req); [apply forward_ret|].
    apply forward_bind.
    { apply forward_forOf. intros x b. apply forward_deleteImage. }
    intros _. apply forward_bind;
      [intros w0; unfold Post_findById; try destruct (params_id _); apply N.le_refl|].
    intros _. apply forward_ret.
  - cbv zeta. apply forward_bind;
      [intros w0; unfold Post_findById; try destruct (params_id _); apply N.le_refl|].
    intros total. apply forward_bind; [|intros posts; apply forward_ret].
    intros w0. unfold Post_find_sorted.
    destruct (_ <? 0); apply N.le_refl.
  - apply forward_bind;
      [intros w0; unfold Post_findById; try destruct (params_id _); apply N.le_refl|].
    intros [post|]; apply forward_ret.
  - cbv zeta. destruct (no_files _); apply forward_ret.
Qed.

End Forward.

(** *** What a request does to the collection *)

Section Effects.

Context {Cloud : Type} (destroy : JSValue -> Cloud -> option string * Cloud)
        (JSON_parse : string -> option JSValue).
Implicit Types (w : World Cloud) (req : Request) (post : IPostDocument).

Lemma lookup_own_id w (i : ParamId) post :
  lookup i w = Some post -> lookup (p_id post) w = Some post.
Proof.
  intros Hl. destruct (lookup_some _ _ _ Hl) as [Hid _]. now rewrite <- Hid.
Qed.

(** The post [createPost] stores, in full. *)
Lemma createPost_stores now req w :
  (exists r w', route_createPost now req w = (r, w') /\ succeeded r = false /\
                Posts w' = Posts w) \/
  (exists u c,
      find (fun x => (u_id x =? a_id u)%N) (Users w) <> None /\
      user req = Some u /\
      route_createPost now req w =
        (json 201 (Success (PostData c)),
         mkWorld (Posts w ++ [c]) (Users w) (cloud w) (deleteCalls w) (N.succ (nextId w))) /\
      p_id c = nextId w /\ author c = a_id u /\
      content c = setter_trim (body_content req) /\
      images c = match files req with Some fs => to_images fs | None => [] end /\
      likes c = mkLikes 0 [] /\ comments c = [] /\
      isEdited c = false /\ editedAt c = None /\
      createdAt c = now /\ updatedAt c = now).
Proof.
  unfold route_createPost, createPost, try_catch.
  destruct (negb (Z.of_nat (List.length (validation (createPostValidation req))) =? 0)).
  { left. eexists. eexists. repeat split; reflexivity. }
  destruct (negb (truthy (body_content (createPostValidation req))) &&
            no_files (files (createPostValidation req))).
  { left. eexists. eexists. repeat split; reflexivity. }
  run_monad.
  assert (user (createPostValidation req) = user req) as Eu.
  { unfold createPostValidation. now destruct (body_content req). }
  assert (files (createPostValidation req) = files req) as Ef.
  { unfold createPostValidation. now destruct (body_content req). }
  assert (setter_trim (body_content (createPostValidation req)) =
          setter_trim (body_content req)) as Ec.
  { unfold createPostValidation. destruct (body_content req) as [c|] eqn:E.
    - cbn [body_content with_validation setter_trim]. now rewrite trim_idempotent.
    - now rewrite E. }
  rewrite Eu, Ef, Ec.
  destruct (user req) as [u|] eqn:Hu; cbn [option_map].
  2:{ left. eexists. eexists. repeat split; reflexivity. }
  destruct (find (fun x => (u_id x =? a_id u)%N) (Users w)) as [usr|] eqn:Hf.
  2:{ left. eexists. eexists. repeat split; reflexivity. }
  run_monad.
  match goal with |- context [validateSync ?p] => set (newp := p) end.
  destruct (validateSync newp) eqn:Hv.
  { left. eexists. eexists. repeat split; reflexivity. }
  run_monad.
  destruct (preSave newp) eqn:Hp.
  { left. eexists. eexists. repeat split; reflexivity. }
  right. exists u, newp.
  split; [rewrite Hf; discriminate|]. split; [reflexivity|]. split; [reflexivity|].
  apply find_some in Hf. destruct Hf as [_ Hf]. apply N.eqb_eq in Hf.
  subst newp. cbn. repeat split; try reflexivity. exact Hf.
Qed.

(** A mutation leaves the collection as it was, appends one fresh post,
    or rewrites the stored post it is about. *)
Lemma perform_effect now (m : Mutation) w :
  let w' := snd (perform destroy JSON_parse now m w) in
  Posts w' = Posts w \/
  (exists p, Posts w' = Posts w ++ [p] /\ p_id p = nextId w /\
             subject m w = p_id p /\ (nextId w < nextId w')%N /\
             isEdited p = false /\ editedAt p = None /\ comments p = []) \/
  (exists post p', lookup (p_id post) w = Some post /\
                   Posts w' = replace_doc p' (Posts w) /\
                   subject m w = p_id post /\ rewrites JSON_parse now m post p').
Proof.
  destruct m as [req|req|req|req|req]; cbn [perform subject rewrites].
  - destruct (createPost_stores now req w)
      as [(r & w' & E & _ & HP) | (u & c & _ & _ & E & Hid & _ & _ & _ & _ & Hc & He & Ha & _)];
      rewrite E; cbn [snd].
    + now left.
    + right. left. exists c. cbn [Posts nextId]. repeat split; try assumption;
        [now rewrite Hid | lia].
  - destruct (lookup (params_id req) w) as [post|] eqn:Hl.
    2:{ destruct (updatePost_not_found destroy JSON_parse now req w Hl) as (r & E & _).
        rewrite E. now left. }
    destruct (not_owner_cases post req) as [Hn|Ho].
    { rewrite (updatePost_forbidden destroy JSON_parse now req w post Hl Hn). now left. }
    destruct (requested JSON_parse (body_imagesToDelete req)) as [ids|msg] eqn:Hr.
    2:{ rewrite (updatePost_not_iterable destroy JSON_parse now req w post msg Hl Ho Hr).
        now left. }
    rewrite (updatePost_resolved destroy JSON_parse now req w post ids Hl Ho Hr).
    cbv zeta.
    destruct (negb (truthy (updated_content req post)) &&
              (Z.of_nat (List.length (updated_images ids req post)) =? 0));
      [now left|].
    destruct (validateSync (updated_post ids now req post)); [now left|].
    right. right. exists post, (updated_post ids now req post).
    destruct (lookup_some _ _ _ Hl) as [Hid _].
    split; [now apply (lookup_own_id w (params_id req))|].
    split; [reflexivity|]. split; [exact Hid|].
    exists ids. split; reflexivity.
  - destruct (lookup (params_id req) w) as [post|] eqn:Hl.
    2:{ destruct (deletePostImage_not_found destroy now req w Hl) as (r & E & _).
        rewrite E. now left. }
    destruct (not_owner_cases post req) as [Hn|Ho].
    { rewrite (deletePostImage_forbidden destroy now req w post Hl Hn). now left. }
    destruct (findIndex (params_publicId req) (images post)) as [i|] eqn:Hi.
    2:{ rewrite (deletePostImage_missing destroy now req w post Hl Ho Hi). now left. }
    rewrite (deletePostImage_found destroy now req w post i Hl Ho Hi).
    destruct (negb (truthy (content post)) &&
              (Z.of_nat (List.length (images post)) =? 1)); [now left|].
    cbv zeta.
    destruct (validateSync (shrunk_post now i post)); [now left|].
    right. right. exists post, (shrunk_post now i post).
    destruct (lookup_some _ _ _ Hl) as [Hid _].
    split; [now apply (lookup_own_id w (params_id req))|].
    split; [reflexivity|]. split; [exact Hid|]. now exists i.
  - destruct (likePost_outcome now req w)
      as [(r & E & _) | (post & u & Hl & Hu & Hn & Hs)].
    + rewrite E. now left.
    + rewrite (likePost_success now req w post u Hl Hu Hn Hs).
      right. right. exists post, (liked_post now (a_username u) post).
      destruct (lookup_some _ _ _ Hl) as [Hid _].
      split; [now apply (lookup_own_id w (params_id req))|].
      split; [reflexivity|]. split; [exact Hid|]. now exists u.
  - destruct (addComment_outcome now req w)
      as [(r & w' & E & _ & HP & _) | (post & c & w' & Hl & E & HP & _)];
      rewrite E; cbn [snd].
    + now left.
    + right. right. exists post, (commented_post now c post).
      destruct (lookup_some _ _ _ Hl) as [Hid _].
      split; [now apply (lookup_own_id w (params_id req))|].
      split; [assumption|]. split; [exact Hid|]. now exists c.
Qed.

(** Every request leaves the collection as it was, appends one fresh
    post, rewrites one stored post, or removes one post. *)
Lemma serve_effect now (c : Call) w :
  effect JSON_parse now w (snd (serve destroy JSON_parse now c w)).
Proof.
  destruct c as [m|req|req|req|req]; cbn [serve].
  - destruct (perform_effect now m w)
      as [H | [(p & H1 & H2 & _ & H3 & H4 & H5 & H6) | (post & p' & H1 & H2 & H3 & H4)]].
    + now apply ef_same.
    + now apply (ef_created _ _ _ _ p).
    + now apply (ef_edited _ _ _ _ m post p').
  - destruct (lookup (params_id req) w) as [post|] eqn:Hl.
    2:{ destruct (deletePost_not_found destroy req w Hl) as (r & E & _).
        rewrite E. now apply ef_same. }
    destruct (not_owner_cases post req) as [Hn|Ho].
    { rewrite (deletePost_forbidden destroy req w post Hl Hn). now apply ef_same. }
    rewrite (deletePost_owner destroy req w post Hl Ho).
    apply (ef_removed _ _ _ _ post); [|reflexivity].
    now apply (lookup_own_id w (params_id req)).
  - unfold getPosts, try_catch, bind, Post_countDocuments, Post_find_sorted, ret.
    destruct ((or_default (query_page req) 1 - 1) * or_default (query_limit req) 10 <? 0);
      now apply ef_same.
  - unfold getPost, try_catch, bind, Post_findById, ret.
    destruct (params_id req); [destruct (find _ (Posts w))|]; now apply ef_same.
  - unfold uploadImages, try_catch, ret.
    destruct (no_files (files req)); now apply ef_same.
Qed.

(** *** Looking posts up after a rewrite *)

Lemma find_replace_other (p : IPostDocument) (i : ObjectId) (l : list IPostDocument) :
  i <> p_id p ->
  find (fun x => (p_id x =? i)%N) (replace_doc p l) = find (fun x => (p_id x =? i)%N) l.
Proof.
  intros Hne. induction l as [|x l IH]; simpl; [reflexivity|].
  destruct (p_id x =? p_id p)%N eqn:E; simpl.
  - apply N.eqb_eq in E.
    assert ((p_id p =? i)%N = false) as E1 by (apply N.eqb_neq; congruence).
    assert ((p_id x =? i)%N = false) as E2 by (apply N.eqb_neq; congruence).
    now rewrite E1, E2.
  - destruct (p_id x =? i)%N; [reflexivity|exact IH].
Qed.

Lemma find_app_some (i : ObjectId) (l l' : list IPostDocument) (q : IPostDocument) :
  find (fun x => (p_id x =? i)%N) l = Some q ->
  find (fun x => (p_id x =? i)%N) (l ++ l') = Some q.
Proof.
  induction l as [|x l IH]; simpl; [discriminate|].
  destruct (p_id x =? i)%N; [easy|exact IH].
Qed.

Lemma find_app_none (i : ObjectId) (l l' : list IPostDocument) :
  find (fun x => (p_id x =? i)%N) l = None ->
  find (fun x => (p_id x =? i)%N) (l ++ l') = find (fun x => (p_id x =? i)%N) l'.
Proof.
  induction l as [|x l IH]; simpl; [reflexivity|].
  destruct (p_id x =? i)%N; [discriminate|exact IH].
Qed.

Lemma map_id_replace_doc (p post : IPostDocument) (l : list IPostDocument) :
  p_id p = p_id post ->
  map p_id (replace_doc p l) = map p_id l.
Proof.
  intros Hid. induction l as [|x l IH]; simpl; [reflexivity|].
  destruct (p_id x =? p_id p)%N eqn:E; simpl.
  - apply N.eqb_eq in E. now rewrite E.
  - now rewrite IH.
Qed.

Lemma rewrites_same_id now (m : Mutation) post (p' : IPostDocument) :
  rewrites JSON_parse now m post p' -> p_id p' = p_id post.
Proof.
  destruct m as [req|req|req|req|req]; cbn [rewrites].
  - intros [].
  - intros (ids & _ & ->). unfold updated_post. now destruct (body_content req).
  - now intros (i & _ & ->).
  - now intros (u & _ & ->).
  - now intros (c & ->).
Qed.

End Effects.

(** *** Invariants and frames of the collection *)

Section CollectionProperties.

Context {Cloud : Type} (destroy : JSValue -> Cloud -> option string * Cloud)
        (JSON_parse : string -> option JSValue).
Implicit Types (w : World Cloud) (req : Request) (post : IPostDocument).

Lemma NoDup_map_remove_doc (i : ObjectId) (l : list IPostDocument) :
  NoDup (map p_id l) -> NoDup (map p_id (remove_doc i l)).
Proof.
  induction l as [|x l IH]; simpl; intros H; [constructor|].
  inversion H as [|a l0 Hx Hl]; subst.
  destruct (p_id x =? i)%N; [assumption|].
  simpl. constructor; [|now apply IH].
  intros Hin. apply Hx. apply in_map_iff in Hin. destruct Hin as (y & Ey & Hy).
  apply in_map_iff. exists y. split; [assumption|].
  clear - Hy. induction l as [|z l IH]; simpl in *; [contradiction|].
  destruct (p_id z =? i)%N; [now right|].
  destruct Hy as [Hy|Hy]; [now left|right; now apply IH].
Qed.

Lemma find_none_below (n : ObjectId) (l : list IPostDocument) :
  Forall (fun p => (p_id p < n)%N) l -> find (fun x => (p_id x =? n)%N) l = None.
Proof.
  induction 1 as [|x l Hx _ IH]; simpl; [reflexivity|].
  assert ((p_id x =? n)%N = false) as E by (apply N.eqb_neq; lia).
  now rewrite E.
Qed.

Lemma ids_fresh_kept w :
  reachable destroy JSON_parse w -> ids_fresh w.
Proof.
  induction 1 as [us c calls n | w us c _ IH | w now c _ IH].
  - split; constructor.
  - exact IH.
  - destruct IH as [Hnd Hlt].
    pose proof (serve_forward destroy JSON_parse now c w) as Hle.
    destruct (serve_effect destroy JSON_parse now c w)
      as [E | p E Hid Hn _ _ _ | m post p' Hl E Hs Hr | post Hl E];
      unfold ids_fresh; rewrite E.
    + split; [assumption|].
      eapply Forall_impl; [|exact Hlt]. cbv beta. intros a Ha. lia.
    + split.
      * rewrite map_app. cbn [map]. apply NoDup_app; [assumption|repeat constructor; auto|].
        intros x Hx [Hx'|[]]. subst x. rewrite Hid in Hx.
        apply in_map_iff in Hx. destruct Hx as (y & Ey & Hy).
        rewrite Forall_forall in Hlt. specialize (Hlt y Hy). cbv beta in Hlt. lia.
      * apply Forall_app. split.
        -- eapply Forall_impl; [|exact Hlt]. cbv beta. intros a Ha. lia.
        -- constructor; [lia|constructor].
    + pose proof (rewrites_same_id JSON_parse now m post p' Hr) as Hid.
      split.
      * now rewrite (map_id_replace_doc p' post).
      * apply Forall_replace_doc.
        -- destruct (find_some_id _ _ _ Hl) as [_ Hin].
           rewrite Forall_forall in Hlt. specialize (Hlt post Hin). cbv beta in Hlt. lia.
        -- eapply Forall_impl; [|exact Hlt]. cbv beta. intros a Ha. lia.
    + split.
      * now apply NoDup_map_remove_doc.
      * apply Forall_remove_doc.
        eapply Forall_impl; [|exact Hlt]. cbv beta. intros a Ha. lia.
Qed.

Lemma find_unique_id (l : list IPostDocument) (p : IPostDocument) :
  NoDup (map p_id l) -> In p l ->
  find (fun x => (p_id x =? p_id p)%N) l = Some p.
Proof.
  induction l as [|x l IH]; intros Hnd Hin; [contradiction|].
  cbn [map] in Hnd. inversion Hnd as [|? ? Hx Hnd']; subst.
  cbn [find]. destruct Hin as [->|Hin].
  - now rewrite N.eqb_refl.
  - destruct (N.eqb_spec (p_id x) (p_id p)) as [E|_]; [|now apply IH].
    exfalso. apply Hx. rewrite E. now apply in_map.
Qed.

(** X1: in every reachable world the stored posts have pairwise different
    identifiers, all below the next identifier the generator gives, so
    every stored post is the one found under its own identifier. *)
Theorem reachable_ids_fresh w :
  reachable destroy JSON_parse w ->
  NoDup (map p_id (Posts w)) /\
  Forall (fun p => (p_id p < nextId w)%N) (Posts w) /\
  (forall p, In p (Posts w) -> lookup (p_id p) w = Some p).
Proof.
  intros Hw. destruct (ids_fresh_kept w Hw) as [Hnd Hlt].
  split; [exact Hnd|]. split; [exact Hlt|].
  intros p Hin. unfold lookup. now apply find_unique_id.
Qed.

(** X2: in a reachable world, a post that [createPost] has created is
    the post [getPost] returns for its identifier. *)
Theorem createPost_then_getPost now req req' w :
  reachable destroy JSON_parse w ->
  let '(r, w') := route_createPost now req w in
  succeeded r = true ->
  exists p,
    r = json 201 (Success (PostData p)) /\
    (params_id req' = p_id p ->
     getPost req' w' = (json 200 (Success (PostData p)), w')).
Proof.
  intros Hw. destruct (ids_fresh_kept w Hw) as [_ Hlt].
  destruct (createPost_stores now req w)
    as [(r & w' & E & Hf & _) | (u & c & _ & _ & E & Hid & _)]; rewrite E.
  - intros H. congruence.
  - intros _. exists c. split; [reflexivity|].
    intros Hp. unfold getPost, try_catch, bind, Post_findById, ret.
    rewrite Hp. cbn [wellFormed Posts]. rewrite Hid.
    rewrite find_app_none by now apply find_none_below.
    cbn [find]. rewrite Hid, N.eqb_refl. reflexivity.
Qed.

Lemma find_remove_doc_same (i : ObjectId) (l : list IPostDocument) :
  NoDup (map p_id l) -> find (fun x => (p_id x =? i)%N) (remove_doc i l) = None.
Proof.
  induction l as [|x l IH]; simpl; intros H; [reflexivity|].
  inversion H as [|a l0 Hx Hl]; subst.
  destruct (p_id x =? i)%N eqn:E.
  - apply N.eqb_eq in E. subst i.
    destruct (find (fun y => (p_id y =? p_id x)%N) l) as [q|] eqn:F; [|reflexivity].
    destruct (find_some_id _ _ _ F) as [Hq Hin]. exfalso. apply Hx.
    rewrite <- Hq. now apply in_map.
  - simpl. rewrite E. now apply IH.
Qed.

Lemma find_remove_doc_other (i j : ObjectId) (l : list IPostDocument) :
  j <> i ->
  find (fun x => (p_id x =? j)%N) (remove_doc i l) = find (fun x => (p_id x =? j)%N) l.
Proof.
  intros Hne. induction l as [|x l IH]; simpl; [reflexivity|].
  destruct (p_id x =? i)%N eqn:E.
  - apply N.eqb_eq in E.
    assert ((p_id x =? j)%N = false) as E' by (apply N.eqb_neq; congruence).
    now rewrite E'.
  - simpl. destruct (p_id x =? j)%N; [reflexivity|exact IH].
Qed.

(** X3: in a reachable world, when the owner deletes a post and the
    asset deletions resolve, the post is gone ([getPost] answers 404 for
    its identifier) and every other post is stored as before. *)
Theorem deletePost_removes_the_post req req' w post :
  reachable destroy JSON_parse w ->
  lookup (params_id req) w = Some post ->
  owner post req ->
  all_resolve destroy (map publicId (images post)) (cloud w) = true ->
  let '(r, w') := deletePost destroy req w in
  status r = 200 /\
  lookup (params_id req) w' = None /\
  (params_id req' = params_id req ->
   getPost req' w' = (json 404 (Failure "Post not found"), w')) /\
  (forall j, j <> params_id req -> lookup j w' = lookup j w).
Proof.
  intros Hw Hl Ho Hr. destruct (ids_fresh_kept w Hw) as [Hnd _].
  rewrite (deletePost_owner destroy req w post Hl Ho).
  destruct (lookup_some _ _ _ Hl) as [Hid _].
  assert (lookup (params_id req)
            (set_Posts (remove_doc (p_id post) (Posts w))
               (after_deletions destroy w (map JString (map publicId (images post)))))
          = None) as Hgone.
  { rewrite Hid. unfold lookup. cbn [wellFormed Posts set_Posts].
    now apply find_remove_doc_same. }
  split; [reflexivity|]. split; [exact Hgone|]. split.
  - intros E. unfold getPost, try_catch, bind, ret. rewrite E.
    assert (params_id req <> None) as Hwf by (rewrite Hid; discriminate).
    rewrite (Post_findById_missing _ _ Hwf Hgone). reflexivity.
  - intros [j|] Hj; [|reflexivity]. unfold lookup.
    cbn [Posts set_Posts after_deletions].
    apply find_remove_doc_other. intros ->. now apply Hj.
Qed.

(** C8: in a reachable world, for the owner, [deletePost] asks for the
    deletion of every image of the post, one call an image in list order,
    whatever the asset store answers to each call: a deletion that fails
    does not keep the deletions after it from being asked for.  The post
    record is removed and the answer is 200 in every case. *)
Theorem C8_deletePost_attempts_every_deletion req w post :
  reachable destroy JSON_parse w ->
  lookup (params_id req) w = Some post ->
  owner post req ->
  let '(r, w') := deletePost destroy req w in
  r = json 200 (Done "Post deleted successfully") /\
  deleteCalls w' = deleteCalls w ++ map JString (map publicId (images post)) /\
  (forall img, In img (images post) -> In (JString (publicId img)) (deleteCalls w')) /\
  cloud w' = cloud_after destroy (map JString (map publicId (images post))) (cloud w) /\
  Posts w' = remove_doc (p_id post) (Posts w) /\
  lookup (params_id req) w' = None.
Proof.
  intros Hw Hl Ho. destruct (ids_fresh_kept w Hw) as [Hnd _].
  rewrite (deletePost_owner destroy req w post Hl Ho).
  destruct (lookup_some _ _ _ Hl) as [Hid _].
  split; [reflexivity|]. split; [reflexivity|]. split.
  { intros img Hin. cbn [deleteCalls set_Posts after_deletions].
    apply in_or_app. right. apply in_map. now apply in_map. }
  split; [reflexivity|]. split; [reflexivity|].
  rewrite Hid. unfold lookup. cbn [wellFormed Posts set_Posts].
  now apply find_remove_doc_same.
Qed.

(** What a rewrite keeps of a post. *)
Lemma rewrites_keeps now (m : Mutation) post (p' : IPostDocument) :
  rewrites JSON_parse now m post p' ->
  p_id p' = p_id post /\ author p' = author post /\
  authorUsername p' = authorUsername post /\
  authorProfilePicture p' = authorProfilePicture post /\
  createdAt p' = createdAt post /\
  (exists cs, comments p' = comments post ++ cs /\
              (List.length cs <= 1)%nat /\
              (cs <> [] -> exists req, m = AddComment req)) /\
  (isEdited post = true -> isEdited p' = true) /\
  (edited_together post -> edited_together p').
Proof.
  destruct m as [req|req|req|req|req]; cbn [rewrites].
  - intros [].
  - intros (ids & _ & ->). unfold updated_post.
    destruct (body_content req); cbn; repeat split; try reflexivity;
      try (exists []; rewrite app_nil_r; repeat split; [auto|now intros H]);
      intros; discriminate.
  - intros (i & _ & ->). cbn. repeat split; try reflexivity; try tauto;
      try (exists []; rewrite app_nil_r; repeat split; [auto|now intros H]);
      try (apply H; assumption); try (apply H).
  - intros (u & _ & ->). cbn. repeat split; try reflexivity; try tauto;
      try (exists []; rewrite app_nil_r; repeat split; [auto|now intros H]);
      try (apply H; assumption); try (apply H).
  - intros (c & ->). cbn. repeat split; try reflexivity; try tauto;
      try (exists [c]; repeat split; [auto|intros _; now exists req]);
      try (apply H; assumption); try (apply H).
Qed.


(** How a stored post looks after a mutation. *)
Lemma lookup_after_mutation now (m : Mutation) w (i : ParamId) post :
  lookup i w = Some post ->
  lookup i (snd (perform destroy JSON_parse now m w)) = Some post \/
  (subject m w = i /\
   exists p', lookup i (snd (perform destroy JSON_parse now m w)) = Some p' /\
              rewrites JSON_parse now m post p').
Proof.
  intros Hl. destruct i as [i|]; [|discriminate].
  destruct (perform_effect destroy JSON_parse now m w)
    as [E | [(p & E & _) | (post0 & p' & Hl0 & E & Hs & Hr)]];
    unfold lookup, wellFormed in *; rewrite E.
  - now left.
  - left. now apply find_app_some.
  - pose proof (rewrites_same_id JSON_parse now m post0 p' Hr) as Hid.
    destruct (N.eq_dec i (p_id post0)) as [Ei|Ei].
    + right. subst i. rewrite Hl in Hl0. inversion Hl0; subst post0.
      split; [assumption|]. exists p'. split; [|assumption].
      rewrite <- Hid. eapply find_replace_doc. rewrite Hid. eassumption.
    + left. rewrite find_replace_other; [assumption|congruence].
Qed.

(** X4: no mutation removes a stored post or changes its identifier, its
    author snapshot or its creation time. *)
Theorem mutation_keeps_identity now (m : Mutation) w (i : ObjectId) post :
  lookup i w = Some post ->
  exists post',
    lookup i (snd (perform destroy JSON_parse now m w)) = Some post' /\
    p_id post' = p_id post /\ author post' = author post /\
    authorUsername post' = authorUsername post /\
    authorProfilePicture post' = authorProfilePicture post /\
    createdAt post' = createdAt post.
Proof.
  intros Hl.
  destruct (lookup_after_mutation now m w i post Hl) as [H | (_ & p' & H & Hr)].
  - exists post. repeat split; try reflexivity. assumption.
  - exists p'. split; [assumption|].
    destruct (rewrites_keeps now m post p' Hr) as (H1 & H2 & H3 & H4 & H5 & _).
    repeat split; assumption.
Qed.

(** X5: the comments of a stored post only grow, at the end and by at
    most one comment a mutation, and only [addComment] on that post adds
    one. *)
Theorem comments_are_append_only now (m : Mutation) w (i : ObjectId) post :
  lookup i w = Some post ->
  exists post' cs,
    lookup i (snd (perform destroy JSON_parse now m w)) = Some post' /\
    comments post' = comments post ++ cs /\
    (List.length cs <= 1)%nat /\
    (cs <> [] -> exists req, m = AddComment req /\ params_id req = i).
Proof.
  intros Hl.
  destruct (lookup_after_mutation now m w i post Hl) as [H | (Hi & p' & H & Hr)].
  - exists post, []. rewrite app_nil_r. repeat split; auto. now intros E.
  - destruct (rewrites_keeps now m post p' Hr)
      as (_ & _ & _ & _ & _ & (cs & Hc & Hn & Ha) & _).
    exists p', cs. repeat split; try assumption.
    intros Hne. destruct (Ha Hne) as (req & ->). exists req. split; [reflexivity|].
    exact Hi.
Qed.

(** X6: a mutation changes no stored post other than the one it is
    about. *)
Theorem mutation_is_local now (m : Mutation) w (i : ParamId) :
  i <> subject m w ->
  lookup i (snd (perform destroy JSON_parse now m w)) = lookup i w.
Proof.
  intros Hne. destruct i as [i|]; [|reflexivity].
  destruct (perform_effect destroy JSON_parse now m w)
    as [E | [(p & E & _ & Hid & _) | (post0 & p' & Hl0 & E & Hs & Hr)]];
    unfold lookup; rewrite E.
  - reflexivity.
  - destruct (find (fun x => (p_id x =? i)%N) (Posts w)) as [q|] eqn:F.
    + now apply find_app_some.
    + rewrite find_app_none by assumption. cbn [find].
      assert ((p_id p =? i)%N = false) as E'.
      { apply N.eqb_neq. intros Ep. apply Hne. rewrite Hid.
        unfold wellFormed. f_equal. congruence. }
      now rewrite E'.
  - pose proof (rewrites_same_id JSON_parse now m post0 p' Hr) as Hid.
    apply find_replace_other. intros Ei. apply Hne. rewrite Hs.
    unfold wellFormed. f_equal. congruence.
Qed.


End CollectionProperties.

(** *** createPost and addComment, in full *)

Section CreateAndComment.

Context {Cloud : Type} (destroy : JSValue -> Cloud -> option string * Cloud)
        (JSON_parse : string -> option JSValue).
Implicit Types (w : World Cloud) (req : Request) (post : IPostDocument).

Lemma createPostValidation_clean req :
  validation req = [] ->
  (forall c, body_content req = Some c -> strlen (trim c) <= 2000) ->
  validation (createPostValidation req) = [] /\
  body_content (createPostValidation req) = setter_trim (body_content req) /\
  files (createPostValidation req) = files req /\
  user (createPostValidation req) = user req.
Proof.
  intros Hv Hc. unfold createPostValidation.
  destruct (body_content req) as [c|] eqn:E.
  - cbn [validation body_content files user with_validation setter_trim].
    specialize (Hc c eq_refl). apply Z.leb_le in Hc. rewrite Hc, Hv. now repeat split.
  - rewrite E. now repeat split.
Qed.

(** X8: a request with a clean validation result, content of at most
    2000 characters after trimming or at least one file (an image-only
    post is enough), files that carry a path and a name, and a requester
    found in the User collection under a non-empty username, creates the
    post: 201, and the collection gains one post with the next identifier,
    the author snapshot, the trimmed content, the images in upload order,
    no likes, no comments, [isEdited] false and both timestamps at the
    time of the request. *)
Theorem createPost_succeeds now req w (u : AuthUser) (usr : IUser) :
  validation req = [] ->
  user req = Some u ->
  find (fun x => (u_id x =? a_id u)%N) (Users w) = Some usr ->
  u_username usr <> "" ->
  acceptable_update req ->
  truthy (setter_trim (body_content req)) = true \/ no_files (files req) = false ->
  let p := mkPost (nextId w) (u_id usr) (u_username usr) (u_profilePicture usr)
                  (setter_trim (body_content req))
                  (match files req with Some fs => to_images fs | None => [] end)
                  (mkLikes 0 []) [] false None now now in
  route_createPost now req w =
    (json 201 (Success (PostData p)),
     mkWorld (Posts w ++ [p]) (Users w) (cloud w) (deleteCalls w) (N.succ (nextId w))).
Proof.
  intros Hv Hu Hf Hn [Hc Hfs] Hk p.
  destruct (createPostValidation_clean req Hv Hc) as (E1 & E2 & E3 & E4).
  unfold route_createPost, createPost, try_catch.
  rewrite E1, E2, E3, E4. cbn [List.length Z.of_nat Z.eqb negb].
  assert (negb (truthy (setter_trim (body_content req))) && no_files (files req) = false)
    as Hk'.
  { destruct Hk as [Hk|Hk]; rewrite Hk; [reflexivity|apply andb_false_r]. }
  rewrite Hk', Hu. run_monad. cbn [option_map]. rewrite Hf. run_monad.
  rewrite setter_trim_idempotent. fold p.
  assert (validateSync p = None) as Hvp.
  { apply validateSync_None. cbn [p authorUsername content images comments].
    split; [unfold required; apply negb_true_iff, String.eqb_neq; exact Hn|].
    split.
    { destruct (body_content req) as [c|]; [|reflexivity].
      cbn [setter_trim valid_content]. unfold maxlength. apply Z.leb_le. now apply Hc. }
    split; [|reflexivity].
    destruct (files req) as [fs|]; [now apply Hfs|reflexivity]. }
  assert (preSave p = None) as Hpp.
  { apply preSave_None. cbn [p content images].
    destruct Hk as [Hk|Hk]; [left; exact Hk|right].
    destruct (files req) as [[|f fs]|]; cbn in Hk; discriminate. }
  rewrite Hvp, Hpp. reflexivity.
Qed.

(** X9: [createPost] answers 400 with the validation messages, and
    stores nothing, when the content is longer than 2000 characters after
    trimming; and it answers 404, and stores nothing, when the request
    passes the checks but the requester is not in the User collection. *)
Theorem createPost_rejections now req w :
  (forall c, body_content req = Some c -> 2000 < strlen (trim c) ->
     exists errs, route_createPost now req w = (json 400 (Invalid errs), w) /\
                  In "Content cannot exceed 2000 characters" errs) /\
  (validation req = [] ->
   (forall c, body_content req = Some c -> strlen (trim c) <= 2000) ->
   truthy (setter_trim (body_content req)) = true \/ no_files (files req) = false ->
   (forall u, user req = Some u ->
              find (fun x => (u_id x =? a_id u)%N) (Users w) = None) ->
   route_createPost now req w = (json 404 (Failure "User not found"), w)).
Proof.
  split.
  - intros c Hc Hlen. unfold route_createPost, createPost, try_catch, createPostValidation.
    rewrite Hc. cbn [validation with_validation].
    assert ((strlen (trim c) <=? 2000) = false) as E by (apply Z.leb_gt; lia).
    rewrite E.
    assert (negb (Z.of_nat (List.length
              (validation req ++ ["Content cannot exceed 2000 characters"])) =? 0) = true)
      as E'.
    { rewrite length_app. cbn [List.length]. apply negb_true_iff, Z.eqb_neq. lia. }
    rewrite E'. eexists. split; [reflexivity|].
    apply in_or_app. right. now left.
  - intros Hv Hc Hk Hu.
    destruct (createPostValidation_clean req Hv Hc) as (E1 & E2 & E3 & E4).
    unfold route_createPost, createPost, try_catch.
    rewrite E1, E2, E3, E4. cbn [List.length Z.of_nat Z.eqb negb].
    assert (negb (truthy (setter_trim (body_content req))) && no_files (files req) = false)
      as Hk'.
    { destruct Hk as [Hk|Hk]; rewrite Hk; [reflexivity|apply andb_false_r]. }
    rewrite Hk'. run_monad.
    destruct (user req) as [u|]; cbn [option_map]; [|reflexivity].
    now rewrite (Hu u eq_refl).
Qed.

Lemma commentValidation_fields req :
  params_id (commentValidation req) = params_id req /\
  user (commentValidation req) = user req /\
  body_text (commentValidation req) =
    Some (trim (match body_text req with Some t => t | None => "" end)).
Proof. now repeat split. Qed.

(** X10: a comment whose text is missing, empty after trimming, or longer
    than 500 characters after trimming is answered 400 with the
    validation messages, and the world stays as it was. *)
Theorem addComment_rejects_bad_text now req w :
  let t := trim (match body_text req with Some t => t | None => "" end) in
  t = "" \/ 500 < strlen t ->
  exists errs, route_addComment now req w = (json 400 (Invalid errs), w) /\ errs <> [].
Proof.
  intros t Ht. unfold route_addComment, addComment, try_catch, commentValidation.
  fold t. cbn [validation with_validation].
  set (errs := validation req ++
         (if (t =? "")%string then ["Comment text is required"] else []) ++
         (if strlen t <=? 500 then [] else ["Comment cannot exceed 500 characters"])).
  assert (errs <> []) as Hne.
  { unfold errs. intros E. apply app_eq_nil in E. destruct E as [_ E].
    apply app_eq_nil in E. destruct E as [E1 E2].
    destruct Ht as [Ht|Ht].
    - rewrite Ht in E1. discriminate.
    - assert ((strlen t <=? 500) = false) as E by (apply Z.leb_gt; lia).
      rewrite E in E2. discriminate. }
  assert (negb (Z.of_nat (List.length errs) =? 0) = true) as E.
  { apply negb_true_iff, Z.eqb_neq. destruct errs; [congruence|cbn [List.length]; lia]. }
  rewrite E. exists errs. split; [reflexivity|assumption].
Qed.

(** X11: in a reachable world, a comment with a clean validation result
    and a text of 1 to 500 characters after trimming, on a stored post, by
    a requester found in the User collection under a non-empty username,
    is appended at the end of the comments with the trimmed text, the
    user's identifier and name and the time of the request, and is the
    comment returned with 201. *)
Theorem addComment_succeeds now req w post (u : AuthUser) (usr : IUser) (t : string) :
  reachable destroy JSON_parse w ->
  validation req = [] ->
  body_text req = Some t ->
  trim t <> "" -> strlen (trim t) <= 500 ->
  lookup (params_id req) w = Some post ->
  user req = Some u ->
  find (fun x => (u_id x =? a_id u)%N) (Users w) = Some usr ->
  u_username usr <> "" ->
  let c := mkComment (nextId w) (u_id usr) (u_username usr) (trim t) now now in
  let '(r, w') := route_addComment now req w in
  r = json 201 (Success (CommentData (Some c))) /\
  lookup (params_id req) w' = Some (commented_post now c post) /\
  comments (commented_post now c post) = comments post ++ [c].
Proof.
  intros Hw Hv Ht Hne Hlen Hl Hu Hf Hn c.
  destruct (reachable_lookup destroy JSON_parse w _ post Hw Hl) as (_ & [Hvp Hpp] & _).
  unfold route_addComment, addComment, try_catch, commentValidation.
  rewrite Ht. cbn [validation with_validation body_text params_id user].
  apply String.eqb_neq in Hne. rewrite Hne, Hv.
  assert ((strlen (trim t) <=? 500) = true) as E by now apply Z.leb_le.
  rewrite E. cbn [app List.length Z.of_nat Z.eqb negb].
  unfold bind at 1. rewrite (Post_findById_found _ _ _ Hl). run_monad.
  rewrite Hu. cbn [option_map]. rewrite Hf. run_monad.
  rewrite trim_idempotent. fold c.
  assert (validateSync (set_comments (comments post ++ [c]) post) = None) as Hvc.
  { apply validateSync_None in Hvp. destruct Hvp as (H1 & H2 & H3 & H4).
    apply validateSync_None. cbn [set_comments authorUsername content images comments].
    repeat split; try assumption.
    rewrite forallb_app, H4. cbn [forallb]. unfold valid_comment, required, maxlength, c.
    cbn [username text]. rewrite Hne, E.
    apply String.eqb_neq in Hn. now rewrite Hn. }
  rewrite Hvc.
  change (preSave (set_comments (comments post ++ [c]) post)) with (preSave post).
  rewrite Hpp. cbn [set_updatedAt set_comments comments].
  rewrite last_comment_snoc.
  split; [reflexivity|]. split; [|reflexivity].
  apply (lookup_replaced w post); [exact Hl|reflexivity].
Qed.

End CreateAndComment.

(** *** Edge behaviour of the handlers *)

Section HandlerEdges.

Context {Cloud : Type} (destroy : JSValue -> Cloud -> option string * Cloud)
        (JSON_parse : string -> option JSValue).
Implicit Types (w : World Cloud) (req : Request) (post : IPostDocument).

(** X12: when the identifier of the route is that of no stored post, no
    handler changes the world or requests an asset deletion.  For a
    well-formed identifier [getPost], [likePost], [updatePost],
    [deletePostImage] and [deletePost] answer 404 "Post not found" and
    [addComment] answers 400 (bad text) or that 404.  For an identifier
    that is not a well-formed ObjectId, [Post.findById] throws and the
    [catch] of the handler answers 500 with the message of the error;
    [addComment], which looks at the validation result first, answers 400
    (bad text) or that 500. *)
Theorem missing_post_is_not_found now req w :
  lookup (params_id req) w = None ->
  (params_id req <> None ->
   getPost req w = (json 404 (Failure "Post not found"), w) /\
   likePost now req w = (json 404 (Failure "Post not found"), w) /\
   updatePost destroy JSON_parse now req w = (json 404 (Failure "Post not found"), w) /\
   deletePostImage destroy now req w = (json 404 (Failure "Post not found"), w) /\
   deletePost destroy req w = (json 404 (Failure "Post not found"), w) /\
   (exists r, route_addComment now req w = (r, w) /\
              (status r = 400 \/ r = json 404 (Failure "Post not found")))) /\
  (params_id req = None ->
   exists msg, msg <> "" /\
     getPost req w = (json 500 (Failure msg), w) /\
     likePost now req w = (json 500 (Failure msg), w) /\
     updatePost destroy JSON_parse now req w = (json 500 (Failure msg), w) /\
     deletePostImage destroy now req w = (json 500 (Failure msg), w) /\
     deletePost destroy req w = (json 500 (Failure msg), w) /\
     (exists r, route_addComment now req w = (r, w) /\
                (status r = 400 \/ r = json 500 (Failure msg)))).
Proof.
  intros Hl.
  destruct (updatePost_not_found destroy JSON_parse now req w Hl) as (ru & Eu & Hu4 & Hu5).
  destruct (deletePostImage_not_found destroy now req w Hl) as (ri & Ei & Hi4 & Hi5).
  destruct (deletePost_not_found destroy req w Hl) as (rd & Ed & Hd4 & Hd5).
  split.
  - intros Hwf. pose proof (Post_findById_missing _ _ Hwf Hl) as Hf.
    split; [|split; [|split; [|split; [|split]]]].
    + unfold getPost, try_catch, bind, ret. now rewrite Hf.
    + unfold likePost, try_catch, bind, ret. now rewrite Hf.
    + now rewrite Eu, (Hu4 Hwf).
    + now rewrite Ei, (Hi4 Hwf).
    + now rewrite Ed, (Hd4 Hwf).
    + unfold route_addComment, addComment, try_catch.
      destruct (negb (Z.of_nat (List.length (validation (commentValidation req))) =? 0)).
      * eexists. split; [reflexivity|]. now left.
      * unfold bind at 1.
        change (params_id (commentValidation req)) with (params_id req).
        rewrite Hf. eexists. split; [reflexivity|]. now right.
  - intros Hmal. exists "Cast to ObjectId failed". split; [discriminate|].
    split; [|split; [|split; [|split; [|split]]]].
    + unfold getPost, try_catch, bind, ret.
      now rewrite Hmal, Post_findById_malformed.
    + unfold likePost, try_catch, bind, ret.
      now rewrite Hmal, Post_findById_malformed.
    + now rewrite Eu, (Hu5 Hmal).
    + now rewrite Ei, (Hi5 Hmal).
    + now rewrite Ed, (Hd5 Hmal).
    + unfold route_addComment, addComment, try_catch.
      destruct (negb (Z.of_nat (List.length (validation (commentValidation req))) =? 0)).
      * eexists. split; [reflexivity|]. now left.
      * unfold bind at 1.
        change (params_id (commentValidation req)) with (params_id req).
        rewrite Hmal, Post_findById_malformed.
        eexists. split; [reflexivity|]. now right.
Qed.

(** X13: in a reachable world [likePost] answers 500 when the identifier
    of the route is not a well-formed ObjectId ([Post.findById] throws),
    404 when it is well-formed and no post has it, 401 when the requester
    has no username, and 200 otherwise; it answers 500 for no well-formed
    identifier, and only the 200 changes the world. *)
Theorem likePost_outcomes now req w :
  reachable destroy JSON_parse w ->
  let '(r, w') := likePost now req w in
  ((params_id req = None /\ status r = 500 /\ succeeded r = false /\ w' = w) \/
   (params_id req <> None /\ lookup (params_id req) w = None /\
    r = json 404 (Failure "Post not found") /\ w' = w) \/
   (lookup (params_id req) w <> None /\
    truthy (option_map a_username (user req)) = false /\
    r = json 401 (Failure "User not authenticated") /\ w' = w) \/
   (exists post u,
       lookup (params_id req) w = Some post /\ user req = Some u /\ a_username u <> "" /\
       r = json 200 (Success (LikeData (toggle (a_username u) (likes post))
                                       (negb (includes (a_username u) (users (likes post)))))) /\
       lookup (params_id req) w' = Some (liked_post now (a_username u) post))) /\
  (status r = 500 <-> params_id req = None).
Proof.
  intros Hw.
  destruct (Post_findById_cases (params_id req) w)
    as [(Hmal & Hf) | [(Hwf & Hl & Hf) | (post & Hl & Hf)]].
  - assert (likePost now req w = (json 500 (Failure "Cast to ObjectId failed"), w)) as E.
    { unfold likePost, try_catch, bind, ret. now rewrite Hf. }
    rewrite E. split; [left; now repeat split|]. split; [now intros _|reflexivity].
  - assert (likePost now req w = (json 404 (Failure "Post not found"), w)) as E.
    { unfold likePost, try_catch, bind, ret. now rewrite Hf. }
    rewrite E. split; [right; left; now repeat split|].
    split; [discriminate|now intros H].
  - assert (params_id req <> None) as Hwf.
    { destruct (lookup_some _ _ _ Hl) as [-> _]. discriminate. }
    destruct (truthy (option_map a_username (user req))) eqn:Hu.
    2:{ assert (likePost now req w = (json 401 (Failure "User not authenticated"), w)) as E.
        { unfold likePost, try_catch, bind, ret. now rewrite Hf, Hu. }
        rewrite E. split; [|split; [discriminate|now intros H]].
        right. right. left. rewrite Hl. repeat split. discriminate. }
    destruct (user req) as [u|] eqn:Eu; [|discriminate].
    cbn in Hu. apply negb_true_iff, String.eqb_neq in Hu.
    destruct (reachable_lookup destroy JSON_parse w _ post Hw Hl) as (_ & Hs & _).
    rewrite (likePost_success now req w post u Hl Eu Hu Hs).
    split; [|split; [discriminate|now intros H]].
    right. right. right. exists post, u. repeat split; try assumption.
    now apply (lookup_replaced w post).
Qed.

Lemma includes_other_after_toggle (u v : string) (l : Likes) :
  u <> v -> includes v (users (toggle u l)) = includes v (users l).
Proof.
  intros Hne. unfold toggle. destruct (includes u (users l)); cbn [users].
  - destruct (includes v (users l)) eqn:E.
    + apply includes_In. apply includes_In in E. apply filter_In. split; [assumption|].
      apply negb_true_iff, String.eqb_neq. congruence.
    + apply not_true_is_false. intros H. apply includes_In, filter_In in H.
      destruct H as [H _]. apply includes_In in H. congruence.
  - destruct (includes v (users l)) eqn:E.
    + apply includes_In. apply includes_In in E. apply in_or_app. now left.
    + apply not_true_is_false. intros H. apply includes_In, in_app_or in H.
      destruct H as [H|[H|[]]]; [|congruence].
      apply includes_In in H. congruence.
Qed.

Lemma filter_filter_comm {A} (f g : A -> bool) (l : list A) :
  filter f (filter g l) = filter g (filter f l).
Proof.
  induction l as [|x l IH]; simpl; [reflexivity|].
  destruct (f x) eqn:Ef, (g x) eqn:Eg; simpl; rewrite ?Ef, ?Eg, IH; reflexivity.
Qed.

Lemma toggle_commutes (u v : string) (l : Likes) :
  u <> v -> likes_consistent l ->
  count (toggle v (toggle u l)) = count (toggle u (toggle v l)) /\
  Permutation (users (toggle v (toggle u l))) (users (toggle u (toggle v l))).
Proof.
  intros Hne [Hc Hnd].
  assert (v <> u) as Hne' by congruence.
  pose proof (includes_other_after_toggle u v l Hne) as Hv.
  pose proof (includes_other_after_toggle v u l Hne') as Hu.
  unfold toggle at 1 3 5 7. rewrite Hv, Hu.
  unfold toggle.
  destruct (includes u (users l)) eqn:Eu, (includes v (users l)) eqn:Ev;
    cbn [count users].
  - split; [lia|]. now rewrite filter_filter_comm.
  - apply includes_In in Eu.
    pose proof (filter_length_NoDup u (users l) Hnd Eu).
    split; [lia|].
    rewrite filter_app. cbn [filter].
    apply String.eqb_neq in Hne'. rewrite Hne'. reflexivity.
  - apply includes_In in Ev.
    pose proof (filter_length_NoDup v (users l) Hnd Ev).
    split; [lia|].
    rewrite filter_app. cbn [filter].
    apply String.eqb_neq in Hne. rewrite Hne. reflexivity.
  - split; [lia|]. rewrite <- !app_assoc. apply Permutation_app_head. apply perm_swap.
Qed.

(** X14: in a reachable world, a like by one user does not change
    whether another user has liked the post, and the likes of two users
    arrive at the same count and the same set of users in either order. *)
Theorem likes_of_two_users_commute now1 now2 reqU reqV w post (u v : AuthUser) :
  reachable destroy JSON_parse w ->
  lookup (params_id reqU) w = Some post ->
  params_id reqV = params_id reqU ->
  user reqU = Some u -> user reqV = Some v ->
  a_username u <> "" -> a_username v <> "" -> a_username u <> a_username v ->
  let i := params_id reqU in
  let wU := snd (likePost now1 reqU w) in
  let wUV := snd (likePost now2 reqV wU) in
  let wVU := snd (likePost now2 reqU (snd (likePost now1 reqV w))) in
  exists pU pUV pVU,
    lookup i wU = Some pU /\ lookup i wUV = Some pUV /\ lookup i wVU = Some pVU /\
    includes (a_username v) (users (likes pU)) =
      includes (a_username v) (users (likes post)) /\
    count (likes pUV) = count (likes pVU) /\
    Permutation (users (likes pUV)) (users (likes pVU)).
Proof.
  intros Hw Hl Hp Hu Hv Hnu Hnv Hne i wU wUV wVU. subst i.
  destruct (reachable_lookup destroy JSON_parse w _ post Hw Hl) as (_ & Hs & Hc).
  assert (lookup (params_id reqV) w = Some post) as Hl' by now rewrite Hp.
  set (nu := a_username u) in *. set (nv := a_username v) in *.
  assert (lookup (params_id reqU) wU = Some (liked_post now1 nu post)) as HU.
  { unfold wU. rewrite (likePost_success now1 reqU w post u Hl Hu Hnu Hs).
    now apply (lookup_replaced w post). }
  assert (lookup (params_id reqV) (snd (likePost now1 reqV w)) =
          Some (liked_post now1 nv post)) as HV.
  { rewrite (likePost_success now1 reqV w post v Hl' Hv Hnv Hs).
    now apply (lookup_replaced w post). }
  assert (lookup (params_id reqU) wUV =
          Some (liked_post now2 nv (liked_post now1 nu post))) as HUV.
  { assert (lookup (params_id reqV) wU = Some (liked_post now1 nu post)) as HU'
        by (rewrite Hp; exact HU).
    unfold wUV.
    rewrite (likePost_success now2 reqV wU _ v HU' Hv Hnv
               (liked_post_saveable now1 nu post Hs)).
    now apply (lookup_replaced wU (liked_post now1 nu post)). }
  assert (lookup (params_id reqU) wVU =
          Some (liked_post now2 nu (liked_post now1 nv post))) as HVU.
  { rewrite Hp in HV. unfold wVU.
    rewrite (likePost_success now2 reqU _ _ u HV Hu Hnu
               (liked_post_saveable now1 nv post Hs)).
    now apply (lookup_replaced (snd (likePost now1 reqV w)) (liked_post now1 nv post)). }
  exists (liked_post now1 nu post), (liked_post now2 nv (liked_post now1 nu post)),
         (liked_post now2 nu (liked_post now1 nv post)).
  split; [exact HU|]. split; [exact HUV|]. split; [exact HVU|].
  split; [now apply includes_other_after_toggle|].
  exact (toggle_commutes nu nv (likes post) Hne Hc).
Qed.

(** X15: a feed request whose page and limit are missing, not numbers,
    or zero is served as page 1 with limit 10. *)
Theorem getPosts_defaults req w :
  query_page req = None \/ query_page req = Some 0 ->
  query_limit req = None \/ query_limit req = Some 0 ->
  getPosts req w = getPosts (page_request 1 10) w /\
  feed_of (fst (getPosts req w)) = firstn 10 (sort_createdAt_desc (Posts w)).
Proof.
  intros Hp Hl.
  assert (getPosts req w = getPosts (page_request 1 10) w) as E.
  { unfold getPosts. destruct Hp as [-> | ->], Hl as [-> | ->]; reflexivity. }
  split; [exact E|]. rewrite E.
  rewrite (getPosts_valid (page_request 1 10) w 1 10) by (reflexivity || lia).
  reflexivity.
Qed.

Lemma firstn_add {A} (a b : nat) (l : list A) :
  firstn a l ++ firstn b (skipn a l) = firstn (a + b) l.
Proof.
  revert l. induction a as [|a IH]; intros l; [reflexivity|].
  destruct l as [|x l]; simpl.
  - now rewrite firstn_nil.
  - now rewrite IH.
Qed.

Lemma feed_page_slice w (limit : Z) (k : nat) :
  1 <= limit ->
  feed_page w limit (S k) =
    firstn (Z.to_nat limit) (skipn (k * Z.to_nat limit) (sort_createdAt_desc (Posts w))).
Proof.
  intros Hl. unfold feed_page.
  rewrite (getPosts_valid (page_request (Z.of_nat (S k)) limit) w (Z.of_nat (S k)) limit)
    by (reflexivity || lia).
  cbn [fst feed_of body json].
  replace (Z.to_nat ((Z.of_nat (S k) - 1) * limit)) with (k * Z.to_nat limit)%nat by nia.
  reflexivity.
Qed.

(** X16: for a limit of at least 1, the first [n] pages of the feed, one
    after the other, are the first [n * limit] posts of the sorted
    collection: pages neither overlap nor leave a gap, and once
    [n * limit] reaches the number of posts they are the whole feed. *)
Theorem feed_pages_partition w (limit : Z) (n : nat) :
  1 <= limit ->
  flat_map (fun k => feed_page w limit (S k)) (seq 0 n) =
    firstn (n * Z.to_nat limit) (sort_createdAt_desc (Posts w)) /\
  ((List.length (Posts w) <= n * Z.to_nat limit)%nat ->
   flat_map (fun k => feed_page w limit (S k)) (seq 0 n) = sort_createdAt_desc (Posts w)).
Proof.
  intros Hl.
  assert (flat_map (fun k => feed_page w limit (S k)) (seq 0 n) =
          firstn (n * Z.to_nat limit) (sort_createdAt_desc (Posts w))) as E.
  { induction n as [|n IH]; [reflexivity|].
    rewrite seq_S, flat_map_app, IH. cbn [flat_map plus]. rewrite app_nil_r.
    rewrite feed_page_slice by assumption.
    rewrite firstn_add. f_equal. lia. }
  split; [exact E|].
  intros Hn. rewrite E. apply firstn_all2.
  rewrite (Permutation_length (sort_createdAt_desc_perm (Posts w))). exact Hn.
Qed.

(** X17: [getPosts] and [getPost] never change the world, whatever the
    request; [getPost] answers 200 with the stored post exactly when a
    post with the identifier is stored. *)
Theorem reads_change_nothing req w :
  snd (getPosts req w) = w /\
  snd (getPost req w) = w /\
  (forall post, lookup (params_id req) w = Some post <->
                fst (getPost req w) = json 200 (Success (PostData post))).
Proof.
  split; [|split].
  - unfold getPosts, try_catch, bind, Post_countDocuments, Post_find_sorted, ret.
    now destruct (_ <? 0).
  - unfold getPost, try_catch, bind, ret.
    destruct (Post_findById_cases (params_id req) w)
      as [(_ & Hf) | [(_ & _ & Hf) | (q & _ & Hf)]]; now rewrite Hf.
  - intros post. unfold getPost, try_catch, bind, ret.
    destruct (Post_findById_cases (params_id req) w)
      as [(Hmal & Hf) | [(_ & Hl & Hf) | (q & Hl & Hf)]]; rewrite Hf; cbn [fst].
    + rewrite Hmal. split; intros H; discriminate.
    + rewrite Hl. split; intros H; discriminate.
    + rewrite Hl. split; intros H; now inversion H.
Qed.

(** X18: [uploadImages] answers 400 when the request carries no file,
    and otherwise 200 with one image a file, in upload order, the file's
    path as [url] and its name as [publicId]; it never changes the
    world. *)
Theorem uploadImages_maps_files req w :
  snd (uploadImages req w) = w /\
  (no_files (files req) = true ->
   fst (uploadImages req w) = json 400 (Failure "No images uploaded")) /\
  (forall fs, files req = Some fs -> fs <> [] ->
     exists imgs,
       fst (uploadImages req w) = json 200 (Success (ImagesData imgs)) /\
       List.length imgs = List.length fs /\
       map url imgs = map path fs /\ map publicId imgs = map filename fs).
Proof.
  unfold uploadImages, try_catch, ret.
  split; [now destruct (no_files (files req))|]. split.
  - now intros ->.
  - intros fs Hf Hne. rewrite Hf. destruct fs as [|f fs]; [contradiction|].
    cbn [no_files List.length]. 
    assert ((Z.of_nat (S (List.length fs)) =? 0) = false) as E by (apply Z.eqb_neq; lia).
    rewrite E. exists (to_images (f :: fs)). split; [reflexivity|].
    unfold to_images. rewrite length_map, !map_map. repeat split.
Qed.

End HandlerEdges.

(** *** Edge behaviour of updatePost *)

Section UpdateEdges.

Context {Cloud : Type} (destroy : JSValue -> Cloud -> option string * Cloud)
        (JSON_parse : string -> option JSValue).
Implicit Types (w : World Cloud) (req : Request) (post : IPostDocument).

Lemma saveable_keeps_something post :
  saveable post -> truthy (content post) = true \/ images post <> [].
Proof. intros [_ H]. now apply preSave_None. Qed.

(** X19: in a reachable world, an update by the owner that carries no
    content, no image to delete and no file still succeeds and marks the
    post as edited: content, images, likes and comments stay, [isEdited]
    becomes true and [editedAt] the time of the request, and no asset
    deletion is requested. *)
Theorem empty_update_marks_edited now req w post :
  reachable destroy JSON_parse w ->
  lookup (params_id req) w = Some post ->
  owner post req ->
  body_content req = None -> body_imagesToDelete req = None -> files req = None ->
  let '(r, w') := updatePost destroy JSON_parse now req w in
  exists post',
    r = json 200 (Success (PostData post')) /\
    lookup (params_id req) w' = Some post' /\
    content post' = content post /\ images post' = images post /\
    likes post' = likes post /\ comments post' = comments post /\
    isEdited post' = true /\ editedAt post' = Some now /\ updatedAt post' = now /\
    deleteCalls w' = deleteCalls w /\ cloud w' = cloud w.
Proof.
  intros Hw Hl Ho Hc Hd Hf.
  destruct (reachable_lookup destroy JSON_parse w _ post Hw Hl) as (_ & Hs & _).
  assert (updated_images [] req post = images post) as Ei.
  { unfold updated_images. rewrite Hf. cbn. apply app_nil_r. }
  assert (updated_content req post = content post) as Ec.
  { unfold updated_content. now rewrite Hc. }
  assert (acceptable_update req) as Ha.
  { split; [intros c E|intros fs E]; congruence. }
  assert (requested JSON_parse (body_imagesToDelete req) = Ok []) as Hr
      by now rewrite Hd.
  assert (truthy (updated_content req post) = true \/
          updated_images [] req post <> []) as Hk.
  { rewrite Ec, Ei. now apply saveable_keeps_something. }
  destruct Hs as [Hv Hp].
  pose proof (updated_post_valid [] now req post Hv Ha) as Hv'.
  rewrite (updatePost_success destroy JSON_parse now req w post [] Hl Ho Hr Hk Hv').
  exists (updated_post [] now req post).
  split; [reflexivity|]. split.
  { apply (lookup_replaced w post); [assumption|].
    unfold updated_post. now rewrite Hc. }
  rewrite updated_post_content, updated_post_images, Ec, Ei.
  unfold updated_post, after_deletions. rewrite Hc. cbn.
  rewrite app_nil_r. repeat split; reflexivity.
Qed.

Lemma fold_without_absent (l : list string) (imgs : list IImageDocument) :
  (forall pid img, In pid l -> In img imgs -> publicId img <> pid) ->
  fold_left (fun imgs pid => without pid imgs) (map JString l) imgs = imgs.
Proof.
  induction l as [|i l IH]; intros H; simpl; [reflexivity|].
  assert (without (JString i) imgs = imgs) as E.
  { unfold without. clear IH. induction imgs as [|x imgs IHl]; simpl; [reflexivity|].
    assert ((publicId x =? i)%string = false) as E.
    { apply String.eqb_neq. apply H; now left. }
    rewrite E. cbn [negb]. f_equal. apply IHl.
    intros pid img Hp Hi. apply H; [assumption|now right]. }
  rewrite E. apply IH. intros pid img Hp Hi. apply H; [now right|assumption].
Qed.

(** X20: [updatePost] asks for the asset deletion of every listed
    identifier, also of identifiers that belong to no image of the post:
    in a reachable world, when the list [l] is sent as an array or as the
    JSON text of an array and none of its identifiers is an image of the
    post, all of them are still handed to [deleteImage], in order, and
    the post keeps all its images (followed by the new ones). *)
Theorem update_deletes_assets_it_does_not_own now req w post (l : list string) :
  reachable destroy JSON_parse w ->
  lookup (params_id req) w = Some post ->
  owner post req ->
  body_imagesToDelete req = Some (FormArray l) \/
  (exists s, body_imagesToDelete req = Some (FormString s) /\ s <> "" /\
             JSON_parse s = Some (JArray (map JString l))) ->
  acceptable_update req ->
  truthy (updated_content req post) = true \/
    updated_images (map JString l) req post <> [] ->
  (forall pid img, In pid l -> In img (images post) -> publicId img <> pid) ->
  let '(r, w') := updatePost destroy JSON_parse now req w in
  exists post',
    r = json 200 (Success (PostData post')) /\
    lookup (params_id req) w' = Some post' /\
    deleteCalls w' = deleteCalls w ++ map JString l /\
    images post' =
      images post ++ match files req with Some fs => to_images fs | None => [] end.
Proof.
  intros Hw Hl Ho Hd Ha Hk Hn.
  assert (requested JSON_parse (body_imagesToDelete req) = Ok (map JString l)) as Hr.
  { apply (listed_requested JSON_parse).
    destruct Hd as [Hd | (s & Hd & Hs & Hp)].
    - right. left. now exists l.
    - right. right. left. now exists s. }
  destruct (reachable_lookup destroy JSON_parse w _ post Hw Hl) as (_ & [Hv Hp] & _).
  assert (updated_images (map JString l) req post =
          images post ++ match files req with Some fs => to_images fs | None => [] end)
    as Ei.
  { unfold updated_images. now rewrite fold_without_absent. }
  pose proof (updated_post_valid (map JString l) now req post Hv Ha) as Hv'.
  rewrite (updatePost_success destroy JSON_parse now req w post _ Hl Ho Hr Hk Hv').
  exists (updated_post (map JString l) now req post).
  split; [reflexivity|]. split.
  { apply (lookup_replaced w post); [assumption|].
    unfold updated_post. now destruct (body_content req). }
  split; [reflexivity|]. now rewrite updated_post_images.
Qed.

Lemma strlen_empty_iff (s : string) : strlen s = 0 <-> s = "".
Proof.
  unfold strlen. destruct s; cbn [String.length]; split; intros H;
    try reflexivity; try discriminate; lia.
Qed.

(** X21: [updatePost] has no validation in front of it: in a reachable
    world, new content of more than 2000 characters after trimming is
    refused by the schema at [save], so the owner gets 500 (not 400); the
    stored posts stay as they were, while the asset deletions the list
    asked for have been made (none when the list itself throws, which is
    a 500 as well). *)
Theorem overlong_update_is_a_server_error now req w post (c : string) :
  reachable destroy JSON_parse w ->
  lookup (params_id req) w = Some post ->
  owner post req ->
  body_content req = Some c ->
  2000 < strlen (trim c) ->
  let '(r, w') := updatePost destroy JSON_parse now req w in
  (exists msg, r = json 500 (Failure msg)) /\
  Posts w' = Posts w /\
  deleteCalls w' =
    deleteCalls w ++ match requested JSON_parse (body_imagesToDelete req) with
                     | Ok ids => ids
                     | Throw _ => []
                     end.
Proof.
  intros Hw Hl Ho Hc Hlen.
  destruct (reachable_lookup destroy JSON_parse w _ post Hw Hl) as (_ & [Hv _] & _).
  destruct (requested JSON_parse (body_imagesToDelete req)) as [ids|msg] eqn:Hr.
  2:{ rewrite (updatePost_not_iterable destroy JSON_parse now req w post msg Hl Ho Hr).
      split; [eexists; reflexivity|]. split; [reflexivity|]. now rewrite app_nil_r. }
  rewrite (updatePost_resolved destroy JSON_parse now req w post ids Hl Ho Hr).
  cbv zeta.
  assert (truthy (updated_content req post) = true) as Ht.
  { unfold updated_content. rewrite Hc. cbn [truthy].
    apply negb_true_iff, String.eqb_neq. intros E.
    apply strlen_empty_iff in E. lia. }
  rewrite Ht. cbn [negb andb].
  assert (validateSync (updated_post ids now req post) =
          Some "Post content cannot exceed 2000 characters") as Hv'.
  { apply validateSync_None in Hv. destruct Hv as (H1 & _).
    unfold validateSync.
    replace (authorUsername (updated_post ids now req post))
      with (authorUsername post) by (unfold updated_post; now rewrite Hc).
    rewrite H1, updated_post_content. unfold updated_content. rewrite Hc.
    cbn [negb valid_content]. unfold maxlength.
    assert ((strlen (trim c) <=? 2000) = false) as E by (apply Z.leb_gt; lia).
    now rewrite E. }
  rewrite Hv'. split; [eexists; reflexivity|]. split; reflexivity.
Qed.

End UpdateEdges.

(* ================================================================= *)
(** ** The error handler and the CORS policy *)

Section ErrorHandling.

Lemma append_nonempty (a b : string) : b <> "" -> (a ++ b)%string <> "".
Proof.
  intros Hb. destruct a as [|c a]; cbn; [exact Hb | discriminate].
Qed.

Lemma code_is_spec (c : option Z) (n : Z) : code_is c n = true <-> c = Some n.
Proof.
  unfold code_is. destruct c as [c|].
  - rewrite Z.eqb_eq. split; [intros ->; reflexivity | intros [= ->]; reflexivity].
  - split; discriminate.
Qed.

(** X22: The error handler answers 400 to a duplicate key error (code
    11000), a ValidationError and a CastError, whatever status the error
    carries; every other error is answered with its own status, or 500
    when it has none or has 0.  The status is never 0. *)
Theorem errorHandler_status (err : CustomError) :
  (err_code err = Some 11000 \/ err_name err = "ValidationError" \/
   err_name err = "CastError" -> status (errorHandler err) = 400) /\
  (err_code err <> Some 11000 -> err_name err <> "ValidationError" ->
   err_name err <> "CastError" ->
   status (errorHandler err) = or_default (err_statusCode err) 500) /\
  status (errorHandler err) <> 0.
Proof.
  unfold errorHandler.
  destruct (code_is (err_code err) 11000) eqn:Hc;
    destruct (String.eqb_spec (err_name err) "ValidationError") as [Hv|Hv];
    destruct (String.eqb_spec (err_name err) "CastError") as [Hk|Hk]; cbn;
    try (apply code_is_spec in Hc);
    (split; [|split]); try reflexivity; try discriminate; try congruence.
  - intros [H|[H|H]]; [|congruence|congruence].
    apply code_is_spec in H. congruence.
  - unfold or_default. destruct (err_statusCode err) as [n|]; [|discriminate].
    destruct (n =? 0) eqn:E; [discriminate|]. apply Z.eqb_neq in E. exact E.
Qed.

(** X23: The error message of the handler is never empty.  A CastError
    is always reported as "Invalid ID format"; otherwise a duplicate key
    error names the first duplicated key, and "undefined" when the error
    carries no key; otherwise the error's own message is used, or
    "Internal Server Error" when it is empty. *)
Theorem errorHandler_message (err : CustomError) :
  exists msg, body (errorHandler err) = Failure msg /\ msg <> "" /\
    (err_name err = "CastError" -> msg = "Invalid ID format") /\
    (err_name err <> "CastError" -> err_code err = Some 11000 ->
     msg = (first_key (err_keyValue err) ++ " already exists")%string /\
     (err_keyValue err = None \/ err_keyValue err = Some [] ->
      msg = "undefined already exists")) /\
    (err_name err <> "CastError" -> err_code err <> Some 11000 ->
     msg = if (err_message err =? "")%string then "Internal Server Error"
           else err_message err).
Proof.
  unfold errorHandler.
  destruct (code_is (err_code err) 11000) eqn:Hc;
    destruct (String.eqb_spec (err_name err) "ValidationError") as [Hv|Hv];
    destruct (String.eqb_spec (err_name err) "CastError") as [Hk|Hk]; cbn;
    try (apply code_is_spec in Hc);
    eexists; (split; [reflexivity|]);
    repeat match goal with |- _ /\ _ => split end;
    try discriminate; try congruence; try reflexivity;
    try (apply append_nonempty; discriminate).
  all: try (intros _ _; split; [reflexivity | intros [H| H]; rewrite H; reflexivity]).
  all: try (intros; exfalso; apply code_is_spec in H0; congruence).
  all: try (destruct (err_message err =? "")%string eqn:E;
            [discriminate | apply String.eqb_neq in E; exact E]).
Qed.

Lemma includes_In' (x : string) (xs : list string) : includes x xs = true <-> In x xs.
Proof.
  unfold includes. rewrite existsb_exists. split.
  - intros [u [Hin Hu]]. apply String.eqb_eq in Hu. subst. exact Hin.
  - intros Hin. exists x. split; [exact Hin | apply String.eqb_refl].
Qed.

(** X24: The CORS origin callback never refuses an origin and never
    reports an error: the list of allowed origins (the three development
    origins and FRONTEND_URL when set) only decides whether the origin is
    logged as blocked. *)
Theorem cors_allows_every_origin (FRONTEND_URL origin : option string) :
  fst (cors_origin FRONTEND_URL origin) = mkCors None true /\
  (snd (cors_origin FRONTEND_URL origin) = [] <->
   truthy origin = false \/
   exists o, origin = Some o /\
     (o = "http://localhost:5173" \/ o = "http://localhost:5174" \/
      o = "http://localhost:5175" \/ FRONTEND_URL = Some o)).
Proof.
  unfold cors_origin.
  destruct (truthy origin) eqn:Ho; cbn [negb].
  2:{ split; [reflexivity|]. split; [left; reflexivity | reflexivity]. }
  destruct origin as [o|]; [|discriminate].
  assert (In o (allowedOrigins FRONTEND_URL) <->
          (o = "http://localhost:5173" \/ o = "http://localhost:5174" \/
           o = "http://localhost:5175" \/ FRONTEND_URL = Some o)) as Hin.
  { unfold allowedOrigins. cbn -[truthy String.eqb].
    destruct FRONTEND_URL as [f|].
    - destruct (truthy (Some f)) eqn:Hf; cbn.
      + split.
        * intros [H|[H|[H|[H|[]]]]]; subst; auto.
        * intros [H|[H|[H|H]]]; subst; auto.
          injection H as ->. auto.
      + split.
        * intros [H|[H|[H|[]]]]; subst; auto.
        * intros [H|[H|[H|H]]]; subst; auto.
          injection H as ->. rewrite Ho in Hf. discriminate.
    - cbn. split.
      + intros [H|[H|[H|[]]]]; subst; auto.
      + intros [H|[H|[H|H]]]; subst; auto. discriminate. }
  destruct (includes o (allowedOrigins FRONTEND_URL)) eqn:Hi.
  - split; [reflexivity|]. split; [|reflexivity].
    intros _. right. exists o. split; [reflexivity|].
    apply Hin, includes_In'. exact Hi.
  - split; [reflexivity|]. split; [discriminate|].
    intros [H|[o' [[= <-] H]]]; [discriminate|].
    apply Hin, includes_In' in H. congruence.
Qed.

End ErrorHandling.

(* ================================================================= *)
(** ** Authentication *)

Section ProtectProperties.

Variable Cloud : Type.
Variable JWT_SECRET : option string.
Variable jwt_verify : string -> string -> option AuthUser.

Lemma split_space_app (a b : string) :
  no_space a = true ->
  split_space (a ++ String " " b)%string = a :: split_space b.
Proof.
  induction a as [|c a IH]; intros Ha; cbn.
  - reflexivity.
  - cbn in Ha. apply andb_true_iff in Ha as [Hc Ha].
    apply negb_true_iff in Hc. rewrite Hc. rewrite (IH Ha). reflexivity.
Qed.

Lemma split_space_no_space (a : string) :
  no_space a = true -> split_space a = [a].
Proof.
  induction a as [|c a IH]; intros Ha; cbn.
  - reflexivity.
  - cbn in Ha. apply andb_true_iff in Ha as [Hc Ha].
    apply negb_true_iff in Hc. rewrite Hc. rewrite (IH Ha). reflexivity.
Qed.

Lemma startsWith_app (p s t : string) :
  startsWith p s = true -> startsWith p (s ++ t)%string = true.
Proof.
  revert s. induction p as [|a p IH]; intros s H; [reflexivity|].
  destruct s as [|b s]; [discriminate|]. cbn in *.
  apply andb_true_iff in H as [Hab H]. rewrite Hab. cbn. apply IH. exact H.
Qed.

Lemma bearer_token_second (scheme rest : string) :
  startsWith "Bearer" scheme = true -> no_space scheme = true ->
  bearer_token (Some (scheme ++ String " " rest)%string) = nth_error (split_space rest) 0.
Proof.
  intros Hs Hn. unfold bearer_token.
  rewrite (startsWith_app _ _ _ Hs).
  assert (truthy (Some (scheme ++ String " " rest)%string) = true) as ->.
  { destruct scheme; [discriminate | reflexivity]. }
  cbn [andb]. rewrite (split_space_app _ _ Hn). reflexivity.
Qed.

(** X25: The token [protect] reads is the second space-separated piece
    of the Authorization header: for a header made of a scheme that
    begins with "Bearer", one space and a token without spaces, it is the
    token, whatever follows a further space; a header with no space
    carries no token.  The scheme is only tested by its prefix. *)
Theorem bearer_token_parse (scheme t rest : string) :
  startsWith "Bearer" scheme = true ->
  no_space scheme = true ->
  no_space t = true ->
  bearer_token (Some (scheme ++ " " ++ t)%string) = Some t /\
  bearer_token (Some (scheme ++ " " ++ t ++ " " ++ rest)%string) = Some t /\
  bearer_token (Some scheme) = None.
Proof.
  intros Hs Hn Ht. split; [|split].
  - change (scheme ++ " " ++ t)%string with (scheme ++ String " " t)%string.
    rewrite (bearer_token_second _ _ Hs Hn).
    rewrite (split_space_no_space _ Ht). reflexivity.
  - change (scheme ++ " " ++ t ++ " " ++ rest)%string
      with (scheme ++ String " " (t ++ String " " rest))%string.
    rewrite (bearer_token_second _ _ Hs Hn).
    rewrite (split_space_app _ _ Ht). reflexivity.
  - unfold bearer_token. rewrite Hs.
    destruct (truthy (Some scheme)); [|reflexivity].
    cbn [andb]. rewrite (split_space_no_space _ Hn). reflexivity.
Qed.

(** X26: [protect] never changes the world.  It hands the request on
    only when the header carries a non-empty token, JWT_SECRET is set,
    the token verifies and the user of its payload is still stored, and
    then the request is the one it received with the payload as
    [req.user]; every other request is answered 401. *)
Theorem protect_sound (authorization : option string) (req : Request)
        (w : World Cloud) :
  snd (protect JWT_SECRET jwt_verify authorization req w) = w /\
  match fst (protect JWT_SECRET jwt_verify authorization req w) with
  | Responded r => status r = 401 /\ exists msg, body r = Failure msg
  | Next req' =>
      exists token secret decoded,
        bearer_token authorization = Some token /\ token <> "" /\
        JWT_SECRET = Some secret /\ secret <> "" /\
        jwt_verify token secret = Some decoded /\
        find (fun u => (u_id u =? a_id decoded)%N) (Users w) <> None /\
        req' = with_user req (mkAuthUser (a_id decoded) (a_username decoded)
                                         (email decoded))
  end.
Proof.
  unfold protect.
  destruct (bearer_token authorization) as [token|] eqn:Ht.
  2:{ cbn. split; [reflexivity|]. split; [reflexivity | eexists; reflexivity]. }
  destruct (truthy (Some token)) eqn:Htt; cbn [negb].
  2:{ cbn. split; [reflexivity|]. split; [reflexivity | eexists; reflexivity]. }
  destruct JWT_SECRET as [secret|] eqn:Hs.
  2:{ cbn. split; [reflexivity|]. split; [reflexivity | eexists; reflexivity]. }
  destruct (truthy (Some secret)) eqn:Hst; cbn [negb].
  2:{ cbn. split; [reflexivity|]. split; [reflexivity | eexists; reflexivity]. }
  destruct (jwt_verify token secret) as [decoded|] eqn:Hv.
  2:{ cbn. split; [reflexivity|]. split; [reflexivity | eexists; reflexivity]. }
  run_monad.
  destruct (find (fun u => (u_id u =? a_id decoded)%N) (Users w)) as [u|] eqn:Hu.
  2:{ cbn. split; [reflexivity|]. split; [reflexivity | eexists; reflexivity]. }
  cbn. split; [reflexivity|].
  exists token, secret, decoded.
  repeat match goal with |- _ /\ _ => split end; try reflexivity.
  - cbn in Htt. apply negb_true_iff, String.eqb_neq in Htt. exact Htt.
  - cbn in Hst. apply negb_true_iff, String.eqb_neq in Hst. exact Hst.
  - exact Hv.
  - rewrite Hu. discriminate.
Qed.

Lemma protect_next (authorization : option string) (req req' : Request)
      (w w' : World Cloud) :
  protect JWT_SECRET jwt_verify authorization req w = (Next req', w') ->
  w' = w /\
  exists decoded,
    find (fun u => (u_id u =? a_id decoded)%N) (Users w) <> None /\
    user req' = Some (mkAuthUser (a_id decoded) (a_username decoded) (email decoded)).
Proof.
  unfold protect.
  destruct (negb (truthy (bearer_token authorization))); [discriminate|].
  destruct (negb (truthy JWT_SECRET)); [discriminate|].
  destruct (jwt_verify _ _) as [decoded|]; [|discriminate].
  run_monad.
  destruct (find (fun u => (u_id u =? a_id decoded)%N) (Users w)) as [u|] eqn:Hu;
    [|discriminate].
  intros [= <- <-]. split; [reflexivity|].
  exists decoded. split; [rewrite Hu; discriminate | reflexivity].
Qed.


Lemma validateSync_message (p : IPostDocument) (m : string) :
  validateSync p = Some m -> m <> "" /\ m <> "User not found".
Proof.
  unfold validateSync.
  repeat match goal with
         | |- context [if ?b then _ else _] => destruct b
         end; intros [= <-]; split; discriminate.
Qed.

Lemma preSave_message (p : IPostDocument) (m : string) :
  preSave p = Some m -> m <> "" /\ m <> "User not found".
Proof.
  unfold preSave.
  destruct (negb (truthy (content p)) && (Z.of_nat (List.length (images p)) =? 0));
    intros [= <-]; split; discriminate.
Qed.

Lemma caught_message (m fallback : string) :
  m <> "" /\ m <> "User not found" ->
  Failure (if (m =? "")%string then fallback else m) <> Failure "User not found".
Proof.
  intros [H1 H2]. apply String.eqb_neq in H1. rewrite H1. congruence.
Qed.

(** X27: Behind [protect], createPost and addComment always find the
    author: a request that [protect] handed on is never answered "User
    not found" by either of them in the world [protect] left. *)
Theorem protected_routes_find_the_user (now : Date) (authorization : option string)
        (req req' : Request) (w w' : World Cloud) :
  protect JWT_SECRET jwt_verify authorization req w = (Next req', w') ->
  body (fst (route_createPost now req' w')) <> Failure "User not found" /\
  body (fst (route_addComment now req' w')) <> Failure "User not found".
Proof.
  intros Hp.
  destruct (protect_next authorization req req' w w' Hp) as [-> [decoded [Hu Hr]]].
  destruct (find (fun u => (u_id u =? a_id decoded)%N) (Users w)) as [u|] eqn:Hf;
    [clear Hu | contradiction].
  assert (option_map a_id (user req') = Some (a_id decoded)) as Hid.
  { rewrite Hr. reflexivity. }
  split.
  - unfold route_createPost, createPost, try_catch.
    destruct (negb (Z.of_nat (List.length (validation (createPostValidation req'))) =? 0)).
    { cbn. discriminate. }
    destruct (negb (truthy (body_content (createPostValidation req'))) &&
              no_files (files (createPostValidation req'))).
    { cbn. discriminate. }
    run_monad.
    assert (user (createPostValidation req') = user req') as ->.
    { unfold createPostValidation. destruct (body_content req'); reflexivity. }
    rewrite Hid, Hf. run_monad.
    match goal with |- context [validateSync ?p] => set (newp := p) end.
    destruct (validateSync newp) as [m|] eqn:Hv.
    { cbn. apply caught_message. exact (validateSync_message _ _ Hv). }
    destruct (preSave newp) as [m|] eqn:Hs.
    { cbn. apply caught_message. exact (preSave_message _ _ Hs). }
    cbn. discriminate.
  - unfold route_addComment, addComment, try_catch.
    destruct (negb (Z.of_nat (List.length (validation (commentValidation req'))) =? 0)).
    { cbn. discriminate. }
    unfold bind at 1.
    destruct (Post_findById_cases (params_id (commentValidation req')) w)
      as [(_ & Hq) | [(_ & _ & Hq) | (post & _ & Hq)]]; rewrite Hq.
    1,2: cbn; discriminate.
    run_monad.
    change (user (commentValidation req')) with (user req').
    rewrite Hid, Hf. run_monad.
    match goal with |- context [validateSync ?p] => set (newp := p) end.
    destruct (validateSync newp) as [m|] eqn:Hv.
    { cbn. apply caught_message. exact (validateSync_message _ _ Hv). }
    destruct (preSave newp) as [m|] eqn:Hs.
    { cbn. apply caught_message. exact (preSave_message _ _ Hs). }
    cbn. discriminate.
Qed.

End ProtectProperties.

Section AuthControllerProperties.

Variable JWT_SECRET : option string.
Variable jwt_sign : AuthUser -> string -> string.
Variable Accounts : Type.
Variable User_findOne_either : string -> string -> Accounts -> Res (option IUserDocument).
Variable User_findOne_email : string -> Accounts -> Res (option IUserDocument).
Variable User_create : string -> string -> string -> Accounts -> Res IUserDocument * Accounts.
Variable comparePassword : IUserDocument -> string -> Res bool.

(** X28: login does not tell an unknown email from a wrong password:
    both are answered 401 "Invalid email or password", and the
    collection is left as it is. *)
Theorem login_failures_look_alike (req : AuthRequest) (s : Accounts) :
  ar_validation req = [] ->
  User_findOne_email (ar_email req) s = Ok None \/
  (exists u, User_findOne_email (ar_email req) s = Ok (Some u) /\
             comparePassword u (ar_password req) = Ok false) ->
  login JWT_SECRET jwt_sign User_findOne_email comparePassword req s =
    (mkAuthResponse 401 (AuthFailure "Invalid email or password"), s).
Proof.
  intros Hv H. unfold login, auth_catch, query, bind, ret. rewrite Hv. cbn.
  destruct H as [H | [u [H Hc]]]; rewrite H; [reflexivity|].
  rewrite Hc. reflexivity.
Qed.

(** X29: signup creates nothing when it rejects: with validation
    messages it answers 400 with them; when the lookup by email or
    username finds a user it answers 400, "Email already registered" if
    that user's email is the requested one and "Username already taken"
    otherwise; when the lookup throws it answers 500.  The collection is
    unchanged in all three cases. *)
Theorem signup_rejections (req : AuthRequest) (s : Accounts) :
  (ar_validation req <> [] ->
   signup JWT_SECRET jwt_sign User_findOne_either User_create req s =
     (mkAuthResponse 400 (AuthInvalid (ar_validation req)), s)) /\
  (forall existing,
     ar_validation req = [] ->
     User_findOne_either (ar_email req) (ar_username req) s = Ok (Some existing) ->
     signup JWT_SECRET jwt_sign User_findOne_either User_create req s =
       (mkAuthResponse 400
          (AuthFailure (if (ud_email existing =? ar_email req)%string
                        then "Email already registered"
                        else "Username already taken")), s)) /\
  (forall msg,
     ar_validation req = [] ->
     User_findOne_either (ar_email req) (ar_username req) s = Throw msg ->
     signup JWT_SECRET jwt_sign User_findOne_either User_create req s =
       (mkAuthResponse 500
          (AuthFailure (if (msg =? "")%string then "Server error during registration"
                        else msg)), s)).
Proof.
  unfold signup, auth_catch, query, bind, ret. split; [|split].
  - intros Hv. destruct (ar_validation req); [contradiction|]. reflexivity.
  - intros existing Hv H. rewrite Hv. cbn. rewrite H. reflexivity.
  - intros msg Hv H. rewrite Hv. cbn. rewrite H. reflexivity.
Qed.

(** X30: signup stores the account before it makes the token: when
    [User.create] succeeds and JWT_SECRET is not set, the answer is 500
    "JWT_SECRET is not defined" and the new account stays in the
    collection; with JWT_SECRET set the answer is 201 with the token
    signed for the id, username and email of the stored document. *)
Theorem signup_stores_before_token (req : AuthRequest) (s s' : Accounts)
        (u : IUserDocument) :
  ar_validation req = [] ->
  User_findOne_either (ar_email req) (ar_username req) s = Ok None ->
  User_create (ar_username req) (ar_email req) (ar_password req) s = (Ok u, s') ->
  (truthy JWT_SECRET = false ->
   signup JWT_SECRET jwt_sign User_findOne_either User_create req s =
     (mkAuthResponse 500 (AuthFailure "JWT_SECRET is not defined"), s')) /\
  (forall secret, JWT_SECRET = Some secret -> secret <> "" ->
   signup JWT_SECRET jwt_sign User_findOne_either User_create req s =
     (mkAuthResponse 201
        (AuthData (ud_id u) (ud_username u) (ud_email u) (ud_profilePicture u)
                  (jwt_sign (mkAuthUser (ud_id u) (ud_username u) (ud_email u)) secret)),
      s')).
Proof.
  intros Hv Hf Hc.
  unfold signup, auth_catch, query, bind, ret, generateToken, throw.
  rewrite Hv. cbn -[truthy]. rewrite Hf, Hc. split.
  - intros Hs. rewrite Hs. reflexivity.
  - intros secret Hs Hne. rewrite Hs. cbn.
    apply String.eqb_neq in Hne. rewrite Hne. reflexivity.
Qed.

End AuthControllerProperties.

(* ================================================================= *)
(** ** The further properties on the sample data *)

Lemma edited_world_reachable : reachable always_resolves never_JSON edited_world.
Proof. apply reach_serve. apply sample_world_reachable. Qed.

Lemma reachable_ids_fresh_witness :
  reachable always_resolves never_JSON edited_world /\
  NoDup (map p_id (Posts edited_world)) /\
  Forall (fun p => (p_id p < nextId edited_world)%N) (Posts edited_world) /\
  (forall p, In p (Posts edited_world) -> lookup (p_id p) edited_world = Some p).
Proof.
  split; [apply edited_world_reachable|].
  exact (reachable_ids_fresh always_resolves never_JSON edited_world
           edited_world_reachable).
Defined.

Lemma createPost_then_getPost_witness :
  reachable always_resolves never_JSON sample_world /\
  succeeded (fst (route_createPost 200 picture_request sample_world)) = true /\
  (let '(r, w') := route_createPost 200 picture_request sample_world in
   succeeded r = true ->
   exists p,
     r = json 201 (Success (PostData p)) /\
     (params_id (request_on 13 None) = p_id p ->
      getPost (request_on 13 None) w' = (json 200 (Success (PostData p)), w'))).
Proof.
  split; [apply sample_world_reachable|]. split; [reflexivity|].
  exact (createPost_then_getPost always_resolves never_JSON 200 picture_request
           (request_on 13 None) sample_world (sample_world_reachable always_resolves)).
Defined.

Lemma deletePost_removes_the_post_witness :
  reachable always_resolves never_JSON sample_world /\
  lookup 10 sample_world = Some hello_post /\
  owner hello_post (request_on 10 as_alice) /\
  all_resolve always_resolves (map publicId (images hello_post)) (cloud sample_world) = true /\
  (let '(r, w') := deletePost always_resolves (request_on 10 as_alice) sample_world in
   status r = 200 /\
   lookup 10 w' = None /\
   (params_id (request_on 10 None) = 10%N ->
    getPost (request_on 10 None) w' = (json 404 (Failure "Post not found"), w')) /\
   (forall j : ParamId, j <> 10%N -> lookup j w' = lookup j sample_world)).
Proof.
  assert (owner hello_post (request_on 10 as_alice)) as Ho by (now apply alice_owns).
  split; [apply sample_world_reachable|]. split; [reflexivity|].
  split; [exact Ho|]. split; [reflexivity|].
  exact (deletePost_removes_the_post always_resolves never_JSON
           (request_on 10 as_alice) (request_on 10 None) sample_world hello_post
           (sample_world_reachable always_resolves) eq_refl Ho eq_refl).
Defined.

Lemma mutation_keeps_identity_witness :
  lookup 10 sample_world = Some hello_post /\
  exists post',
    lookup 10 (snd (perform always_resolves never_JSON 200
                            (UpdatePost swap_image_request) sample_world)) = Some post' /\
    p_id post' = p_id hello_post /\ author post' = author hello_post /\
    authorUsername post' = authorUsername hello_post /\
    authorProfilePicture post' = authorProfilePicture hello_post /\
    createdAt post' = createdAt hello_post.
Proof.
  split; [reflexivity|].
  exact (mutation_keeps_identity always_resolves never_JSON 200
           (UpdatePost swap_image_request) sample_world 10%N hello_post eq_refl).
Defined.

Lemma comments_are_append_only_witness :
  lookup 10 sample_world = Some hello_post /\
  exists post' cs,
    lookup 10 (snd (perform always_resolves never_JSON 200
                            (AddComment comment_request) sample_world)) = Some post' /\
    comments post' = comments hello_post ++ cs /\
    (List.length cs <= 1)%nat /\
    (cs <> [] -> exists req, AddComment comment_request = AddComment req /\
                             params_id req = 10%N).
Proof.
  split; [reflexivity|].
  exact (comments_are_append_only always_resolves never_JSON 200
           (AddComment comment_request) sample_world 10%N hello_post eq_refl).
Defined.

Lemma mutation_is_local_witness :
  wellFormed 11 <> subject (UpdatePost swap_image_request) sample_world /\
  lookup 11 (snd (perform always_resolves never_JSON 200
                          (UpdatePost swap_image_request) sample_world)) =
    lookup 11 sample_world.
Proof.
  assert (wellFormed 11 <> subject (UpdatePost swap_image_request) sample_world) as Hn
      by discriminate.
  split; [exact Hn|].
  exact (mutation_is_local always_resolves never_JSON 200
           (UpdatePost swap_image_request) sample_world 11%N Hn).
Defined.


Lemma hello_request_acceptable : acceptable_update hello_request.
Proof.
  split.
  - intros c Hc. inversion Hc; subst c. vm_compute. discriminate.
  - intros fs Hf. inversion Hf; subst fs. reflexivity.
Qed.

Lemma createPost_succeeds_witness :
  validation hello_request = [] /\
  user hello_request = Some (mkAuthUser 1 "alice" "alice@example.com") /\
  find (fun x => (u_id x =? 1)%N) (Users empty_world) = Some alice /\
  u_username alice <> "" /\
  acceptable_update hello_request /\
  (truthy (setter_trim (body_content hello_request)) = true \/
   no_files (files hello_request) = false) /\
  route_createPost 100 hello_request empty_world =
    (json 201 (Success (PostData hello_post)),
     mkWorld [hello_post] [alice; bob] tt [] 11).
Proof.
  assert (u_username alice <> "") as Hn by discriminate.
  split; [reflexivity|]. split; [reflexivity|]. split; [reflexivity|].
  split; [exact Hn|]. split; [exact hello_request_acceptable|].
  split; [left; reflexivity|].
  exact (createPost_succeeds 100 hello_request empty_world
           (mkAuthUser 1 "alice" "alice@example.com") alice
           eq_refl eq_refl eq_refl Hn hello_request_acceptable (or_introl eq_refl)).
Defined.

Lemma long_content_length : strlen (trim long_content) = 2001.
Proof. vm_compute. reflexivity. Qed.

Lemma createPost_rejections_witness :
  (body_content overlong_post_request = Some long_content /\
   2000 < strlen (trim long_content) /\
   exists errs,
     route_createPost 200 overlong_post_request sample_world =
       (json 400 (Invalid errs), sample_world) /\
     In "Content cannot exceed 2000 characters" errs) /\
  (validation stranger_request = [] /\
   route_createPost 200 stranger_request sample_world =
     (json 404 (Failure "User not found"), sample_world)).
Proof.
  assert (2000 < strlen (trim long_content)) as Hlen
      by (rewrite long_content_length; reflexivity).
  split.
  - split; [reflexivity|]. split; [exact Hlen|].
    exact (proj1 (createPost_rejections 200 overlong_post_request sample_world)
                 long_content eq_refl Hlen).
  - split; [reflexivity|].
    apply (proj2 (createPost_rejections 200 stranger_request sample_world)).
    + reflexivity.
    + intros c Hc. inversion Hc; subst c. vm_compute. discriminate.
    + left. reflexivity.
    + intros u Hu. inversion Hu; subst u. reflexivity.
Defined.

Lemma addComment_rejects_bad_text_witness :
  trim "   " = "" /\
  exists errs,
    route_addComment 200 blank_comment_request sample_world =
      (json 400 (Invalid errs), sample_world) /\ errs <> [].
Proof.
  split; [reflexivity|].
  exact (addComment_rejects_bad_text 200 blank_comment_request sample_world
           (or_introl eq_refl)).
Defined.

Lemma addComment_succeeds_witness :
  reachable always_resolves never_JSON sample_world /\
  validation comment_request = [] /\
  body_text comment_request = Some " nice " /\
  trim " nice " <> "" /\ strlen (trim " nice ") <= 500 /\
  lookup 10 sample_world = Some hello_post /\
  user comment_request = Some (mkAuthUser 2 "bob" "bob@example.com") /\
  find (fun x => (u_id x =? 2)%N) (Users sample_world) = Some bob /\
  u_username bob <> "" /\
  (let c := mkComment 13 2 "bob" "nice" 200 200 in
   let '(r, w') := route_addComment 200 comment_request sample_world in
   r = json 201 (Success (CommentData (Some c))) /\
   lookup 10 w' = Some (commented_post 200 c hello_post) /\
   comments (commented_post 200 c hello_post) = comments hello_post ++ [c]).
Proof.
  assert (trim " nice " <> "") as Ht by discriminate.
  assert (strlen (trim " nice ") <= 500) as Hl by (vm_compute; discriminate).
  assert (u_username bob <> "") as Hn by discriminate.
  split; [apply sample_world_reachable|].
  split; [reflexivity|]. split; [reflexivity|]. split; [exact Ht|]. split; [exact Hl|].
  split; [reflexivity|]. split; [reflexivity|]. split; [reflexivity|]. split; [exact Hn|].
  exact (addComment_succeeds always_resolves never_JSON 200 comment_request sample_world
           hello_post (mkAuthUser 2 "bob" "bob@example.com") bob " nice "
           (sample_world_reachable always_resolves) eq_refl eq_refl Ht Hl
           eq_refl eq_refl eq_refl Hn).
Defined.

Lemma missing_post_is_not_found_witness :
  lookup 99 sample_world = None /\
  params_id (request_on 99 as_alice) <> None /\
  getPost (request_on 99 as_alice) sample_world =
    (json 404 (Failure "Post not found"), sample_world) /\
  deletePost always_resolves (request_on 99 as_alice) sample_world =
    (json 404 (Failure "Post not found"), sample_world) /\
  lookup (params_id (malformed_request as_alice)) sample_world = None /\
  params_id (malformed_request as_alice) = None /\
  (exists msg,
      msg <> "" /\
      getPost (malformed_request as_alice) sample_world =
        (json 500 (Failure msg), sample_world) /\
      deletePost always_resolves (malformed_request as_alice) sample_world =
        (json 500 (Failure msg), sample_world)).
Proof.
  assert (params_id (request_on 99 as_alice) <> None) as Hwf by discriminate.
  split; [reflexivity|]. split; [exact Hwf|].
  destruct (missing_post_is_not_found always_resolves never_JSON 200
              (request_on 99 as_alice) sample_world eq_refl) as [H _].
  destruct (missing_post_is_not_found always_resolves never_JSON 200
              (malformed_request as_alice) sample_world eq_refl) as [_ H'].
  split; [exact (proj1 (H Hwf))|].
  split; [exact (proj1 (proj2 (proj2 (proj2 (proj2 (H Hwf))))))|].
  split; [reflexivity|]. split; [reflexivity|].
  destruct (H' eq_refl) as (msg & Hm & Hg & _ & _ & _ & Hd & _).
  exists msg. split; [exact Hm|]. split; [exact Hg|exact Hd].
Defined.

Lemma likePost_outcomes_witness :
  reachable always_resolves never_JSON sample_world /\
  (let '(r, w') := likePost 200 (request_on 10 as_bob) sample_world in
   r = json 200 (Success (LikeData (mkLikes 1 ["bob"]) true)) /\
   lookup 10 w' = Some (liked_post 200 "bob" hello_post)) /\
  (let '(r, w') := likePost 200 (malformed_request as_bob) sample_world in
   status r = 500 /\ w' = sample_world).
Proof.
  split; [apply sample_world_reachable|].
  pose proof (likePost_outcomes always_resolves never_JSON 200 (request_on 10 as_bob)
                sample_world (sample_world_reachable always_resolves)) as H.
  pose proof (likePost_outcomes always_resolves never_JSON 200 (malformed_request as_bob)
                sample_world (sample_world_reachable always_resolves)) as H'.
  split.
  - clear H'. revert H.
    destruct (likePost 200 (request_on 10 as_bob) sample_world) as [r w'].
    intros [[H|[H|[H|H]]] _].
    + destruct H as [Hm _]. discriminate Hm.
    + destruct H as (_ & Hl & _). discriminate Hl.
    + destruct H as (_ & Ht & _). discriminate Ht.
    + destruct H as (post & u & Hl & Hu & _ & Hr & Hw).
      change (Some hello_post = Some post) in Hl. injection Hl as <-.
      change (as_bob = Some u) in Hu. unfold as_bob in Hu. injection Hu as <-.
      split; [exact Hr|exact Hw].
  - clear H. revert H'.
    destruct (likePost 200 (malformed_request as_bob) sample_world) as [r w'].
    intros [[H|[H|[H|H]]] _].
    + destruct H as (_ & Hs & _ & Hw). split; assumption.
    + destruct H as [Hwf _]. now contradiction Hwf.
    + destruct H as [Hl _]. now contradiction Hl.
    + destruct H as (post & u & Hl & _). discriminate Hl.
Defined.

Lemma likes_of_two_users_commute_witness :
  reachable always_resolves never_JSON sample_world /\
  lookup 10 sample_world = Some hello_post /\
  "alice" <> "bob" /\
  (let wU := snd (likePost 200 (request_on 10 as_alice) sample_world) in
   let wUV := snd (likePost 201 (request_on 10 as_bob) wU) in
   let wVU := snd (likePost 201 (request_on 10 as_alice)
                            (snd (likePost 200 (request_on 10 as_bob) sample_world))) in
   exists pU pUV pVU,
     lookup 10 wU = Some pU /\ lookup 10 wUV = Some pUV /\ lookup 10 wVU = Some pVU /\
     includes "bob" (users (likes pU)) = includes "bob" (users (likes hello_post)) /\
     count (likes pUV) = count (likes pVU) /\
     Permutation (users (likes pUV)) (users (likes pVU))).
Proof.
  assert ("alice" <> "") as Ha by discriminate.
  assert ("bob" <> "") as Hb by discriminate.
  assert ("alice" <> "bob") as Hab by discriminate.
  split; [apply sample_world_reachable|]. split; [reflexivity|]. split; [exact Hab|].
  exact (likes_of_two_users_commute always_resolves never_JSON 200 201
           (request_on 10 as_alice) (request_on 10 as_bob) sample_world hello_post
           (mkAuthUser 1 "alice" "alice@example.com") (mkAuthUser 2 "bob" "bob@example.com")
           (sample_world_reachable always_resolves) eq_refl eq_refl eq_refl eq_refl
           Ha Hb Hab).
Defined.

Lemma getPosts_defaults_witness :
  query_page (request_on 0 None) = None /\
  query_limit (request_on 0 None) = None /\
  getPosts (request_on 0 None) sample_world = getPosts (page_request 1 10) sample_world /\
  feed_of (fst (getPosts (request_on 0 None) sample_world)) =
    firstn 10 (sort_createdAt_desc (Posts sample_world)).
Proof.
  split; [reflexivity|]. split; [reflexivity|].
  exact (getPosts_defaults (request_on 0 None) sample_world
           (or_introl eq_refl) (or_introl eq_refl)).
Defined.

Lemma feed_pages_partition_witness :
  1 <= 2 /\
  flat_map (fun k => feed_page sample_world 2 (S k)) (seq 0 2) =
    firstn (2 * Z.to_nat 2) (sort_createdAt_desc (Posts sample_world)) /\
  ((List.length (Posts sample_world) <= 2 * Z.to_nat 2)%nat ->
   flat_map (fun k => feed_page sample_world 2 (S k)) (seq 0 2) =
     sort_createdAt_desc (Posts sample_world)).
Proof.
  assert (1 <= 2) as H by lia.
  split; [exact H|].
  exact (feed_pages_partition sample_world 2 2%nat H).
Defined.

Lemma empty_update_marks_edited_witness :
  reachable always_resolves never_JSON sample_world /\
  lookup 10 sample_world = Some hello_post /\
  owner hello_post (request_on 10 as_alice) /\
  (let '(r, w') := updatePost always_resolves never_JSON 200 (request_on 10 as_alice)
                              sample_world in
   exists post',
     r = json 200 (Success (PostData post')) /\
     lookup 10 w' = Some post' /\
     content post' = content hello_post /\ images post' = images hello_post /\
     likes post' = likes hello_post /\ comments post' = comments hello_post /\
     isEdited post' = true /\ editedAt post' = Some 200 /\ updatedAt post' = 200 /\
     deleteCalls w' = deleteCalls sample_world /\ cloud w' = cloud sample_world).
Proof.
  assert (owner hello_post (request_on 10 as_alice)) as Ho by (now apply alice_owns).
  split; [apply sample_world_reachable|]. split; [reflexivity|]. split; [exact Ho|].
  exact (empty_update_marks_edited always_resolves never_JSON 200 (request_on 10 as_alice)
           sample_world hello_post (sample_world_reachable always_resolves)
           eq_refl Ho eq_refl eq_refl eq_refl).
Defined.

Lemma foreign_delete_request_acceptable : acceptable_update foreign_delete_request.
Proof. split; [intros c Hc | intros fs Hf]; discriminate. Qed.

Lemma foreign_delete_request_foreign (pid : string) (img : IImageDocument) :
  In pid ["img_c"] -> In img (images hello_post) -> publicId img <> pid.
Proof.
  cbn. intros [<-|[]] [<-|[<-|[]]]; discriminate.
Qed.

Lemma update_deletes_assets_it_does_not_own_witness :
  reachable always_resolves never_JSON sample_world /\
  lookup 10 sample_world = Some hello_post /\
  owner hello_post foreign_delete_request /\
  body_imagesToDelete foreign_delete_request = Some (FormArray ["img_c"]) /\
  acceptable_update foreign_delete_request /\
  (let '(r, w') := updatePost always_resolves never_JSON 200 foreign_delete_request
                              sample_world in
   exists post',
     r = json 200 (Success (PostData post')) /\
     lookup 10 w' = Some post' /\
     deleteCalls w' = deleteCalls sample_world ++ map JString ["img_c"] /\
     images post' =
       images hello_post ++
       match files foreign_delete_request with Some fs => to_images fs | None => [] end) /\
  deleteCalls (snd (updatePost always_resolves never_JSON 200 foreign_delete_request
                               sample_world)) = [JString "img_c"].
Proof.
  assert (owner hello_post foreign_delete_request) as Ho by (now apply alice_owns).
  split; [apply sample_world_reachable|]. split; [reflexivity|]. split; [exact Ho|].
  split; [reflexivity|].
  split; [exact foreign_delete_request_acceptable|].
  split; [|reflexivity].
  exact (update_deletes_assets_it_does_not_own always_resolves never_JSON 200
           foreign_delete_request sample_world hello_post ["img_c"]
           (sample_world_reachable always_resolves) eq_refl Ho (or_introl eq_refl)
           foreign_delete_request_acceptable (or_introl eq_refl)
           foreign_delete_request_foreign).
Defined.

Lemma overlong_update_is_a_server_error_witness :
  reachable always_resolves never_JSON sample_world /\
  lookup 10 sample_world = Some hello_post /\
  owner hello_post overlong_update_request /\
  body_content overlong_update_request = Some long_content /\
  2000 < strlen (trim long_content) /\
  (let '(r, w') := updatePost always_resolves never_JSON 200 overlong_update_request
                              sample_world in
   (exists msg, r = json 500 (Failure msg)) /\
   Posts w' = Posts sample_world /\
   deleteCalls w' =
     deleteCalls sample_world ++
     match requested never_JSON (body_imagesToDelete overlong_update_request) with
     | Ok ids => ids
     | Throw _ => []
     end) /\
  requested never_JSON (body_imagesToDelete overlong_update_request) = Ok [JString "img_a"].
Proof.
  assert (owner hello_post overlong_update_request) as Ho by (now apply alice_owns).
  assert (2000 < strlen (trim long_content)) as Hlen
      by (rewrite long_content_length; reflexivity).
  split; [apply sample_world_reachable|]. split; [reflexivity|]. split; [exact Ho|].
  split; [reflexivity|]. split; [exact Hlen|]. split; [|reflexivity].
  exact (overlong_update_is_a_server_error always_resolves never_JSON 200
           overlong_update_request sample_world hello_post long_content
           (sample_world_reachable always_resolves) eq_refl Ho eq_refl Hlen).
Defined.

Lemma errorHandler_status_witness :
  status (errorHandler (mkError "MongoServerError" "E11000 duplicate key" None
                                (Some 11000) (Some ["email"]))) = 400 /\
  status (errorHandler (mkError "Error" "teapot" (Some 418) None None)) = 418 /\
  status (errorHandler (mkError "Error" "" (Some 0) None None)) = 500.
Proof.
  split; [|split].
  - apply (proj1 (errorHandler_status _)). left. reflexivity.
  - rewrite (proj1 (proj2 (errorHandler_status _))); [reflexivity | | | ]; discriminate.
  - rewrite (proj1 (proj2 (errorHandler_status _))); [reflexivity | | | ]; discriminate.
Defined.

Lemma errorHandler_message_witness :
  exists msg,
    body (errorHandler (mkError "MongoServerError" "E11000 duplicate key" None
                                (Some 11000) None)) = Failure msg /\
    msg = "undefined already exists".
Proof.
  destruct (errorHandler_message (mkError "MongoServerError" "E11000 duplicate key" None
                                          (Some 11000) None))
    as [msg [Hb [_ [_ [Hd _]]]]].
  exists msg. split; [exact Hb|].
  apply Hd; [discriminate | reflexivity | left; reflexivity].
Defined.

Lemma bearer_token_parse_witness :
  startsWith "Bearer" "Bearer" = true /\ no_space "Bearer" = true /\
  no_space "alice-token" = true /\
  bearer_token (Some "Bearer alice-token") = Some "alice-token" /\
  bearer_token (Some "Bearer alice-token and more") = Some "alice-token" /\
  bearer_token (Some "Bearer") = None.
Proof.
  split; [reflexivity|]. split; [reflexivity|]. split; [reflexivity|].
  exact (bearer_token_parse "Bearer" "alice-token" "and more" eq_refl eq_refl eq_refl).
Defined.

Lemma protected_routes_find_the_user_witness :
  protect (Some "s3cret") sample_verify (Some "Bearer alice-token")
          (request_on 10 None) sample_world =
    (Next (request_on 10 as_alice), sample_world) /\
  body (fst (route_createPost 200 (request_on 10 as_alice) sample_world)) <>
    Failure "User not found" /\
  body (fst (route_addComment 200 (request_on 10 as_alice) sample_world)) <>
    Failure "User not found".
Proof.
  split; [reflexivity|].
  exact (protected_routes_find_the_user unit (Some "s3cret") sample_verify 200
           (Some "Bearer alice-token") (request_on 10 None) (request_on 10 as_alice)
           sample_world sample_world eq_refl).
Defined.

Lemma login_failures_look_alike_witness :
  login None sample_sign sample_findOne_email sample_comparePassword
        (login_request "nobody@example.com" "correct horse") sample_accounts =
    (mkAuthResponse 401 (AuthFailure "Invalid email or password"), sample_accounts) /\
  login None sample_sign sample_findOne_email sample_comparePassword
        (login_request "alice@example.com" "wrong") sample_accounts =
    (mkAuthResponse 401 (AuthFailure "Invalid email or password"), sample_accounts).
Proof.
  split.
  - exact (login_failures_look_alike None sample_sign (list IUserDocument)
             sample_findOne_email sample_comparePassword
             (login_request "nobody@example.com" "correct horse") sample_accounts
             eq_refl (or_introl eq_refl)).
  - apply (login_failures_look_alike None sample_sign (list IUserDocument)
             sample_findOne_email sample_comparePassword
             (login_request "alice@example.com" "wrong") sample_accounts eq_refl).
    right. eexists. split; reflexivity.
Defined.

Lemma signup_rejections_witness :
  signup None sample_sign sample_findOne_either sample_create
         (signup_request "alice" "other@example.com") sample_accounts =
    (mkAuthResponse 400 (AuthFailure "Username already taken"), sample_accounts).
Proof.
  exact (proj1 (proj2 (signup_rejections None sample_sign (list IUserDocument)
                         sample_findOne_either sample_create
                         (signup_request "alice" "other@example.com") sample_accounts))
               (mkUserDocument 1 "alice" "alice@example.com" "") eq_refl eq_refl).
Defined.

Lemma signup_stores_before_token_witness :
  truthy None = false /\
  signup None sample_sign sample_findOne_either sample_create
         (signup_request "bob" "bob@example.com") sample_accounts =
    (mkAuthResponse 500 (AuthFailure "JWT_SECRET is not defined"),
     sample_accounts ++ [mkUserDocument 2 "bob" "bob@example.com" ""]).
Proof.
  split; [reflexivity|].
  exact (proj1 (signup_stores_before_token None sample_sign (list IUserDocument)
                  sample_findOne_either sample_create
                  (signup_request "bob" "bob@example.com") sample_accounts
                  (sample_accounts ++ [mkUserDocument 2 "bob" "bob@example.com" ""])
                  (mkUserDocument 2 "bob" "bob@example.com" "")
                  eq_refl eq_refl eq_refl) eq_refl).
Defined.

(** The scenario of the claim: a post with three images, in an asset
    store that fails to delete the first one. *)
Lemma C8_witness :
  reachable rejects_img_a never_JSON sample_world /\
  lookup 12 sample_world = Some album_post /\
  owner album_post (request_on 12 as_alice) /\
  fst (rejects_img_a (JString "img_a") (cloud sample_world)) = Some "DeletionError" /\
  (let '(r, w') := deletePost rejects_img_a (request_on 12 as_alice) sample_world in
   r = json 200 (Done "Post deleted successfully") /\
   deleteCalls w' =
     deleteCalls sample_world ++ map JString (map publicId (images album_post)) /\
   (forall img, In img (images album_post) ->
                In (JString (publicId img)) (deleteCalls w')) /\
   cloud w' =
     cloud_after rejects_img_a (map JString (map publicId (images album_post)))
                 (cloud sample_world) /\
   Posts w' = remove_doc (p_id album_post) (Posts sample_world) /\
   lookup 12 w' = None) /\
  deletePost rejects_img_a (request_on 12 as_alice) sample_world =
    (json 200 (Done "Post deleted successfully"),
     mkWorld [hello_post; picture_post] [alice; bob] tt
             [JString "img_a"; JString "img_b"; JString "img_c"] 13%N).
Proof.
  assert (owner album_post (request_on 12 as_alice)) as Ho by (now apply alice_owns).
  split; [apply sample_world_reachable|]. split; [reflexivity|]. split; [exact Ho|].
  split; [reflexivity|]. split; [|reflexivity].
  exact (C8_deletePost_attempts_every_deletion rejects_img_a never_JSON
           (request_on 12 as_alice) sample_world album_post
           (sample_world_reachable rejects_img_a) eq_refl Ho).
Defined.
